(** * Screen-7: the filtering-and-aggregation pipeline of [app.py]

    A shallow embedding of the Streamlit script [src/app.py]: the per-MSA
    load with its list-column clean-up, the remote-type normalisation, the
    salary slider bound, the filter block and the chart aggregations,
    followed by the properties the design document states about them.

    Conventions of the embedding.
    - A pandas [Series] is a list of cells, a [DataFrame] a column index
      plus a list of rows; positions stand for the pandas index, which the
      script never inspects.
    - A float64 cell is [option Q]: [None] is NaN, [Some q] an exact
      rational (rounding of IEEE arithmetic and the infinities are not
      represented).
    - A text cell is [option string]: [None] is the missing value; a
      text is the byte string of its UTF-8 encoding.
    - An object cell of a skill column is a [PyObj].
    - A Python exception is the [Raise] branch of [PyResult].
    - The script pins neither its NumPy nor its pandas release; where
      the two lines that depend on one (40 and 57) are modelled, the
      release is a parameter. *)

From Stdlib Require Import List String Ascii Bool Arith ZArith QArith Qround.
From Stdlib Require Import Lia Permutation.
Import ListNotations.

Local Open Scope string_scope.
Local Open Scope list_scope.
Local Open Scope nat_scope.

(* ===================================================================== *)
(** * Python values and built-ins *)
(* ===================================================================== *)

Module Py.

Inductive PyError : Type :=
| ValueError
| TypeError
| SyntaxError.

Inductive PyResult (A : Type) : Type :=
| Ok (a : A)
| Raise (e : PyError).

Arguments Ok {A} a.
Arguments Raise {A} e.

Definition bind {A B : Type} (m : PyResult A) (k : A -> PyResult B)
  : PyResult B :=
  match m with
  | Ok a => k a
  | Raise e => Raise e
  end.

Definition raises {A : Type} (m : PyResult A) : bool :=
  match m with
  | Ok _ => false
  | Raise _ => true
  end.

(** [[f(x) for x in xs]], stopping at the first exception. *)
Fixpoint mapM {A B : Type} (f : A -> PyResult B) (xs : list A)
  : PyResult (list B) :=
  match xs with
  | [] => Ok []
  | x :: xs' =>
      bind (f x) (fun y => bind (mapM f xs') (fun ys => Ok (y :: ys)))
  end.

(** The objects a skill column can hold: the missing value, a text (the
    serialised list read from the parquet file) and a list of texts (the
    decoded cell).  Other Python values do not occur in those columns of
    the data set and are not represented. *)
Inductive PyObj : Type :=
| PyNaN
| PyStr (s : string)
| PyList (l : list string).

(** Texts are byte strings holding UTF-8.  [str.isspace] is true of
    twenty-nine code points: TAB, LF, VT, FF, CR, the separators FS GS RS
    US, the space, U+0085, U+00A0, U+1680, U+2000 to U+200A, U+2028,
    U+2029, U+202F, U+205F and U+3000.  [whitespace] lists their
    encodings. *)
Definition bytes (codes : list nat) : string :=
  string_of_list_ascii (map ascii_of_nat codes).

Definition whitespace : list string :=
  Eval vm_compute in
    map bytes
      [ [9]; [10]; [11]; [12]; [13]; [28]; [29]; [30]; [31]; [32];
        [194; 133]; [194; 160];
        [225; 154; 128];
        [226; 128; 128]; [226; 128; 129]; [226; 128; 130]; [226; 128; 131];
        [226; 128; 132]; [226; 128; 133]; [226; 128; 134]; [226; 128; 135];
        [226; 128; 136]; [226; 128; 137]; [226; 128; 138];
        [226; 128; 168]; [226; 128; 169]; [226; 128; 175];
        [226; 129; 159];
        [227; 128; 128] ].

(** The number of bytes of the white-space code point [s] starts with,
    [0] when it starts with none. *)
Definition space_width (s : string) : nat :=
  match find (fun w => String.prefix w s) whitespace with
  | Some w => String.length w
  | None => 0
  end.

(** [s.lstrip()]: drop code points from the left while they are white
    space.  [pending] counts the bytes still to drop of the code point
    being removed. *)
Fixpoint lstrip_from (pending : nat) (s : string) : string :=
  match s with
  | EmptyString => EmptyString
  | String _ s' =>
      match pending with
      | S p => lstrip_from p s'
      | 0 =>
          match space_width s with
          | 0 => s
          | S p => lstrip_from p s'
          end
      end
  end.

Definition lstrip (s : string) : string := lstrip_from 0 s.

(** A text made of white space only. *)
Definition blank (s : string) : bool :=
  match lstrip s with
  | EmptyString => true
  | String _ _ => false
  end.

(** [s.rstrip()]: cut where the rest of the text is white space only. *)
Fixpoint rstrip (s : string) : string :=
  match s with
  | EmptyString => EmptyString
  | String c s' => if blank s then EmptyString else String c (rstrip s')
  end.

(** [s.strip()] *)
Definition strip (s : string) : string := rstrip (lstrip s).

(** [int(x)] on a float: truncation toward zero; [int(nan)] raises
    [ValueError: cannot convert float NaN to integer].  The infinities,
    on which [int] raises [OverflowError], are not values of the cell
    type. *)
Definition int (x : option Q) : PyResult Z :=
  match x with
  | None => Raise ValueError
  | Some q => Ok (Z.quot (Qnum q) (Zpos (Qden q)))
  end.

(** [if xs:] on a list. *)
Definition list_truth {A : Type} (xs : list A) : bool :=
  match xs with
  | [] => false
  | _ :: _ => true
  end.

End Py.

Export Py.

Declare Scope py_scope.
Delimit Scope py_scope with py.
Notation "x <- m ;; k" := (Py.bind m (fun x => k))
  (at level 61, m at next level, right associativity) : py_scope.

(* ===================================================================== *)
(** * The pandas and NumPy operations the script calls *)
(* ===================================================================== *)

Module Pandas.

(** ** NumPy truth values *)

(** [bool(a)] of an empty array changed between NumPy releases: it was
    [False] (with a deprecation warning) before 2.2 and raises
    [ValueError] from 2.2 on.  The script pins no release. *)
Inductive NumpyRelease : Type :=
| numpy_before_2_2
| numpy_from_2_2.

(** ** pandas releases *)

(** pandas 3 made copy-on-write the only mode: [df[c]] is a new object,
    and a method called on it with [inplace=True] updates that object
    and leaves [df] as it was.  Before pandas 3 (copy-on-write off, the
    default) such a call reached the column of [df].  Release 3 also
    gave text columns the [str] dtype.  The script pins no release. *)
Inductive PandasRelease : Type :=
| pandas_before_3
| pandas_from_3.

(** What [pd.notnull] returns: a Python [bool] on a scalar, a boolean
    array on a list. *)
Inductive NotNull : Type :=
| NBool (b : bool)
| NArray (a : list bool).

(** [pd.notnull(x)].  The elements of a list are texts, hence present. *)
Definition notnull (x : PyObj) : NotNull :=
  match x with
  | PyNaN => NBool false
  | PyStr _ => NBool true
  | PyList l => NArray (map (fun _ => true) l)
  end.

(** The truth value taken by [... if pd.notnull(x) else ...]. *)
Definition truth (np : NumpyRelease) (v : NotNull) : PyResult bool :=
  match v with
  | NBool b => Ok b
  | NArray [] =>
      match np with
      | numpy_before_2_2 => Ok false
      | numpy_from_2_2 => Raise ValueError
      end
  | NArray [b] => Ok b
  | NArray (_ :: _ :: _) => Raise ValueError
  end.

(** ** Element-wise comparisons (a comparison with NaN is [False],
    except [!=], which is [True]) *)

(** [s >= x] *)
Definition ge (s : list (option Q)) (x : Z) : list bool :=
  map (fun c => match c with
                | Some q => Qle_bool (inject_Z x) q
                | None => false
                end) s.

(** [s <= x] *)
Definition le (s : list (option Q)) (x : Z) : list bool :=
  map (fun c => match c with
                | Some q => Qle_bool q (inject_Z x)
                | None => false
                end) s.

(** [s != v] *)
Definition ne (s : list (option string)) (v : string) : list bool :=
  map (fun c => match c with
                | Some t => negb (String.eqb t v)
                | None => true
                end) s.

(** [s.isin(values)] with [values] a list of texts. *)
Definition isin (s : list (option string)) (values : list string)
  : list bool :=
  map (fun c => match c with
                | Some t => existsb (String.eqb t) values
                | None => false
                end) s.

(** [m1 & m2] on two masks over the same index. *)
Definition mask_and (m1 m2 : list bool) : list bool :=
  map (fun p => andb (fst p) (snd p)) (combine m1 m2).

(** Boolean indexing [rows[mask]]: the rows whose mask entry is [True],
    in their order. *)
Fixpoint getitem_mask {R : Type} (rows : list R) (mask : list bool)
  : list R :=
  match rows, mask with
  | r :: rows', b :: mask' =>
      if b then r :: getitem_mask rows' mask' else getitem_mask rows' mask'
  | _, _ => []
  end.

(** ** Missing values *)

(** [s.dropna()] *)
Fixpoint dropna {A : Type} (s : list (option A)) : list A :=
  match s with
  | [] => []
  | Some a :: s' => a :: dropna s'
  | None :: s' => dropna s'
  end.

(** [s.replace({old: new})] *)
Definition replace (old new : string) (s : list (option string))
  : list (option string) :=
  map (fun c => match c with
                | Some t => if String.eqb t old then Some new else Some t
                | None => None
                end) s.

(** [s.fillna(v)] *)
Definition fillna (v : string) (s : list (option string))
  : list (option string) :=
  map (fun c => match c with
                | Some t => Some t
                | None => Some v
                end) s.

(** [s.astype(str)] on a text column.  Before pandas 3 the column has
    dtype [object] and the conversion turns NaN into the text ["nan"];
    from pandas 3 on the column already has the [str] dtype, the
    conversion returns it as it is and a missing value stays missing. *)
Definition astype_str (pd : PandasRelease) (s : list (option string))
  : list (option string) :=
  map (fun c => match c with
                | Some t => Some t
                | None =>
                    match pd with
                    | pandas_before_3 => Some "nan"
                    | pandas_from_3 => None
                    end
                end) s.

(** [s.str.strip()]: a missing value stays missing. *)
Definition str_strip (s : list (option string)) : list (option string) :=
  map (option_map strip) s.

(** ** Reductions *)

(** [s.max()] on a series without NaN: NaN when the series is empty. *)
Definition max (s : list Q) : option Q :=
  match s with
  | [] => None
  | q :: s' => Some (fold_left (fun m x => if Qle_bool x m then m else x) s' q)
  end.

Definition Qsum (s : list Q) : Q := fold_right Qplus 0%Q s.

(** [df[[c1, ..., cn]].mean(axis=1)] on one row: [skipna] is [True] by
    default, so the mean is taken over the cells that are present; it is
    NaN only when none is. *)
Definition mean_axis1 (cells : list (option Q)) : option Q :=
  match dropna cells with
  | [] => None
  | ys => Some (Qred (Qsum ys / inject_Z (Z.of_nat (List.length ys))))
  end.

(** ** Counting *)

Section Counting.
Context {K : Type}.
Variable eqb : K -> K -> bool.

(** One more occurrence of [k] in a table kept in first-seen order. *)
Fixpoint tally (k : K) (t : list (K * nat)) : list (K * nat) :=
  match t with
  | [] => [(k, 1)]
  | (k', n) :: t' =>
      if eqb k k' then (k', S n) :: t' else (k', n) :: tally k t'
  end.

Definition tally_all (ks : list K) : list (K * nat) :=
  fold_left (fun t k => tally k t) ks [].

(** Insertion by descending count, after the entries of the same count. *)
Fixpoint insert_desc (e : K * nat) (t : list (K * nat))
  : list (K * nat) :=
  match t with
  | [] => [e]
  | e' :: t' =>
      if snd e' <? snd e then e :: e' :: t' else e' :: insert_desc e t'
  end.

Definition sort_desc (t : list (K * nat)) : list (K * nat) :=
  fold_right insert_desc [] t.

(** [s.value_counts()]: NaN is dropped and the counts come largest
    first.  pandas leaves the order of equal counts to its sort routine;
    here one pass lists them last-seen first, and the second pass made by
    [nlargest] first-seen first, the tie rule of the design document. *)
Definition value_counts (s : list (option K)) : list (K * nat) :=
  sort_desc (tally_all (dropna s)).

(** [counts.nlargest(n)] with [keep='first']. *)
Definition nlargest (n : nat) (t : list (K * nat)) : list (K * nat) :=
  firstn n (sort_desc t).

(** [.reset_index()]: the index becomes an ordinary column; a table of
    pairs already is that frame. *)
Definition reset_index (t : list (K * nat)) : list (K * nat) := t.

Variable ltb : K -> K -> bool.

(** One more occurrence of [k] in a table kept sorted by key. *)
Fixpoint tally_sorted (k : K) (t : list (K * nat)) : list (K * nat) :=
  match t with
  | [] => [(k, 1)]
  | (k', n) :: t' =>
      if eqb k k' then (k', S n) :: t'
      else if ltb k k' then (k, 1) :: (k', n) :: t'
      else (k', n) :: tally_sorted k t'
  end.

(** [df.groupby(keys).size()]: rows with a NaN key are dropped, the
    groups come sorted by key. *)
Definition groupby_size (s : list (option K)) : list (K * nat) :=
  fold_left (fun t k => tally_sorted k t) (dropna s) [].

End Counting.

(** ** Explode *)

(** The cells [explode] puts in place of one cell: one per element of a
    list, NaN for an empty list, the cell itself when it is a scalar. *)
Definition explode_cell (x : PyObj) : list PyObj :=
  match x with
  | PyList [] => [PyNaN]
  | PyList l => map PyStr l
  | scalar => [scalar]
  end.

(** The key under which a cell is counted; a list is unhashable. *)
Definition hash_key (x : PyObj) : PyResult (option string) :=
  match x with
  | PyNaN => Ok None
  | PyStr s => Ok (Some s)
  | PyList _ => Raise TypeError
  end.

End Pandas.

(* ===================================================================== *)
(** * The script [app.py] *)
(* ===================================================================== *)

Module App.

Import Pandas.

(** ** Data model *)

(** One posting: the eighteen columns of [columns_needed], typed as the
    parquet file types them, and the derived column [Average_Salary],
    which the script adds to the filtered frame at line 116.  The last
    field carries a value of the frame only while ["Average_Salary"] is in
    the frame's [columns]. *)
Record Row : Type := mkRow {
  TITLE_NAME : option string;
  SALARY_FROM : option Q;
  SALARY_TO : option Q;
  MIN_YEARS_EXPERIENCE : option Q;
  MAX_YEARS_EXPERIENCE : option Q;
  SKILLS_NAME : PyObj;
  EMPLOYMENT_TYPE_NAME : option string;
  REMOTE_TYPE_NAME : option string;
  COMPANY_NAME : option string;
  MIN_EDULEVELS_NAME : option string;
  SOC_2021_5_NAME : option string;
  NAICS2_NAME : option string;
  NAICS4_NAME : option string;
  NAICS6_NAME : option string;
  SPECIALIZED_SKILLS_NAME : PyObj;
  CERTIFICATIONS_NAME : PyObj;
  COMMON_SKILLS_NAME : PyObj;
  MSA_NAME : option string;
  Average_Salary : option Q
}.

Record DataFrame : Type := mkFrame {
  columns : list string;
  rows : list Row
}.

Definition columns_needed : list string :=
  [ "TITLE_NAME"; "SALARY_FROM"; "SALARY_TO"; "MIN_YEARS_EXPERIENCE";
    "MAX_YEARS_EXPERIENCE"; "SKILLS_NAME"; "EMPLOYMENT_TYPE_NAME";
    "REMOTE_TYPE_NAME"; "COMPANY_NAME"; "MIN_EDULEVELS_NAME";
    "SOC_2021_5_NAME"; "NAICS2_NAME"; "NAICS4_NAME"; "NAICS6_NAME";
    "SPECIALIZED_SKILLS_NAME"; "CERTIFICATIONS_NAME"; "COMMON_SKILLS_NAME";
    "MSA_NAME" ].

(** The four columns that hold serialised lists. *)
Inductive ListColumn : Type :=
| SKILLS
| SPECIALIZED_SKILLS
| CERTIFICATIONS
| COMMON_SKILLS.

Definition column_name (c : ListColumn) : string :=
  match c with
  | SKILLS => "SKILLS_NAME"
  | SPECIALIZED_SKILLS => "SPECIALIZED_SKILLS_NAME"
  | CERTIFICATIONS => "CERTIFICATIONS_NAME"
  | COMMON_SKILLS => "COMMON_SKILLS_NAME"
  end.

Definition get_list (c : ListColumn) (r : Row) : PyObj :=
  match c with
  | SKILLS => SKILLS_NAME r
  | SPECIALIZED_SKILLS => SPECIALIZED_SKILLS_NAME r
  | CERTIFICATIONS => CERTIFICATIONS_NAME r
  | COMMON_SKILLS => COMMON_SKILLS_NAME r
  end.

Definition set_list (c : ListColumn) (v : PyObj) (r : Row) : Row :=
  mkRow (TITLE_NAME r) (SALARY_FROM r) (SALARY_TO r)
        (MIN_YEARS_EXPERIENCE r) (MAX_YEARS_EXPERIENCE r)
        (match c with SKILLS => v | _ => SKILLS_NAME r end)
        (EMPLOYMENT_TYPE_NAME r) (REMOTE_TYPE_NAME r) (COMPANY_NAME r)
        (MIN_EDULEVELS_NAME r) (SOC_2021_5_NAME r)
        (NAICS2_NAME r) (NAICS4_NAME r) (NAICS6_NAME r)
        (match c with SPECIALIZED_SKILLS => v | _ => SPECIALIZED_SKILLS_NAME r end)
        (match c with CERTIFICATIONS => v | _ => CERTIFICATIONS_NAME r end)
        (match c with COMMON_SKILLS => v | _ => COMMON_SKILLS_NAME r end)
        (MSA_NAME r) (Average_Salary r).

Definition set_REMOTE_TYPE_NAME (v : option string) (r : Row) : Row :=
  mkRow (TITLE_NAME r) (SALARY_FROM r) (SALARY_TO r)
        (MIN_YEARS_EXPERIENCE r) (MAX_YEARS_EXPERIENCE r) (SKILLS_NAME r)
        (EMPLOYMENT_TYPE_NAME r) v (COMPANY_NAME r)
        (MIN_EDULEVELS_NAME r) (SOC_2021_5_NAME r)
        (NAICS2_NAME r) (NAICS4_NAME r) (NAICS6_NAME r)
        (SPECIALIZED_SKILLS_NAME r) (CERTIFICATIONS_NAME r)
        (COMMON_SKILLS_NAME r) (MSA_NAME r) (Average_Salary r).

Definition set_Average_Salary (v : option Q) (r : Row) : Row :=
  mkRow (TITLE_NAME r) (SALARY_FROM r) (SALARY_TO r)
        (MIN_YEARS_EXPERIENCE r) (MAX_YEARS_EXPERIENCE r) (SKILLS_NAME r)
        (EMPLOYMENT_TYPE_NAME r) (REMOTE_TYPE_NAME r) (COMPANY_NAME r)
        (MIN_EDULEVELS_NAME r) (SOC_2021_5_NAME r)
        (NAICS2_NAME r) (NAICS4_NAME r) (NAICS6_NAME r)
        (SPECIALIZED_SKILLS_NAME r) (CERTIFICATIONS_NAME r)
        (COMMON_SKILLS_NAME r) (MSA_NAME r) v.

(** ** Frame access *)

(** [df[name]] for a column read through its projection. *)
Definition col {A : Type} (f : Row -> A) (df : DataFrame) : list A :=
  map f (rows df).

(** [name in df.columns] *)
Definition has_column (name : string) (df : DataFrame) : bool :=
  existsb (String.eqb name) (columns df).

(** [df[mask]] *)
Definition loc (df : DataFrame) (mask : list bool) : DataFrame :=
  mkFrame (columns df) (getitem_mask (rows df) mask).

(** [df.copy()]: a frame with the same content; values are immutable
    here, so the copy is the value itself. *)
Definition copy (df : DataFrame) : DataFrame := df.

(** The column index after [df[name] = ...]: a new name goes last. *)
Definition with_column (name : string) (cols : list string) : list string :=
  if existsb (String.eqb name) cols then cols else cols ++ [name].

(** The rows after [df[name] = values], [values] being a series over the
    index of [df] (every assignment of the script computes it from [df]
    itself). *)
Fixpoint assign {A : Type} (set : A -> Row -> Row) (rs : list Row)
  (values : list A) : list Row :=
  match rs, values with
  | r :: rs', v :: values' => set v r :: assign set rs' values'
  | _, _ => []
  end.

(** [df[name] = values] *)
Definition setitem {A : Type} (name : string) (set : A -> Row -> Row)
  (values : list A) (df : DataFrame) : DataFrame :=
  mkFrame (with_column name (columns df)) (assign set (rows df) values).

(** [df.explode(column)]: every row is repeated once per cell that
    [explode_cell] yields for it, the other columns unchanged. *)
Definition explode (c : ListColumn) (df : DataFrame) : DataFrame :=
  mkFrame (columns df)
    (flat_map (fun r => map (fun v => set_list c v r)
                            (explode_cell (get_list c r)))
              (rows df)).

(** ** [load_msa_data] (lines 25-42) *)

(** [pq.read_table(..., columns=columns_needed,
    filters=[("MSA_NAME", "==", msa)]).to_pandas()], the parquet table
    being given by its records. *)
Definition read_table (table : list Row) (msa : string) : DataFrame :=
  mkFrame columns_needed
    (filter (fun r => match MSA_NAME r with
                      | Some m => String.eqb m msa
                      | None => false
                      end) table).

Section ListColumns.

(** The NumPy release in use and [ast.literal_eval] on a text: both are
    outside the script. *)
Variable np : NumpyRelease.
Variable literal_eval : string -> PyResult PyObj.

(** [ast.literal_eval(x)]: a text is parsed; any other object is neither
    a text nor a syntax node and raises [ValueError]. *)
Definition ast_literal_eval (x : PyObj) : PyResult PyObj :=
  match x with
  | PyStr s => literal_eval s
  | PyNaN | PyList _ => Raise ValueError
  end.

(** [lambda x: ast.literal_eval(x) if pd.notnull(x) else []] (line 40) *)
Definition clean_cell (x : PyObj) : PyResult PyObj :=
  (present <- truth np (notnull x) ;;
   if present then ast_literal_eval x else Ok (PyList []))%py.

(** The body of the loop of lines 38-40 for one column. *)
Definition clean_column (c : ListColumn) (df : DataFrame)
  : PyResult DataFrame :=
  if has_column (column_name c) df then
    (cells <- mapM clean_cell (col (get_list c) df) ;;
     Ok (setitem (column_name c) (set_list c) cells df))%py
  else Ok df.

Definition load_msa_data (table : list Row) (msa : string)
  : PyResult DataFrame :=
  fold_left (fun acc c => (df <- acc ;; clean_column c df)%py)
            [SKILLS; SPECIALIZED_SKILLS; CERTIFICATIONS; COMMON_SKILLS]
            (Ok (read_table table msa)).

End ListColumns.

(** ** Sidebar (lines 55-62) *)

(** Line 57, [df['REMOTE_TYPE_NAME'].fillna('Unspecified', inplace=True)]:
    the method runs on the object [df['REMOTE_TYPE_NAME']] returns, not on
    [df].  Before pandas 3 that object is the frame's own column and the
    fill reaches [df]; from pandas 3 on it is a new object, the fill
    changes it alone and [df] stays as it was. *)
Definition fillna_inplace (pd : PandasRelease) (df : DataFrame) : DataFrame :=
  match pd with
  | pandas_before_3 =>
      setitem "REMOTE_TYPE_NAME" set_REMOTE_TYPE_NAME
        (fillna "Unspecified" (col REMOTE_TYPE_NAME df)) df
  | pandas_from_3 => df
  end.

(** Lines 56-58: the three rewrites of [REMOTE_TYPE_NAME]; lines 56 and
    58 assign the column, line 57 updates in place. *)
Definition normalize_remote_type (pd : PandasRelease) (df : DataFrame)
  : DataFrame :=
  let df :=
    setitem "REMOTE_TYPE_NAME" set_REMOTE_TYPE_NAME
      (replace "[None]" "Unspecified" (col REMOTE_TYPE_NAME df)) df in
  let df := fillna_inplace pd df in
  setitem "REMOTE_TYPE_NAME" set_REMOTE_TYPE_NAME
    (str_strip (astype_str pd (col REMOTE_TYPE_NAME df))) df.

(** Line 62: the [max_value] handed to the salary slider,
    [int(df['SALARY_TO'].dropna().max())]. *)
Definition salary_range_max_value (df : DataFrame) : PyResult Z :=
  int (max (dropna (col SALARY_TO df))).

(** The values the sidebar widgets return. *)
Record Sidebar : Type := mkSidebar {
  job_type : list string;
  remote : list string;
  min_exp : Z;
  max_exp : Z;
  salary_range : Z * Z
}.

(** ** Filters (lines 65-75) *)

(** Lines 66-67 *)
Definition filter_job_type (job_type : list string) (df : DataFrame)
  : DataFrame :=
  if list_truth job_type
  then loc df (isin (col EMPLOYMENT_TYPE_NAME df) job_type)
  else df.

(** Lines 68-69 *)
Definition filter_remote (remote : list string) (df : DataFrame)
  : DataFrame :=
  if list_truth remote
  then loc df (isin (col REMOTE_TYPE_NAME df) remote)
  else df.

(** The mask of lines 71-74. *)
Definition range_mask (min_exp max_exp : Z) (salary_range : Z * Z)
  (df : DataFrame) : list bool :=
  mask_and
    (mask_and
       (mask_and (ge (col MIN_YEARS_EXPERIENCE df) min_exp)
                 (le (col MAX_YEARS_EXPERIENCE df) max_exp))
       (ge (col SALARY_FROM df) (fst salary_range)))
    (le (col SALARY_TO df) (snd salary_range)).

(** The two salary comparisons of lines 73-74 taken on their own. *)
Definition salary_mask (salary_range : Z * Z) (df : DataFrame) : list bool :=
  mask_and (ge (col SALARY_FROM df) (fst salary_range))
           (le (col SALARY_TO df) (snd salary_range)).

Definition filtered_df (df : DataFrame) (sb : Sidebar) : DataFrame :=
  let filtered_df := copy df in
  let filtered_df := filter_job_type (job_type sb) filtered_df in
  let filtered_df := filter_remote (remote sb) filtered_df in
  loc filtered_df
      (range_mask (min_exp sb) (max_exp sb) (salary_range sb) filtered_df).

(** ** Charts (lines 89-164) *)

(** What is handed to plotly: the data of each figure. *)
Inductive Figure : Type :=
| Bar (title : string) (data : list (string * nat))
| Histogram (title : string) (x : list (option Q)) (nbins : nat)
| Pie (title : string) (data : list (string * nat))
| Treemap (title : string) (data : list ((string * string) * nat)).


(** [.value_counts().nlargest(10).reset_index()] *)
Definition top10 (s : list (option string)) : list (string * nat) :=
  reset_index (nlargest 10 (value_counts String.eqb s)).

(** Lines 92-93 *)
Definition industry_filtered (filtered_df : DataFrame) : DataFrame :=
  loc filtered_df (ne (col NAICS2_NAME filtered_df) "Unclassified Industry").

Definition industry_counts (filtered_df : DataFrame) : list (string * nat) :=
  top10 (col NAICS2_NAME (industry_filtered filtered_df)).

(** Lines 100-101 *)
Definition soc_filtered (filtered_df : DataFrame) : DataFrame :=
  loc filtered_df
      (ne (col SOC_2021_5_NAME filtered_df) "Unclassified Occupation").

Definition soc_counts (filtered_df : DataFrame) : list (string * nat) :=
  top10 (col SOC_2021_5_NAME (soc_filtered filtered_df)).

(** Line 116: [filtered_df['Average_Salary'] = ...], an assignment to the
    filtered frame itself. *)
Definition add_Average_Salary (filtered_df : DataFrame) : DataFrame :=
  setitem "Average_Salary" set_Average_Salary
    (map (fun r => mean_axis1 [SALARY_FROM r; SALARY_TO r]) (rows filtered_df))
    filtered_df.

(** Lines 122-123 *)
Definition exploded_skills (c : ListColumn) (filtered_df : DataFrame)
  : DataFrame :=
  explode c filtered_df.

(** [s.value_counts()] on an object column, before the truncation. *)
Definition skill_counts (c : ListColumn) (exploded : DataFrame)
  : PyResult (list (string * nat)) :=
  (keys <- mapM hash_key (col (get_list c) exploded) ;;
   Ok (value_counts String.eqb keys))%py.

Definition top_skills (filtered_df : DataFrame)
  : PyResult (list (string * nat)) :=
  (counts <- skill_counts SPECIALIZED_SKILLS
               (exploded_skills SPECIALIZED_SKILLS filtered_df) ;;
   Ok (reset_index (nlargest 10 counts)))%py.

(** Lines 130-131 *)
Definition top_companies (filtered_df : DataFrame) : list (string * nat) :=
  top10 (col COMPANY_NAME
           (loc filtered_df (ne (col COMPANY_NAME filtered_df) "Unclassified"))).

(** Line 146 *)
Definition edu_counts (filtered_df : DataFrame) : list (string * nat) :=
  reset_index (value_counts String.eqb (col MIN_EDULEVELS_NAME filtered_df)).

(** Equality and order of the group keys [(NAICS2_NAME, skill)]. *)
Definition pair_eqb (a b : string * string) : bool :=
  String.eqb (fst a) (fst b) && String.eqb (snd a) (snd b).

Definition pair_ltb (a b : string * string) : bool :=
  String.ltb (fst a) (fst b)
  || (String.eqb (fst a) (fst b) && String.ltb (snd a) (snd b)).

(** The group key of one exploded row; NaN in either column makes the key
    NaN. *)
Definition group_key (c : ListColumn) (r : Row)
  : PyResult (option (string * string)) :=
  (skill <- hash_key (get_list c r) ;;
   Ok (match NAICS2_NAME r, skill with
       | Some i, Some s => Some (i, s)
       | _, _ => None
       end))%py.

(** Lines 159-160 *)
Definition exploded_classified (c : ListColumn) (filtered_df : DataFrame)
  : DataFrame :=
  let exploded_skills := explode c filtered_df in
  loc exploded_skills
      (ne (col NAICS2_NAME exploded_skills) "Unclassified Industry").

(** Lines 159-162 *)
Definition skill_data (c : ListColumn) (filtered_df : DataFrame)
  : PyResult (list ((string * string) * nat)) :=
  (keys <- mapM (group_key c) (rows (exploded_classified c filtered_df)) ;;
   Ok (reset_index (groupby_size pair_eqb pair_ltb keys)))%py.

(** *** The chart blocks, in the order of the script.  Each takes the frame
    bound to [filtered_df] and returns the frame bound to it afterwards
    together with the figures it plots. *)

Definition Block : Type := DataFrame -> PyResult (DataFrame * list Figure).

(** Lines 90-96 *)
Definition industry_block : Block := fun filtered_df =>
  if has_column "NAICS2_NAME" filtered_df
  then Ok (filtered_df,
           [Bar "Top Industries - NAICS 2" (industry_counts filtered_df)])
  else Ok (filtered_df, []).

(** Lines 99-111 *)
Definition occupation_block : Block := fun filtered_df =>
  if has_column "SOC_2021_5_NAME" filtered_df
  then Ok (filtered_df, [Bar "Top Occupations (SOC 5)" (soc_counts filtered_df)])
  else Ok (filtered_df, []).

(** Lines 115-118 *)
Definition salary_block : Block := fun filtered_df =>
  if has_column "SALARY_FROM" filtered_df && has_column "SALARY_TO" filtered_df
  then
    let filtered_df := add_Average_Salary filtered_df in
    Ok (filtered_df,
        [Histogram "Salary Distribution" (col Average_Salary filtered_df) 30])
  else Ok (filtered_df, []).

(** Lines 121-126 *)
Definition skills_block : Block := fun filtered_df =>
  if has_column "SPECIALIZED_SKILLS_NAME" filtered_df
  then (t <- top_skills filtered_df ;;
        Ok (filtered_df, [Bar "Top Specialized Skills" t]))%py
  else Ok (filtered_df, []).

(** Lines 129-141 *)
Definition company_block : Block := fun filtered_df =>
  if has_column "COMPANY_NAME" filtered_df
  then Ok (filtered_df, [Bar "Top Hiring Companies" (top_companies filtered_df)])
  else Ok (filtered_df, []).

(** Lines 145-149 *)
Definition education_block : Block := fun filtered_df =>
  if has_column "MIN_EDULEVELS_NAME" filtered_df
  then Ok (filtered_df, [Pie "Minimum Education Required" (edu_counts filtered_df)])
  else Ok (filtered_df, []).

(** Lines 158-164, one turn of the loop. *)
Definition treemap_block (c : ListColumn) (label : string) : Block :=
  fun filtered_df =>
  if has_column "NAICS2_NAME" filtered_df
     && has_column (column_name c) filtered_df
  then (t <- skill_data c filtered_df ;;
        Ok (filtered_df,
            [Treemap ("Top " ++ label ++ " by Industry (NAICS2)") t]))%py
  else Ok (filtered_df, []).

(** Running blocks one after the other: the frame is threaded, the
    figures accumulate. *)
Fixpoint run (blocks : list Block) (filtered_df : DataFrame)
  : PyResult (DataFrame * list Figure) :=
  match blocks with
  | [] => Ok (filtered_df, [])
  | b :: blocks' =>
      (out <- b filtered_df ;;
       rest <- run blocks' (fst out) ;;
       Ok (fst rest, snd out ++ snd rest))%py
  end.

(** Lines 89-164 *)
Definition charts : list Block :=
  [ industry_block; occupation_block; salary_block; skills_block;
    company_block; education_block;
    treemap_block SPECIALIZED_SKILLS "Specialized Skills";
    treemap_block CERTIFICATIONS "Certifications" ].

End App.

(* ===================================================================== *)
(** * The design document's reading, row by row *)
(* ===================================================================== *)

Module Spec.

Import Pandas App.

(** ** Section 4.3: the five predicate groups of the Filter Engine *)

(** Membership in a category set, the empty set meaning no restriction. *)
Definition in_category_set (set : list string) (cell : option string) : bool :=
  match set with
  | [] => true
  | _ :: _ =>
      match cell with
      | Some t => existsb (String.eqb t) set
      | None => false
      end
  end.

(** [cell >= bound]; a null cell fails. *)
Definition at_least (bound : Z) (cell : option Q) : bool :=
  match cell with
  | Some q => Qle_bool (inject_Z bound) q
  | None => false
  end.

(** [cell <= bound]; a null cell fails. *)
Definition at_most (bound : Z) (cell : option Q) : bool :=
  match cell with
  | Some q => Qle_bool q (inject_Z bound)
  | None => false
  end.

Definition employment_ok (sb : Sidebar) (r : Row) : bool :=
  in_category_set (job_type sb) (EMPLOYMENT_TYPE_NAME r).

Definition remote_ok (sb : Sidebar) (r : Row) : bool :=
  in_category_set (remote sb) (REMOTE_TYPE_NAME r).

Definition min_years_ok (sb : Sidebar) (r : Row) : bool :=
  at_least (min_exp sb) (MIN_YEARS_EXPERIENCE r).

Definition max_years_ok (sb : Sidebar) (r : Row) : bool :=
  at_most (max_exp sb) (MAX_YEARS_EXPERIENCE r).

Definition salary_ok (salary_range : Z * Z) (r : Row) : bool :=
  at_least (fst salary_range) (SALARY_FROM r)
  && at_most (snd salary_range) (SALARY_TO r).

(** The conjunction of the five groups. *)
Definition satisfies (sb : Sidebar) (r : Row) : bool :=
  employment_ok sb r && remote_ok sb r && min_years_ok sb r
  && max_years_ok sb r && salary_ok (salary_range sb) r.

(** The same conjunction, spelled out as a proposition. *)
Definition keeps (sb : Sidebar) (r : Row) : Prop :=
  (job_type sb = []
   \/ exists t, EMPLOYMENT_TYPE_NAME r = Some t /\ In t (job_type sb))
  /\ (remote sb = []
      \/ exists t, REMOTE_TYPE_NAME r = Some t /\ In t (remote sb))
  /\ (exists q, MIN_YEARS_EXPERIENCE r = Some q
                /\ (inject_Z (min_exp sb) <= q)%Q)
  /\ (exists q, MAX_YEARS_EXPERIENCE r = Some q
                /\ (q <= inject_Z (max_exp sb))%Q)
  /\ (exists q, SALARY_FROM r = Some q
                /\ (inject_Z (fst (salary_range sb)) <= q)%Q)
  /\ (exists q, SALARY_TO r = Some q
                /\ (q <= inject_Z (snd (salary_range sb)))%Q).

(** A row whose salary bounds are the numbers [lo] and [hi]. *)
Definition has_salary (r : Row) (lo hi : Z) : Prop :=
  exists a b, SALARY_FROM r = Some a /\ SALARY_TO r = Some b
              /\ (a == inject_Z lo)%Q /\ (b == inject_Z hi)%Q.

(** The four groups other than the salary range. *)
Definition other_groups_ok (sb : Sidebar) (r : Row) : bool :=
  employment_ok sb r && remote_ok sb r && min_years_ok sb r
  && max_years_ok sb r.

(** ** Section 4.4: the aggregations *)

(** The value line 116 stores for one row. *)
Definition row_average (r : Row) : option Q :=
  mean_axis1 [SALARY_FROM r; SALARY_TO r].

(** [mean(salary_from, salary_to)] of a row that has both bounds. *)
Definition midpoint (lo hi : Q) : Q := Qred ((lo + hi) / 2).


(** [len(sequence)] of a cell, a cell that is no sequence having none. *)
Definition sequence_length (x : PyObj) : nat :=
  match x with
  | PyList l => List.length l
  | PyNaN | PyStr _ => 0
  end.

Definition is_sequence (x : PyObj) : bool :=
  match x with
  | PyList _ => true
  | PyNaN | PyStr _ => false
  end.

(** [sum(len(sequence) for each row)] *)
Definition total_sequence_length (c : ListColumn) (rs : list Row) : nat :=
  list_sum (map (fun r => sequence_length (get_list c r)) rs).

(** The sum of the [Count] column of a summary table. *)
Definition total_count {K : Type} (t : list (K * nat)) : nat :=
  list_sum (map snd t).

(** The key of a scalar cell. *)
Definition scalar_key (x : PyObj) : option string :=
  match x with
  | PyStr s => Some s
  | PyNaN | PyList _ => None
  end.

(** The texts a cell puts into a count once exploded: the elements of a
    sequence, a text itself, nothing for a null. *)
Definition items (x : PyObj) : list string :=
  match x with
  | PyList l => l
  | PyStr s => [s]
  | PyNaN => []
  end.

(** The group key of a row whose skill cell is a scalar. *)
Definition row_group_key (c : ListColumn) (r : Row)
  : option (string * string) :=
  match NAICS2_NAME r, scalar_key (get_list c r) with
  | Some i, Some s => Some (i, s)
  | _, _ => None
  end.

(** What [!= 'Unclassified Industry'] lets through: a null industry too. *)
Definition not_the_sentinel (sentinel : string) (cell : option string) : bool :=
  match cell with
  | Some t => negb (String.eqb t sentinel)
  | None => true
  end.

(** A block that hands the frame on as it received it. *)
Definition hands_on (b : Block) : Prop :=
  forall fdf, exists figures, b fdf = Ok (fdf, figures).

(** Rows whose industry is present and classified. *)
Definition classified (r : Row) : bool :=
  match NAICS2_NAME r with
  | Some i => negb (String.eqb i "Unclassified Industry")
  | None => false
  end.

(** ** Section 4.3, sidebar: the remote-type normalisation of one cell *)
Definition normalize_remote_cell (cell : option string) : string :=
  match cell with
  | None => "Unspecified"
  | Some t => if String.eqb t "[None]" then "Unspecified" else strip t
  end.

(** What the code leaves in one cell: the same, except that from
    pandas 3 on a null cell stays null. *)
Definition remote_cell (pd : PandasRelease) (cell : option string)
  : option string :=
  match pd, cell with
  | pandas_from_3, None => None
  | _, _ => Some (normalize_remote_cell cell)
  end.

(** No white space at either end: the text neither starts nor ends with
    a white-space code point. *)
Definition trimmed (s : string) : Prop :=
  forall w, In w whitespace ->
            String.prefix w s = false /\ forall u, s <> (u ++ w)%string.

(** ** Rounding *)

(** Rounding toward zero, in terms of rounding down and up. *)
Definition toward_zero (q : Q) : Z :=
  if Qle_bool 0 q then Qfloor q else Qceiling q.

End Spec.

(* ===================================================================== *)
(** * Example frames *)
(* ===================================================================== *)

Module Scenario.

Import Pandas App.

(** A posting of the worked example of section 8: industry, company and
    the two salary bounds; two to five years of experience, full time,
    hybrid, no skills. *)
Definition posting (industry company : string) (lo hi : Z) : Row :=
  mkRow None (Some (inject_Z lo)) (Some (inject_Z hi))
        (Some (inject_Z 2)) (Some (inject_Z 5)) (PyList [])
        (Some "Full-time") (Some "  Hybrid  ") (Some company) None None
        (Some industry) None None (PyList []) (PyList []) (PyList [])
        (Some "Springfield") None.

Definition acme_1 : Row := posting "Tech" "Acme" 50000 70000.
Definition acme_2 : Row := posting "Tech" "Acme" 80000 90000.
Definition beta : Row := posting "Unclassified Industry" "Beta" 40000 40000.

Definition three_rows : DataFrame :=
  mkFrame columns_needed [acme_1; acme_2; beta].

(** The widgets left alone, the salary slider moved to (60000, 100000). *)
Definition salary_60_100 : Sidebar :=
  mkSidebar [] [] 0 30 (60000, 100000)%Z.

(** A posting at both ends of that salary range. *)
Definition on_the_bounds : Row := posting "Tech" "Acme" 60000 100000.

(** A posting that states its upper salary bound only. *)
Definition upper_bound_only : Row :=
  mkRow None None (Some (inject_Z 70000))
        (Some (inject_Z 2)) (Some (inject_Z 5)) (PyList [])
        (Some "Full-time") None (Some "Acme") None None
        (Some "Tech") None None (PyList []) (PyList []) (PyList [])
        (Some "Springfield") None.

Definition one_sided : DataFrame := mkFrame columns_needed [upper_bound_only].

(** A posting with the given remote type. *)
Definition remote_type (cell : option string) : Row :=
  mkRow None (Some (inject_Z 50000)) (Some (inject_Z 70000))
        (Some (inject_Z 2)) (Some (inject_Z 5)) (PyList [])
        (Some "Full-time") cell (Some "Acme") None None
        (Some "Tech") None None (PyList []) (PyList []) (PyList [])
        (Some "Springfield") None.

(** Four postings: a null remote type, the text "[None]", a text with
    spaces around it, and a text between a no-break space (U+00A0) and
    an em space (U+2003). *)
Definition remote_types : DataFrame :=
  mkFrame columns_needed
    [ remote_type None;
      remote_type (Some "[None]");
      remote_type (Some "  Hybrid  ");
      remote_type (Some (bytes [194; 160] ++ "Remote"
                         ++ bytes [226; 128; 131])%string) ].

(** A posting with the given specialised skills. *)
Definition skilled (industry : option string) (skills : PyObj) : Row :=
  mkRow None (Some (inject_Z 50000)) (Some (inject_Z 70000))
        (Some (inject_Z 2)) (Some (inject_Z 5)) (PyList [])
        (Some "Full-time") (Some "Remote") (Some "Acme") None None
        industry None None skills (PyList []) (PyList [])
        (Some "Springfield") None.

Definition no_skills : DataFrame :=
  mkFrame columns_needed [skilled (Some "Tech") (PyList [])].

Definition some_skills : DataFrame :=
  mkFrame columns_needed
    [ skilled (Some "Tech") (PyList ["Python"; "SQL"]);
      skilled (Some "Tech") (PyList []);
      skilled (Some "Health") (PyList ["SQL"]);
      skilled (Some "Unclassified Industry") (PyList ["Excel"]);
      skilled None (PyList ["Python"]) ].

(** Mostly unclassified postings. *)
Definition mostly_unclassified : DataFrame :=
  mkFrame columns_needed
    [ posting "Unclassified Industry" "Unclassified" 50000 70000;
      posting "Unclassified Industry" "Unclassified" 50000 70000;
      posting "Tech" "Acme" 50000 70000 ].

(** A single posting whose upper salary bound is negative and fractional. *)
Definition negative_half : DataFrame :=
  mkFrame columns_needed
    [ mkRow None None (Some (-1 # 2)%Q) None None (PyList [])
            None None None None None None None None
            (PyList []) (PyList []) (PyList []) (Some "Springfield") None ].

(** A frame without any upper salary bound. *)
Definition no_salary_to : DataFrame :=
  mkFrame columns_needed
    [ mkRow None (Some (inject_Z 50000)) None None None (PyList [])
            None None None None None None None None
            (PyList []) (PyList []) (PyList []) (Some "Springfield") None ].

(** A posting as the parquet file has it, its specialised skills still
    serialised (or missing), everything else missing but the MSA. *)
Definition as_read (skills : PyObj) : Row :=
  mkRow None None None None None PyNaN None None None None None None None None
        skills PyNaN PyNaN (Some "Springfield") None.

Definition raw_table : list Row :=
  [as_read PyNaN; as_read (PyStr "['Python']")].

Definition null_skills : DataFrame := mkFrame columns_needed [as_read PyNaN].

Definition decoded_skills : DataFrame :=
  mkFrame columns_needed [as_read (PyList ["Python"])].

(** A stand-in for [ast.literal_eval] that decodes the one literal
    ['Python'] and rejects every other text. *)
Definition decodes_python (s : string) : PyResult PyObj :=
  if String.eqb s "['Python']" then Ok (PyList ["Python"])
  else Raise SyntaxError.

End Scenario.

(* ===================================================================== *)
(** * The rest of the script: MSA list, widget options, export, page *)
(* ===================================================================== *)

Module Script.

Import Pandas App.

(** Equality of two text cells, two missing cells being equal. *)
Definition option_eqb (a b : option string) : bool :=
  match a, b with
  | Some x, Some y => String.eqb x y
  | None, None => true
  | _, _ => false
  end.

(** The distinct elements of a list, each at its first occurrence:
    [s.unique()] of pandas, and the elements of [set(xs)], whose order
    Python leaves open. *)
Fixpoint unique {A : Type} (eqb : A -> A -> bool) (xs : list A) : list A :=
  match xs with
  | [] => []
  | x :: xs' => x :: filter (fun y => negb (eqb x y)) (unique eqb xs')
  end.

(** Insertion of a text into an ascending list. *)
Fixpoint insort (x : string) (l : list string) : list string :=
  match l with
  | [] => [x]
  | y :: l' => if String.leb x y then x :: l else y :: insort x l'
  end.

Definition sort_strings (l : list string) : list string :=
  fold_right insort [] l.

Definition is_None {A : Type} (x : option A) : bool :=
  match x with
  | None => true
  | Some _ => false
  end.

(** [sorted(xs)] on names that may be [None]: up to one element nothing is
    compared; from two elements on every element is compared with another,
    and comparing [None] with anything raises [TypeError]. *)
Definition sorted (xs : list (option string))
  : PyResult (list (option string)) :=
  match xs with
  | [] | [_] => Ok xs
  | _ :: _ :: _ =>
      if existsb is_None xs then Raise TypeError
      else Ok (map Some (sort_strings (dropna xs)))
  end.

(** Lines 19-23, the parquet table being given by its records:
    [sorted(list(set(msa_names)))]. *)
Definition list_msas_from_parquet (table : list Row)
  : PyResult (list (option string)) :=
  let msa_names := map MSA_NAME table in
  sorted (unique option_eqb msa_names).

(** Line 55: the options of the employment-type widget,
    [df['EMPLOYMENT_TYPE_NAME'].dropna().unique()]. *)
Definition job_type_options (df : DataFrame) : list string :=
  unique String.eqb (dropna (col EMPLOYMENT_TYPE_NAME df)).


(** [s.replace(' ', '_')] *)
Fixpoint replace_space (s : string) : string :=
  match s with
  | EmptyString => EmptyString
  | String c s' =>
      String (if Ascii.eqb c " " then "_"%char else c) (replace_space s')
  end.

(** Line 86 *)
Definition file_name (msa : string) : string :=
  "filtered_jobs_" ++ replace_space msa ++ ".csv".

(** What one run of the script puts on the page: the title, the frame
    written by [to_csv] with the name of the download, and the figures.
    The text of the CSV file is not represented. *)
Record Page : Type := mkPage {
  title : string;
  csv_frame : DataFrame;
  csv_file_name : string;
  figures : list Figure
}.

(** Lines 52-164 for a chosen MSA, the values returned by the sidebar
    widgets being given.  The remote types chosen are texts: a choice
    of the missing value, which the widget can offer from pandas 3 on,
    is not represented. *)
Definition page (np : NumpyRelease) (pd : PandasRelease)
  (literal_eval : string -> PyResult PyObj)
  (table : list Row) (msa : string) (sb : Sidebar) : PyResult Page :=
  (df <- load_msa_data np literal_eval table msa ;;
   let df := normalize_remote_type pd df in
   max_value <- salary_range_max_value df ;;
   let filtered_df := filtered_df df sb in
   drawn <- run charts filtered_df ;;
   Ok (mkPage ("Job Insights for " ++ msa) filtered_df (file_name msa)
              (snd drawn)))%py.

End Script.

(* ===================================================================== *)
(** * Vocabulary of the further properties *)
(* ===================================================================== *)

Module Props.

Import Pandas App.

(** The number of cells of a series that hold the text [k]. *)
Definition occurrences (k : string) (s : list (option string)) : nat :=
  List.length (filter (String.eqb k) (dropna s)).

(** The count a summary table gives for [k]: the counts of its lines for
    [k], added up (no line, no count). *)
Definition count_for {K : Type} (eqb : K -> K -> bool) (k : K)
  (t : list (K * nat)) : nat :=
  list_sum (map snd (filter (fun e => eqb k (fst e)) t)).

(** Counts that never go up from one line to the next. *)
Inductive non_increasing {K : Type} : list (K * nat) -> Prop :=
| non_increasing_nil : non_increasing []
| non_increasing_cons (e : K * nat) (t : list (K * nat)) :
    Forall (fun e' => snd e' <= snd e) t ->
    non_increasing t ->
    non_increasing (e :: t).

(** Keys that go strictly up from one line to the next. *)
Inductive ascending {K : Type} (ltb : K -> K -> bool) : list K -> Prop :=
| ascending_nil : ascending ltb []
| ascending_cons (k : K) (l : list K) :
    Forall (fun k' => ltb k k' = true) l ->
    ascending ltb l ->
    ascending ltb (k :: l).

(** The text after its first [k] bytes. *)
Fixpoint skip (k : nat) (s : string) : string :=
  match k, s with
  | S k', String _ s' => skip k' s'
  | _, _ => s
  end.

(** The clean-up of the four list cells of one row as read. *)
Definition cleaned (np : NumpyRelease)
  (literal_eval : string -> PyResult PyObj) (raw r : Row) : Prop :=
  exists v1 v2 v3 v4,
    clean_cell np literal_eval (SKILLS_NAME raw) = Ok v1
    /\ clean_cell np literal_eval (SPECIALIZED_SKILLS_NAME raw) = Ok v2
    /\ clean_cell np literal_eval (CERTIFICATIONS_NAME raw) = Ok v3
    /\ clean_cell np literal_eval (COMMON_SKILLS_NAME raw) = Ok v4
    /\ r = set_list COMMON_SKILLS v4
             (set_list CERTIFICATIONS v3
                (set_list SPECIALIZED_SKILLS v2 (set_list SKILLS v1 raw))).

(** The rows of the table that belong to an MSA. *)
Definition of_msa (msa : string) (r : Row) : bool :=
  match MSA_NAME r with
  | Some m => String.eqb m msa
  | None => false
  end.

(** A cell of a list column as the parquet file holds it: missing or a
    text. *)
Definition as_stored (x : PyObj) : bool :=
  match x with
  | PyNaN | PyStr _ => true
  | PyList _ => false
  end.

(** A posting that states its employment type. *)
Definition has_employment_type (r : Row) : bool :=
  negb (Script.is_None (EMPLOYMENT_TYPE_NAME r)).

(** A sidebar whose ranges lie within those of another, the category
    choices being the same. *)
Definition narrower (a b : Sidebar) : Prop :=
  job_type a = job_type b
  /\ remote a = remote b
  /\ (min_exp b <= min_exp a)%Z
  /\ (max_exp a <= max_exp b)%Z
  /\ (fst (salary_range b) <= fst (salary_range a))%Z
  /\ (snd (salary_range a) <= snd (salary_range b))%Z.

(** What makes [t] the table of the most frequent texts of a series [s],
    cut to [n] lines: at most [n] lines, no text twice, counts that never
    go up, each line carrying the number of cells that hold its text, and
    a text of the series missing from the table only when the table is
    full and none of its lines has a smaller count. *)
Definition top_table (n : nat) (s : list (option string))
  (t : list (string * nat)) : Prop :=
  List.length t <= n
  /\ NoDup (map fst t)
  /\ non_increasing t
  /\ Forall (fun e => snd e = occurrences (fst e) s /\ 0 < snd e) t
  /\ (forall k, 0 < occurrences k s ->
                In k (map fst t)
                \/ (List.length t = n
                    /\ Forall (fun e => occurrences k s <= snd e) t)).

(** The (industry, skill) pairs the tree map counts: for every posting
    with a classified industry, one pair per text of its skill cell. *)
Definition industry_skill_pairs (c : ListColumn) (rs : list Row)
  : list (string * string) :=
  flat_map (fun r => match NAICS2_NAME r with
                     | Some i => map (fun s => (i, s)) (Spec.items (get_list c r))
                     | None => []
                     end)
           (filter Spec.classified rs).

(** The texts of a skill column, posting after posting. *)
Definition skill_texts (c : ListColumn) (rs : list Row) : list string :=
  flat_map (fun r => Spec.items (get_list c r)) rs.

(** The clean-up of one list cell of a row, the row with the cell
    replaced being returned. *)
Definition clean_in_row (np : NumpyRelease)
  (literal_eval : string -> PyResult PyObj) (c : ListColumn) (r : Row)
  : PyResult Row :=
  (v <- clean_cell np literal_eval (get_list c r) ;; Ok (set_list c v r))%py.

(** A posting all four list cells of which can be cleaned. *)
Definition cleans (np : NumpyRelease)
  (literal_eval : string -> PyResult PyObj) (r : Row) : bool :=
  negb (raises (clean_cell np literal_eval (SKILLS_NAME r)))
  && negb (raises (clean_cell np literal_eval (SPECIALIZED_SKILLS_NAME r)))
  && negb (raises (clean_cell np literal_eval (CERTIFICATIONS_NAME r)))
  && negb (raises (clean_cell np literal_eval (COMMON_SKILLS_NAME r))).

(** A posting that states its upper salary bound. *)
Definition has_salary_to (r : Row) : bool :=
  negb (Script.is_None (SALARY_TO r)).

End Props.

(* ===================================================================== *)
(** * Further example data *)
(* ===================================================================== *)

Module Cases.

Import Pandas App.

(** A posting of the given MSA with nothing else filled in. *)
Definition posting_in (msa : option string) : Row :=
  mkRow None None None None None PyNaN None None None None None None None None
        PyNaN PyNaN PyNaN msa None.

Definition two_cities : list Row :=
  [ posting_in (Some "Springfield"); posting_in (Some "Shelbyville");
    posting_in (Some "Springfield") ].

Definition two_cities_shuffled : list Row :=
  [ posting_in (Some "Shelbyville"); posting_in (Some "Springfield");
    posting_in (Some "Shelbyville") ].

Definition city_and_nowhere : list Row :=
  [ posting_in (Some "Springfield"); posting_in None ].

(** The sidebar as the script first shows it. *)
Definition sidebar_defaults : Sidebar :=
  mkSidebar [] [] 0 30 (0, 200000)%Z.

Definition sidebar_narrowed : Sidebar :=
  mkSidebar [] [] 1 10 (60000, 100000)%Z.

(** A posting with the given upper salary bound and a lower bound of
    50000. *)
Definition paying_up_to (hi : Q) : Row :=
  mkRow None (Some (inject_Z 50000)) (Some hi)
        (Some (inject_Z 2)) (Some (inject_Z 5)) (PyList [])
        (Some "Full-time") (Some "Remote") (Some "Acme") None None
        (Some "Tech") None None (PyList []) (PyList []) (PyList [])
        (Some "Springfield") None.

(** The best paid posting tops out at 90000.50. *)
Definition half_dollar : DataFrame :=
  mkFrame columns_needed
    [ paying_up_to (inject_Z 70000); paying_up_to (180001 # 2)%Q ].

(** Two postings of Springfield and one of Shelbyville as the parquet
    file holds them, their skill lists still serialised. *)
Definition stored (msa : string) (hi : option Q) (skills : PyObj) : Row :=
  mkRow (Some "Engineer") (Some (inject_Z 50000)) hi
        (Some (inject_Z 2)) (Some (inject_Z 5)) PyNaN
        (Some "Full-time") (Some " Remote ") (Some "Acme") None None
        (Some "Tech") None None skills PyNaN PyNaN (Some msa) None.

Definition stored_table : list Row :=
  [ stored "Springfield" (Some (inject_Z 70000)) (PyStr "['Python']");
    stored "Shelbyville" None (PyStr "not a list");
    stored "Springfield" None PyNaN ].

(** A frame with a remote type that reads [None] between brackets only
    once it is stripped. *)
Definition bracketed : DataFrame :=
  mkFrame columns_needed
    [ stored "Springfield" None PyNaN;
      set_REMOTE_TYPE_NAME (Some " [None]") (stored "Springfield" None PyNaN) ].

End Cases.

(* ===================================================================== *)
(** * Facts about the list operations *)
(* ===================================================================== *)

Import Pandas App.

Section MaskFacts.

Context {R : Type}.

Lemma getitem_mask_map (f : R -> bool) (l : list R) :
  getitem_mask l (map f l) = filter f l.
Proof.
  induction l as [| x l IH]; simpl; [reflexivity|].
  rewrite IH. reflexivity.
Qed.

Lemma mask_and_map (f g : R -> bool) (l : list R) :
  mask_and (map f l) (map g l) = map (fun x => f x && g x) l.
Proof.
  unfold mask_and.
  induction l as [| x l IH]; simpl; [reflexivity|].
  now rewrite IH.
Qed.

Lemma filter_twice (f g : R -> bool) (l : list R) :
  filter f (filter g l) = filter (fun x => g x && f x) l.
Proof.
  induction l as [| x l IH]; simpl; [reflexivity|].
  destruct (g x); simpl; [destruct (f x)|]; now rewrite IH.
Qed.

Lemma filter_all (l : list R) : filter (fun _ => true) l = l.
Proof.
  induction l as [| x l IH]; simpl; congruence.
Qed.

End MaskFacts.

Lemma assign_map {A : Type} (set : A -> Row -> Row) (f : Row -> A)
  (rs : list Row) :
  assign set rs (map f rs) = map (fun r => set (f r) r) rs.
Proof.
  induction rs as [| r rs IH]; simpl; congruence.
Qed.

Lemma frame_eta (df : DataFrame) : mkFrame (columns df) (rows df) = df.
Proof. now destruct df. Qed.

(** ** The filter block, row by row *)

Lemma loc_map (f : Row -> bool) (df : DataFrame) :
  loc df (map f (rows df)) = mkFrame (columns df) (filter f (rows df)).
Proof.
  unfold loc. now rewrite getitem_mask_map.
Qed.

Lemma filter_job_type_rows (jt : list string) (df : DataFrame) :
  filter_job_type jt df
  = mkFrame (columns df)
      (filter (fun r => Spec.in_category_set jt (EMPLOYMENT_TYPE_NAME r))
              (rows df)).
Proof.
  unfold filter_job_type, isin, col.
  destruct jt as [| t jt]; simpl.
  - now rewrite filter_all, frame_eta.
  - rewrite map_map. apply loc_map.
Qed.

Lemma filter_remote_rows (rm : list string) (df : DataFrame) :
  filter_remote rm df
  = mkFrame (columns df)
      (filter (fun r => Spec.in_category_set rm (REMOTE_TYPE_NAME r))
              (rows df)).
Proof.
  unfold filter_remote, isin, col.
  destruct rm as [| t rm]; simpl.
  - now rewrite filter_all, frame_eta.
  - rewrite map_map. apply loc_map.
Qed.

Lemma range_mask_rows (lo_exp hi_exp : Z) (range : Z * Z) (df : DataFrame) :
  range_mask lo_exp hi_exp range df
  = map (fun r =>
           Spec.at_least lo_exp (MIN_YEARS_EXPERIENCE r)
           && Spec.at_most hi_exp (MAX_YEARS_EXPERIENCE r)
           && Spec.at_least (fst range) (SALARY_FROM r)
           && Spec.at_most (snd range) (SALARY_TO r))
        (rows df).
Proof.
  unfold range_mask, ge, le, col.
  rewrite !map_map, !mask_and_map. reflexivity.
Qed.

Lemma salary_mask_rows (range : Z * Z) (df : DataFrame) :
  salary_mask range df = map (Spec.salary_ok range) (rows df).
Proof.
  unfold salary_mask, ge, le, col.
  rewrite !map_map, !mask_and_map. reflexivity.
Qed.

Lemma filtered_df_rows (df : DataFrame) (sb : Sidebar) :
  filtered_df df sb
  = mkFrame (columns df) (filter (Spec.satisfies sb) (rows df)).
Proof.
  unfold filtered_df, copy.
  rewrite filter_job_type_rows, filter_remote_rows, range_mask_rows.
  cbn [rows columns]. rewrite loc_map. cbn [rows columns].
  rewrite !filter_twice. f_equal.
  apply filter_ext. intro r.
  unfold Spec.satisfies, Spec.employment_ok, Spec.remote_ok,
    Spec.min_years_ok, Spec.max_years_ok, Spec.salary_ok.
  now rewrite !andb_assoc.
Qed.

Lemma in_category_set_iff (set : list string) (cell : option string) :
  Spec.in_category_set set cell = true
  <-> set = [] \/ exists t, cell = Some t /\ In t set.
Proof.
  unfold Spec.in_category_set.
  destruct set as [| s set]; [intuition|].
  destruct cell as [t|].
  - rewrite existsb_exists. split.
    + intros [x [Hin Heq]]. apply String.eqb_eq in Heq. subst x.
      right. now exists t.
    + intros [H | [t' [Ht Hin]]]; [discriminate|].
      injection Ht as <-. exists t. split; [assumption|apply String.eqb_refl].
  - split; [discriminate|].
    intros [H | [t [Ht _]]]; discriminate.
Qed.

Lemma at_least_iff (bound : Z) (cell : option Q) :
  Spec.at_least bound cell = true
  <-> exists q, cell = Some q /\ (inject_Z bound <= q)%Q.
Proof.
  unfold Spec.at_least. destruct cell as [q|].
  - rewrite Qle_bool_iff. split.
    + intro H. now exists q.
    + intros [q' [Hq H]]. now injection Hq as <-.
  - split; [discriminate|]. intros [q [Hq _]]. discriminate.
Qed.

Lemma at_most_iff (bound : Z) (cell : option Q) :
  Spec.at_most bound cell = true
  <-> exists q, cell = Some q /\ (q <= inject_Z bound)%Q.
Proof.
  unfold Spec.at_most. destruct cell as [q|].
  - rewrite Qle_bool_iff. split.
    + intro H. now exists q.
    + intros [q' [Hq H]]. now injection Hq as <-.
  - split; [discriminate|]. intros [q [Hq _]]. discriminate.
Qed.

Lemma satisfies_iff (sb : Sidebar) (r : Row) :
  Spec.satisfies sb r = true <-> Spec.keeps sb r.
Proof.
  unfold Spec.satisfies, Spec.keeps, Spec.employment_ok, Spec.remote_ok,
    Spec.min_years_ok, Spec.max_years_ok, Spec.salary_ok.
  rewrite !andb_true_iff, !in_category_set_iff, !at_least_iff, !at_most_iff.
  tauto.
Qed.

Lemma satisfies_split (sb : Sidebar) (r : Row) :
  Spec.satisfies sb r
  = Spec.other_groups_ok sb r && Spec.salary_ok (salary_range sb) r.
Proof. reflexivity. Qed.

Lemma salary_ok_has_salary (range : Z * Z) (r : Row) (lo hi : Z) :
  Spec.has_salary r lo hi ->
  Spec.salary_ok range r = (fst range <=? lo)%Z && (hi <=? snd range)%Z.
Proof.
  intros (a & b & Ha & Hb & Ea & Eb).
  unfold Spec.salary_ok, Spec.at_least, Spec.at_most.
  rewrite Ha, Hb. f_equal.
  - apply eq_true_iff_eq. rewrite Qle_bool_iff, Ea, <- Zle_Qle.
    symmetry. apply Z.leb_le.
  - apply eq_true_iff_eq. rewrite Qle_bool_iff, Eb, <- Zle_Qle.
    symmetry. apply Z.leb_le.
Qed.

Lemma has_salary_posting (industry company : string) (lo hi : Z) :
  Spec.has_salary (Scenario.posting industry company lo hi) lo hi.
Proof.
  exists (inject_Z lo), (inject_Z hi). repeat split; reflexivity.
Qed.

(* ===================================================================== *)
(** * The Filter Engine *)
(* ===================================================================== *)

(** C1.  For every frame and every choice of the sidebar, the filter
    block returns exactly the rows, in their order, that satisfy the
    conjunction of the five predicate groups: employment type in the
    chosen set, remote type in the chosen set, minimum years at least the
    floor, maximum years at most the ceiling, and salary_from at least the
    low end with salary_to at most the high end.  An empty category set
    restricts nothing: its stage returns the frame unchanged, and a frame
    whose rows all pass the conjunction comes back unchanged.  A row whose
    compared numeric cell is null is not in the output. *)
Theorem filter_engine_is_the_conjunction (df : DataFrame) (sb : Sidebar) :
  filtered_df df sb
  = mkFrame (columns df) (filter (Spec.satisfies sb) (rows df))
  /\ (forall r, In r (rows (filtered_df df sb))
                <-> In r (rows df) /\ Spec.keeps sb r)
  /\ filter_job_type [] df = df
  /\ filter_remote [] df = df
  /\ (forall r, job_type sb = [] -> Spec.employment_ok sb r = true)
  /\ (forall r, remote sb = [] -> Spec.remote_ok sb r = true)
  /\ ((forall r, In r (rows df) -> Spec.keeps sb r) -> filtered_df df sb = df)
  /\ (forall r,
        MIN_YEARS_EXPERIENCE r = None \/ MAX_YEARS_EXPERIENCE r = None
        \/ SALARY_FROM r = None \/ SALARY_TO r = None ->
        ~ In r (rows (filtered_df df sb))).
Proof.
  split; [apply filtered_df_rows|].
  split.
  { intro r. rewrite filtered_df_rows. cbn [rows].
    rewrite filter_In, satisfies_iff. reflexivity. }
  split; [reflexivity|].
  split; [reflexivity|].
  split.
  { intros r H. unfold Spec.employment_ok. now rewrite H. }
  split.
  { intros r H. unfold Spec.remote_ok. now rewrite H. }
  split.
  { intro H. rewrite filtered_df_rows.
    rewrite <- (frame_eta df) at 3. f_equal.
    rewrite <- (filter_all (rows df)) at 2.
    apply filter_ext_in. intros r Hr.
    apply satisfies_iff. now apply H. }
  intros r Hnull Hin.
  rewrite filtered_df_rows in Hin. cbn [rows] in Hin.
  apply filter_In in Hin. destruct Hin as [_ Hs].
  apply satisfies_iff in Hs.
  destruct Hs as (_ & _ & [q1 [H1 _]] & [q2 [H2 _]] & [q3 [H3 _]] & [q4 [H4 _]]).
  destruct Hnull as [H | [H | [H | H]]]; congruence.
Qed.

Lemma filter_engine_is_the_conjunction_witness :
  filtered_df Scenario.three_rows (mkSidebar [] [] 0 30 (0, 200000)%Z)
  = Scenario.three_rows
  /\ ~ In Scenario.upper_bound_only
         (rows (filtered_df Scenario.one_sided Scenario.salary_60_100)).
Proof.
  destruct (filter_engine_is_the_conjunction
              Scenario.three_rows (mkSidebar [] [] 0 30 (0, 200000)%Z))
    as (_ & _ & _ & _ & _ & _ & Hall & _).
  destruct (filter_engine_is_the_conjunction
              Scenario.one_sided Scenario.salary_60_100)
    as (_ & _ & _ & _ & _ & _ & _ & Hnull).
  split.
  - apply Hall. intros r Hr. apply satisfies_iff.
    destruct Hr as [<- | [<- | [<- | []]]]; reflexivity.
  - apply Hnull. right. right. left. reflexivity.
Defined.

(** C8, as the script has it.  On three rows whose salary bounds are
    (50000, 70000), (80000, 90000) and (40000, 40000), the salary range
    (60000, 100000) keeps the second row only: the two salary comparisons
    hold for it and fail for the first and the third, and the whole filter
    block returns the second row alone when it passes the four other
    groups, and nothing otherwise.  Both comparisons include their bound:
    a row with salary_from 60000 and salary_to 100000 passes them. *)
Theorem salary_range_keeps_the_second_row
  (cols : list string) (r1 r2 r3 : Row) (sb : Sidebar) :
  Spec.has_salary r1 50000 70000 ->
  Spec.has_salary r2 80000 90000 ->
  Spec.has_salary r3 40000 40000 ->
  salary_range sb = (60000, 100000)%Z ->
  salary_mask (60000, 100000)%Z (mkFrame cols [r1; r2; r3])
  = [false; true; false]
  /\ rows (loc (mkFrame cols [r1; r2; r3])
               (salary_mask (60000, 100000)%Z (mkFrame cols [r1; r2; r3])))
     = [r2]
  /\ rows (filtered_df (mkFrame cols [r1; r2; r3]) sb)
     = (if Spec.other_groups_ok sb r2 then [r2] else [])
  /\ (forall r, Spec.has_salary r 60000 100000 ->
                Spec.salary_ok (60000, 100000)%Z r = true).
Proof.
  intros H1 H2 H3 Hsb.
  pose proof (salary_ok_has_salary (60000, 100000)%Z _ _ _ H1) as E1.
  pose proof (salary_ok_has_salary (60000, 100000)%Z _ _ _ H2) as E2.
  pose proof (salary_ok_has_salary (60000, 100000)%Z _ _ _ H3) as E3.
  cbn in E1, E2, E3.
  assert (Hmask : salary_mask (60000, 100000)%Z (mkFrame cols [r1; r2; r3])
                  = [false; true; false]).
  { rewrite salary_mask_rows. cbn [rows map]. now rewrite E1, E2, E3. }
  split; [exact Hmask|].
  split; [rewrite Hmask; reflexivity|].
  split.
  - rewrite filtered_df_rows. cbn [rows filter].
    rewrite !satisfies_split, Hsb, E1, E2, E3, !andb_false_r, andb_true_r.
    now destruct (Spec.other_groups_ok sb r2).
  - intros r Hr.
    now rewrite (salary_ok_has_salary _ _ _ _ Hr).
Qed.

Lemma salary_range_keeps_the_second_row_witness :
  rows (filtered_df Scenario.three_rows Scenario.salary_60_100)
  = [Scenario.acme_2]
  /\ Spec.salary_ok (60000, 100000)%Z Scenario.on_the_bounds = true.
Proof.
  destruct (salary_range_keeps_the_second_row
              columns_needed Scenario.acme_1 Scenario.acme_2 Scenario.beta
              Scenario.salary_60_100
              (has_salary_posting "Tech" "Acme" 50000 70000)
              (has_salary_posting "Tech" "Acme" 80000 90000)
              (has_salary_posting "Unclassified Industry" "Beta" 40000 40000)
              eq_refl)
    as (_ & _ & Hrows & Hbound).
  split.
  - exact Hrows.
  - apply Hbound. apply has_salary_posting.
Defined.

(** C8, as stated, fails: on the three-row example the salary range
    (60000, 100000) does not keep the first row. *)
Lemma salary_range_drops_the_first_row :
  rows (filtered_df Scenario.three_rows Scenario.salary_60_100)
  <> [Scenario.acme_1]
  /\ rows (loc Scenario.three_rows
               (salary_mask (60000, 100000)%Z Scenario.three_rows))
     <> [Scenario.acme_1]
  /\ Spec.salary_ok (60000, 100000)%Z Scenario.acme_1 = false.
Proof.
  repeat split; try discriminate.
Qed.

(* ===================================================================== *)
(** * The salary distribution *)
(* ===================================================================== *)

Lemma add_Average_Salary_rows (fdf : DataFrame) :
  rows (add_Average_Salary fdf)
  = map (fun r => set_Average_Salary (Spec.row_average r) r) (rows fdf).
Proof.
  unfold add_Average_Salary, setitem. cbn [rows].
  apply (assign_map set_Average_Salary Spec.row_average).
Qed.


Lemma row_average_cases (r : Row) :
  Spec.row_average r
  = match SALARY_FROM r, SALARY_TO r with
    | Some lo, Some hi => Some (Spec.midpoint lo hi)
    | Some lo, None => Some (Qred lo)
    | None, Some hi => Some (Qred hi)
    | None, None => None
    end.
Proof.
  unfold Spec.row_average, mean_axis1, Spec.midpoint.
  destruct (SALARY_FROM r) as [lo|], (SALARY_TO r) as [hi|];
    cbn [dropna Qsum fold_right List.length];
    try reflexivity; f_equal; apply Qred_complete.
  - change (inject_Z (Z.of_nat 2)) with 2%Q. field.
  - change (inject_Z (Z.of_nat 1)) with 1%Q. field.
  - change (inject_Z (Z.of_nat 1)) with 1%Q. field.
Qed.

Lemma filtered_row_bounds (df : DataFrame) (sb : Sidebar) (r : Row) :
  In r (rows (filtered_df df sb)) ->
  exists a b lo hi,
    MIN_YEARS_EXPERIENCE r = Some a /\ MAX_YEARS_EXPERIENCE r = Some b
    /\ SALARY_FROM r = Some lo /\ SALARY_TO r = Some hi.
Proof.
  rewrite filtered_df_rows. cbn [rows]. rewrite filter_In, satisfies_iff.
  intros (_ & _ & _ & [a [Ha _]] & [b [Hb _]] & [lo [Hlo _]] & [hi [Hhi _]]).
  now exists a, b, lo, hi.
Qed.

Lemma dropna_map_Some {A B : Type} (f : A -> B) (l : list A) :
  dropna (map (fun x => Some (f x)) l) = map f l.
Proof.
  induction l as [| x l IH]; simpl; congruence.
Qed.

Lemma dropna_all_None {A B : Type} (f : A -> option B) (l : list A) :
  (forall x, In x l -> f x = None) -> dropna (map f l) = [].
Proof.
  induction l as [| x l IH]; intro H; simpl; [reflexivity|].
  rewrite (H x (or_introl eq_refl)). apply IH.
  intros y Hy. apply H. now right.
Qed.





(* ===================================================================== *)
(** * Counting and explode *)
(* ===================================================================== *)

Lemma in_firstn {A : Type} (n : nat) (l : list A) (x : A) :
  In x (firstn n l) -> In x l.
Proof.
  revert l. induction n as [| n IH]; intros [| y l]; simpl; try tauto.
  intros [<- | H]; [now left|right; now apply IH].
Qed.

Section CountFacts.

Context {K : Type}.
Variable eqb : K -> K -> bool.
Variable ltb : K -> K -> bool.

Lemma total_count_tally (k : K) (t : list (K * nat)) :
  Spec.total_count (tally eqb k t) = S (Spec.total_count t).
Proof using Type.
  unfold Spec.total_count.
  induction t as [| [k' n] t IH]; simpl; [reflexivity|].
  destruct (eqb k k'); simpl; [reflexivity|].
  rewrite IH. lia.
Qed.

Lemma total_count_tally_sorted (k : K) (t : list (K * nat)) :
  Spec.total_count (tally_sorted eqb ltb k t) = S (Spec.total_count t).
Proof using Type.
  unfold Spec.total_count.
  induction t as [| [k' n] t IH]; simpl; [reflexivity|].
  destruct (eqb k k'); simpl; [reflexivity|].
  destruct (ltb k k'); simpl; [reflexivity|].
  rewrite IH. lia.
Qed.

Lemma total_count_fold (step : K -> list (K * nat) -> list (K * nat))
  (ks : list K) (t : list (K * nat)) :
  (forall k u, Spec.total_count (step k u) = S (Spec.total_count u)) ->
  Spec.total_count (fold_left (fun u k => step k u) ks t)
  = List.length ks + Spec.total_count t.
Proof using Type.
  intro Hstep. revert t.
  induction ks as [| k ks IH]; intro t; simpl; [reflexivity|].
  rewrite IH, Hstep. lia.
Qed.

Lemma total_count_insert_desc (e : K * nat) (t : list (K * nat)) :
  Spec.total_count (insert_desc e t) = snd e + Spec.total_count t.
Proof using Type.
  unfold Spec.total_count.
  induction t as [| e' t IH]; simpl; [reflexivity|].
  destruct (snd e' <? snd e); simpl; [reflexivity|].
  rewrite IH. lia.
Qed.

Lemma total_count_sort_desc (t : list (K * nat)) :
  Spec.total_count (sort_desc t) = Spec.total_count t.
Proof using Type.
  induction t as [| e t IH]; simpl; [reflexivity|].
  rewrite total_count_insert_desc, IH. reflexivity.
Qed.

Lemma total_count_value_counts (s : list (option K)) :
  Spec.total_count (value_counts eqb s) = List.length (dropna s).
Proof using Type.
  unfold value_counts, tally_all.
  rewrite total_count_sort_desc.
  rewrite (total_count_fold (tally eqb)); [|apply total_count_tally].
  unfold Spec.total_count. simpl. lia.
Qed.

Lemma total_count_groupby_size (s : list (option K)) :
  Spec.total_count (groupby_size eqb ltb s) = List.length (dropna s).
Proof using Type.
  unfold groupby_size.
  rewrite (total_count_fold (tally_sorted eqb ltb));
    [|apply total_count_tally_sorted].
  unfold Spec.total_count. simpl. lia.
Qed.

(** Keys of a summary table come from the counted series. *)

Lemma keys_tally (k : K) (t : list (K * nat)) (e : K * nat) :
  In e (tally eqb k t) -> fst e = k \/ In (fst e) (map fst t).
Proof using Type.
  induction t as [| [k' n] t IH]; simpl.
  - intros [<- | []]. now left.
  - destruct (eqb k k'); simpl.
    + intros [<- | H]; right; [now left|].
      right. now apply in_map.
    + intros [<- | H]; [right; now left|].
      destruct (IH H) as [-> | H']; [now left|right; now right].
Qed.

Lemma keys_tally_all (ks : list K) (e : K * nat) :
  In e (tally_all eqb ks) -> In (fst e) ks.
Proof using Type.
  unfold tally_all.
  assert (G : forall t, In e (fold_left (fun t k => tally eqb k t) ks t) ->
                        In (fst e) ks \/ In (fst e) (map fst t)).
  { induction ks as [| k ks IH]; intros t H; simpl in *.
    - right. now apply in_map.
    - destruct (IH _ H) as [H' | H']; [left; now right|].
      apply in_map_iff in H'. destruct H' as [e' [Efst He']].
      destruct (keys_tally _ _ _ He') as [E | E].
      + left. left. congruence.
      + right. congruence. }
  intro H. destruct (G [] H) as [H' | []]. exact H'.
Qed.

Lemma in_insert_desc (x e : K * nat) (t : list (K * nat)) :
  In e (insert_desc x t) -> e = x \/ In e t.
Proof using Type.
  induction t as [| e' t IH]; simpl.
  - intros [<- | []]. now left.
  - destruct (snd e' <? snd x); simpl.
    + intros [<- | H]; [now left|now right].
    + intros [<- | H]; [right; now left|].
      destruct (IH H) as [-> | H']; [now left|right; now right].
Qed.

Lemma in_sort_desc (e : K * nat) (t : list (K * nat)) :
  In e (sort_desc t) -> In e t.
Proof using Type.
  induction t as [| x t IH]; simpl; [exact (fun H => H)|].
  intro H. destruct (in_insert_desc _ _ _ H) as [-> | H'];
    [now left|right; now apply IH].
Qed.

Lemma in_dropna (k : K) (s : list (option K)) :
  In k (dropna s) -> In (Some k) s.
Proof using Type.
  induction s as [| [a|] s IH]; simpl; [exact (fun H => H)| |].
  - intros [<- | H]; [now left|right; now apply IH].
  - intro H. right. now apply IH.
Qed.

Lemma keys_nlargest_value_counts (n : nat) (s : list (option K))
  (e : K * nat) :
  In e (reset_index (nlargest n (value_counts eqb s))) -> In (Some (fst e)) s.
Proof using Type.
  unfold reset_index, nlargest, value_counts. intro H.
  apply in_firstn, in_sort_desc, in_sort_desc, keys_tally_all in H.
  now apply in_dropna.
Qed.

End CountFacts.

Lemma dropna_app {A : Type} (l1 l2 : list (option A)) :
  dropna (l1 ++ l2) = dropna l1 ++ dropna l2.
Proof.
  induction l1 as [| [a|] l1 IH]; simpl; congruence.
Qed.

Lemma mapM_pure {A B : Type} (f : A -> PyResult B) (g : A -> B)
  (l : list A) :
  (forall x, In x l -> f x = Ok (g x)) -> mapM f l = Ok (map g l).
Proof.
  induction l as [| x l IH]; intro H; simpl; [reflexivity|].
  rewrite (H x (or_introl eq_refl)). simpl.
  rewrite IH; [reflexivity|]. intros y Hy. apply H. now right.
Qed.

(** ** Explode *)

Lemma get_set_list (c : ListColumn) (v : PyObj) (r : Row) :
  get_list c (set_list c v r) = v.
Proof. now destruct c. Qed.

Lemma NAICS2_set_list (c : ListColumn) (v : PyObj) (r : Row) :
  NAICS2_NAME (set_list c v r) = NAICS2_NAME r.
Proof. reflexivity. Qed.

Lemma explode_cell_length (x : PyObj) :
  List.length (explode_cell x) = Nat.max 1 (Spec.sequence_length x).
Proof.
  destruct x as [| s | [| a l]]; simpl; try reflexivity.
  now rewrite length_map.
Qed.

Lemma explode_cell_scalar (x y : PyObj) :
  In y (explode_cell x) -> hash_key y = Ok (Spec.scalar_key y).
Proof.
  destruct x as [| s | [| a l]]; simpl.
  - intros [<- | []]. reflexivity.
  - intros [<- | []]. reflexivity.
  - intros [<- | []]. reflexivity.
  - intros [<- | H]; [reflexivity|].
    apply in_map_iff in H. destruct H as [t [<- _]]. reflexivity.
Qed.

Lemma explode_cell_items (x : PyObj) :
  dropna (map Spec.scalar_key (explode_cell x)) = Spec.items x.
Proof.
  destruct x as [| s | [| a l]]; simpl; try reflexivity.
  f_equal. rewrite map_map. simpl.
  rewrite (dropna_map_Some (fun t : string => t)). apply map_id.
Qed.

Lemma items_of_sequence (x : PyObj) :
  Spec.is_sequence x = true ->
  List.length (Spec.items x) = Spec.sequence_length x.
Proof.
  destruct x; simpl; [discriminate|discriminate|reflexivity].
Qed.

Lemma exploded_rows_length (c : ListColumn) (fdf : DataFrame) :
  List.length (rows (explode c fdf))
  = list_sum (map (fun r => Nat.max 1 (Spec.sequence_length (get_list c r)))
                  (rows fdf)).
Proof.
  unfold explode. cbn [rows]. rewrite length_flat_map. f_equal.
  apply map_ext. intro r. rewrite length_map. apply explode_cell_length.
Qed.

Lemma exploded_col (c : ListColumn) (fdf : DataFrame) :
  col (get_list c) (explode c fdf)
  = flat_map (fun r => explode_cell (get_list c r)) (rows fdf).
Proof.
  unfold col, explode. cbn [rows].
  induction (rows fdf) as [| r rs IH]; simpl; [reflexivity|].
  rewrite map_app, IH, map_map. f_equal.
  rewrite <- (map_id (explode_cell (get_list c r))) at 2.
  apply map_ext. intro v. apply get_set_list.
Qed.

Lemma skill_counts_exploded (c : ListColumn) (fdf : DataFrame) :
  skill_counts c (explode c fdf)
  = Ok (value_counts String.eqb
          (map Spec.scalar_key
               (flat_map (fun r => explode_cell (get_list c r)) (rows fdf)))).
Proof.
  unfold skill_counts. rewrite exploded_col.
  rewrite (mapM_pure hash_key Spec.scalar_key); [reflexivity|].
  intros y Hy. apply in_flat_map in Hy. destruct Hy as [r [_ Hy]].
  now apply explode_cell_scalar in Hy.
Qed.

Lemma exploded_items_length (c : ListColumn) (rs : list Row) :
  List.length
    (dropna (map Spec.scalar_key
                 (flat_map (fun r => explode_cell (get_list c r)) rs)))
  = list_sum (map (fun r => List.length (Spec.items (get_list c r))) rs).
Proof.
  induction rs as [| r rs IH]; simpl; [reflexivity|].
  rewrite map_app, dropna_app, length_app, IH, explode_cell_items.
  reflexivity.
Qed.

Lemma sequence_items_total (c : ListColumn) (rs : list Row) :
  forallb Spec.is_sequence (map (get_list c) rs) = true ->
  list_sum (map (fun r => List.length (Spec.items (get_list c r))) rs)
  = Spec.total_sequence_length c rs.
Proof.
  unfold Spec.total_sequence_length.
  induction rs as [| r rs IH]; simpl; [reflexivity|].
  rewrite andb_true_iff. intros [Hr Hrs].
  now rewrite IH, items_of_sequence.
Qed.

Lemma forallb_filter_map {A B : Type} (p : B -> bool) (f : A -> B)
  (q : A -> bool) (l : list A) :
  forallb p (map f l) = true -> forallb p (map f (filter q l)) = true.
Proof.
  induction l as [| x l IH]; simpl; [reflexivity|].
  rewrite andb_true_iff. intros [Hx Hl].
  destruct (q x); simpl; [rewrite Hx|]; now apply IH.
Qed.

(** The rows lines 159-160 keep: the exploded rows of the postings whose
    industry is not the sentinel. *)
Lemma exploded_classified_rows (c : ListColumn) (fdf : DataFrame) :
  rows (exploded_classified c fdf)
  = flat_map (fun r => map (fun v => set_list c v r)
                           (explode_cell (get_list c r)))
      (filter (fun r => Spec.not_the_sentinel "Unclassified Industry"
                          (NAICS2_NAME r))
              (rows fdf)).
Proof.
  unfold exploded_classified, ne, col.
  rewrite map_map.
  rewrite (loc_map (fun r => Spec.not_the_sentinel "Unclassified Industry"
                               (NAICS2_NAME r))).
  unfold explode. cbn [rows].
  induction (rows fdf) as [| r rs IH]; simpl; [reflexivity|].
  rewrite filter_app, IH.
  set (keep := Spec.not_the_sentinel "Unclassified Industry" (NAICS2_NAME r)).
  assert (E : filter (fun r0 => Spec.not_the_sentinel "Unclassified Industry"
                                  (NAICS2_NAME r0))
                (map (fun v => set_list c v r) (explode_cell (get_list c r)))
              = if keep
                then map (fun v => set_list c v r) (explode_cell (get_list c r))
                else []).
  { induction (explode_cell (get_list c r)) as [| v vs IHv]; simpl.
    - now destruct keep.
    - fold keep. rewrite IHv. now destruct keep. }
  rewrite E. now destruct keep.
Qed.

Lemma group_keys_length (c : ListColumn) (rs : list Row) :
  List.length
    (dropna
       (map (Spec.row_group_key c)
            (flat_map (fun r => map (fun v => set_list c v r)
                                    (explode_cell (get_list c r)))
               (filter (fun r => Spec.not_the_sentinel "Unclassified Industry"
                                   (NAICS2_NAME r))
                       rs))))
  = list_sum (map (fun r => List.length (Spec.items (get_list c r)))
                  (filter Spec.classified rs)).
Proof.
  induction rs as [| r rs IH]; simpl; [reflexivity|].
  unfold Spec.classified at 1, Spec.not_the_sentinel at 1.
  destruct (NAICS2_NAME r) as [i|] eqn:Ei.
  - destruct (negb (i =? "Unclassified Industry")%string); [|exact IH].
    simpl. rewrite map_app, dropna_app, length_app, IH. f_equal.
    rewrite map_map. rewrite <- explode_cell_items.
    induction (explode_cell (get_list c r)) as [| v vs IHv];
      simpl; [reflexivity|].
    unfold Spec.row_group_key at 1.
    rewrite NAICS2_set_list, Ei, get_set_list.
    destruct (Spec.scalar_key v); simpl; now rewrite IHv.
  - simpl. rewrite map_app, dropna_app, length_app, IH.
    rewrite map_map.
    rewrite (dropna_all_None
               (fun v => Spec.row_group_key c (set_list c v r))); [reflexivity|].
    intros v _. unfold Spec.row_group_key.
    now rewrite NAICS2_set_list, Ei.
Qed.

Lemma skill_data_exploded (c : ListColumn) (fdf : DataFrame) :
  skill_data c fdf
  = Ok (groupby_size pair_eqb pair_ltb
          (map (Spec.row_group_key c) (rows (exploded_classified c fdf)))).
Proof.
  unfold skill_data, reset_index.
  rewrite (mapM_pure (group_key c) (Spec.row_group_key c)); [reflexivity|].
  intros r' Hr'. rewrite exploded_classified_rows in Hr'.
  apply in_flat_map in Hr'. destruct Hr' as [r [_ Hr']].
  apply in_map_iff in Hr'. destruct Hr' as [v [<- Hv]].
  unfold group_key, Spec.row_group_key. rewrite get_set_list.
  now rewrite (explode_cell_scalar _ _ Hv).
Qed.

(** C3, as the script has it.  On a decoded column, explode yields one
    row per element of a non-empty sequence and one row, holding null, for
    an empty sequence: sum(max(1, len(sequence))) rows.  The null rows are
    dropped when the skills are counted, so the counts of the skill table,
    before its truncation to the ten largest, add up to
    sum(len(sequence)) over the rows of the filtered frame, and the counts
    of the industry-by-skill table add up to sum(len(sequence)) over its
    rows whose industry is present and is not the sentinel.  Neither
    computation raises. *)
Theorem explode_row_counts (c : ListColumn) (fdf : DataFrame) :
  forallb Spec.is_sequence (col (get_list c) fdf) = true ->
  List.length (rows (exploded_skills c fdf))
  = list_sum (map (fun r => Nat.max 1 (Spec.sequence_length (get_list c r)))
                  (rows fdf))
  /\ (exists counts,
        skill_counts c (exploded_skills c fdf) = Ok counts
        /\ Spec.total_count counts = Spec.total_sequence_length c (rows fdf))
  /\ (exists data,
        skill_data c fdf = Ok data
        /\ Spec.total_count data
           = Spec.total_sequence_length c (filter Spec.classified (rows fdf))).
Proof.
  intro Hseq. unfold exploded_skills.
  split; [apply exploded_rows_length|].
  split.
  - eexists. split; [apply skill_counts_exploded|].
    rewrite total_count_value_counts, exploded_items_length.
    now apply sequence_items_total.
  - eexists. split; [apply skill_data_exploded|].
    rewrite total_count_groupby_size, exploded_classified_rows.
    rewrite group_keys_length.
    apply sequence_items_total. now apply forallb_filter_map.
Qed.

Lemma explode_row_counts_witness :
  List.length (rows (exploded_skills SPECIALIZED_SKILLS Scenario.some_skills))
  = 6
  /\ (exists counts,
        skill_counts SPECIALIZED_SKILLS
          (exploded_skills SPECIALIZED_SKILLS Scenario.some_skills)
        = Ok counts
        /\ Spec.total_count counts = 5)
  /\ (exists data,
        skill_data SPECIALIZED_SKILLS Scenario.some_skills = Ok data
        /\ Spec.total_count data = 3).
Proof.
  exact (explode_row_counts SPECIALIZED_SKILLS Scenario.some_skills eq_refl).
Defined.

(** C3, as stated, fails: a row whose sequence is empty contributes one
    exploded row, not none. *)
Lemma empty_sequence_explodes_to_one_row :
  Spec.total_sequence_length SPECIALIZED_SKILLS (rows Scenario.no_skills) = 0
  /\ List.length (rows (exploded_skills SPECIALIZED_SKILLS Scenario.no_skills))
     = 1
  /\ col SPECIALIZED_SKILLS_NAME
       (exploded_skills SPECIALIZED_SKILLS Scenario.no_skills)
     = [PyNaN]
  /\ List.length (rows (exploded_skills SPECIALIZED_SKILLS Scenario.no_skills))
     <> Spec.total_sequence_length SPECIALIZED_SKILLS
          (rows Scenario.no_skills).
Proof.
  repeat split; try reflexivity. discriminate.
Qed.

(* ===================================================================== *)
(** * Sentinel categories *)
(* ===================================================================== *)

Lemma top10_without_sentinel (sentinel : string) (f : Row -> option string)
  (fdf : DataFrame) :
  Forall (fun e => fst e <> sentinel)
         (top10 (col f (loc fdf (ne (col f fdf) sentinel)))).
Proof.
  apply Forall_forall. intros e He.
  unfold top10 in He. apply keys_nlargest_value_counts in He.
  unfold col, ne in He. rewrite map_map in He.
  rewrite (loc_map (fun r => Spec.not_the_sentinel sentinel (f r))) in He.
  cbn [rows] in He. apply in_map_iff in He.
  destruct He as [r [Hf Hr]]. apply filter_In in Hr.
  destruct Hr as [_ Hkeep]. rewrite Hf in Hkeep. simpl in Hkeep.
  apply negb_true_iff in Hkeep. now apply String.eqb_neq.
Qed.

(** C4.  Whatever the filtered frame, no line of the industry table is
    "Unclassified Industry", no line of the occupation table is
    "Unclassified Occupation" and no line of the company table is
    "Unclassified"; this holds in particular on a frame where the sentinel
    is the most frequent value, whose tables then list the other values
    only. *)
Theorem top_tables_exclude_their_sentinel (filtered_df : DataFrame) :
  Forall (fun e => fst e <> "Unclassified Industry")
         (industry_counts filtered_df)
  /\ Forall (fun e => fst e <> "Unclassified Occupation")
            (soc_counts filtered_df)
  /\ Forall (fun e => fst e <> "Unclassified") (top_companies filtered_df)
  /\ industry_counts Scenario.mostly_unclassified = [("Tech", 1)]
  /\ top_companies Scenario.mostly_unclassified = [("Acme", 1)].
Proof.
  split; [apply top10_without_sentinel|].
  split; [apply top10_without_sentinel|].
  split; [apply top10_without_sentinel|].
  split; reflexivity.
Qed.

(* ===================================================================== *)
(** * The chart blocks and the filtered frame *)
(* ===================================================================== *)

Lemma run_hands_on (blocks : list Block) :
  Forall Spec.hands_on blocks -> Spec.hands_on (run blocks).
Proof.
  induction 1 as [| b blocks Hb _ IH]; intro fdf; simpl.
  - now exists [].
  - destruct (Hb fdf) as [figs Eb]. destruct (IH fdf) as [figs' Er].
    rewrite Eb. cbn. rewrite Er. cbn. eexists. reflexivity.
Qed.

Lemma run_app (front back : list Block) (fdf f1 f2 : DataFrame)
  (g1 g2 : list Figure) :
  run front fdf = Ok (f1, g1) ->
  run back f1 = Ok (f2, g2) ->
  run (front ++ back) fdf = Ok (f2, g1 ++ g2).
Proof.
  revert fdf g1.
  induction front as [| b front IH]; intros fdf g1 Hfront Hback; simpl in *.
  - injection Hfront as <- <-. exact Hback.
  - destruct (b fdf) as [[f g]|e]; cbn in *; [|discriminate].
    destruct (run front f) as [[f' g']|e] eqn:Er; cbn in *; [|discriminate].
    injection Hfront as <- <-.
    rewrite (IH _ _ Er Hback). cbn. now rewrite app_assoc.
Qed.

Lemma industry_block_hands_on : Spec.hands_on industry_block.
Proof.
  intro fdf. unfold industry_block.
  destruct (has_column "NAICS2_NAME" fdf); eexists; reflexivity.
Qed.

Lemma occupation_block_hands_on : Spec.hands_on occupation_block.
Proof.
  intro fdf. unfold occupation_block.
  destruct (has_column "SOC_2021_5_NAME" fdf); eexists; reflexivity.
Qed.

Lemma skills_block_hands_on : Spec.hands_on skills_block.
Proof.
  intro fdf. unfold skills_block, top_skills, exploded_skills.
  rewrite skill_counts_exploded.
  destruct (has_column "SPECIALIZED_SKILLS_NAME" fdf); eexists; reflexivity.
Qed.

Lemma company_block_hands_on : Spec.hands_on company_block.
Proof.
  intro fdf. unfold company_block.
  destruct (has_column "COMPANY_NAME" fdf); eexists; reflexivity.
Qed.

Lemma education_block_hands_on : Spec.hands_on education_block.
Proof.
  intro fdf. unfold education_block.
  destruct (has_column "MIN_EDULEVELS_NAME" fdf); eexists; reflexivity.
Qed.

Lemma treemap_block_hands_on (c : ListColumn) (label : string) :
  Spec.hands_on (treemap_block c label).
Proof.
  intro fdf. unfold treemap_block. rewrite skill_data_exploded.
  destruct (has_column "NAICS2_NAME" fdf && has_column (column_name c) fdf);
    eexists; reflexivity.
Qed.

Lemma restore_Average_Salary (v : option Q) (r : Row) :
  set_Average_Salary (Average_Salary r) (set_Average_Salary v r) = r.
Proof. now destruct r. Qed.

(** C9, as the script has it.  The industry, occupation, skill, company,
    education and tree-map blocks compute their figures from the filtered
    frame and hand it on exactly as they received it, and none of them
    raises.  The salary block does not: when the frame has both salary
    columns it rebinds [filtered_df] to a frame with the column
    [Average_Salary] added (last in the column index when it is new), the
    same rows in the same order, each with that one cell written and every
    other cell as before; the blocks after it receive the extended frame,
    which is the frame left when all charts are drawn. *)
Theorem chart_blocks_and_the_frame (filtered_df : DataFrame) :
  Spec.hands_on industry_block
  /\ Spec.hands_on occupation_block
  /\ Spec.hands_on skills_block
  /\ Spec.hands_on company_block
  /\ Spec.hands_on education_block
  /\ (forall c label, Spec.hands_on (treemap_block c label))
  /\ (exists figures,
        salary_block filtered_df
        = Ok (if has_column "SALARY_FROM" filtered_df
                 && has_column "SALARY_TO" filtered_df
              then add_Average_Salary filtered_df
              else filtered_df,
              figures))
  /\ columns (add_Average_Salary filtered_df)
     = with_column "Average_Salary" (columns filtered_df)
  /\ rows (add_Average_Salary filtered_df)
     = map (fun r => set_Average_Salary (Spec.row_average r) r)
           (rows filtered_df)
  /\ (forall v r,
        set_Average_Salary (Average_Salary r) (set_Average_Salary v r) = r)
  /\ (exists figures,
        run charts filtered_df
        = Ok (if has_column "SALARY_FROM" filtered_df
                 && has_column "SALARY_TO" filtered_df
              then add_Average_Salary filtered_df
              else filtered_df,
              figures)).
Proof.
  assert (Hsalary : exists figures,
             salary_block filtered_df
             = Ok (if has_column "SALARY_FROM" filtered_df
                      && has_column "SALARY_TO" filtered_df
                   then add_Average_Salary filtered_df
                   else filtered_df,
                   figures)).
  { unfold salary_block.
    destruct (has_column "SALARY_FROM" filtered_df
              && has_column "SALARY_TO" filtered_df);
      eexists; reflexivity. }
  split; [apply industry_block_hands_on|].
  split; [apply occupation_block_hands_on|].
  split; [apply skills_block_hands_on|].
  split; [apply company_block_hands_on|].
  split; [apply education_block_hands_on|].
  split; [apply treemap_block_hands_on|].
  split; [exact Hsalary|].
  split; [reflexivity|].
  split; [apply add_Average_Salary_rows|].
  split; [exact restore_Average_Salary|].
  destruct Hsalary as [g2 E2].
  destruct (run_hands_on [industry_block; occupation_block]) with filtered_df
    as [g1 E1].
  { repeat constructor;
      [apply industry_block_hands_on|apply occupation_block_hands_on]. }
  destruct (run_hands_on
              [ skills_block; company_block; education_block;
                treemap_block SPECIALIZED_SKILLS "Specialized Skills";
                treemap_block CERTIFICATIONS "Certifications" ])
    with (if has_column "SALARY_FROM" filtered_df
             && has_column "SALARY_TO" filtered_df
          then add_Average_Salary filtered_df
          else filtered_df)
    as [g3 E3].
  { repeat constructor;
      [ apply skills_block_hands_on | apply company_block_hands_on
      | apply education_block_hands_on
      | apply treemap_block_hands_on | apply treemap_block_hands_on ]. }
  assert (E2' : run [salary_block] filtered_df
                = Ok (if has_column "SALARY_FROM" filtered_df
                         && has_column "SALARY_TO" filtered_df
                      then add_Average_Salary filtered_df
                      else filtered_df, g2 ++ [])).
  { simpl. rewrite E2. reflexivity. }
  exists (g1 ++ (g2 ++ []) ++ g3).
  exact (run_app [industry_block; occupation_block] _ _ _ _ _ _ E1
           (run_app [salary_block] _ _ _ _ _ _ E2' E3)).
Qed.

(** C9, as stated, fails for the salary block: it does not hand the frame
    on as it received it; on the three-row example the frame it leaves has
    one column more. *)
Lemma salary_block_extends_the_frame :
  ~ Spec.hands_on salary_block
  /\ (exists figures,
        salary_block Scenario.three_rows
        = Ok (add_Average_Salary Scenario.three_rows, figures))
  /\ columns (add_Average_Salary Scenario.three_rows)
     = columns Scenario.three_rows ++ ["Average_Salary"]
  /\ add_Average_Salary Scenario.three_rows <> Scenario.three_rows.
Proof.
  split.
  { intro H. destruct (H Scenario.three_rows) as [figs E].
    vm_compute in E. discriminate. }
  split; [eexists; reflexivity|].
  split; [reflexivity|].
  discriminate.
Qed.

(** C10.  Every row the filter block lets through has its four compared
    cells present, so the frame the salary block receives misses no salary
    bound: the two blocks that run before it hand the frame on as it is,
    and the average the salary block stores is then the midpoint of the
    two bounds, present on every row. *)
Theorem filtered_rows_have_their_bounds (df : DataFrame) (sb : Sidebar) :
  Forall (fun r => MIN_YEARS_EXPERIENCE r <> None
                   /\ MAX_YEARS_EXPERIENCE r <> None
                   /\ SALARY_FROM r <> None
                   /\ SALARY_TO r <> None)
         (rows (filtered_df df sb))
  /\ (exists figures,
        run [industry_block; occupation_block] (filtered_df df sb)
        = Ok (filtered_df df sb, figures))
  /\ Forall (fun r => exists lo hi,
                 SALARY_FROM r = Some lo /\ SALARY_TO r = Some hi
                 /\ Average_Salary r = Some (Spec.midpoint lo hi))
            (rows (add_Average_Salary (filtered_df df sb))).
Proof.
  split.
  { apply Forall_forall. intros r Hr.
    destruct (filtered_row_bounds df sb r Hr)
      as (a & b & lo & hi & Ha & Hb & Hlo & Hhi).
    rewrite Ha, Hb, Hlo, Hhi. repeat split; discriminate. }
  split.
  { apply (run_hands_on [industry_block; occupation_block]).
    repeat constructor;
      [apply industry_block_hands_on|apply occupation_block_hands_on]. }
  apply Forall_forall. intros r' Hr'.
  rewrite add_Average_Salary_rows in Hr'. apply in_map_iff in Hr'.
  destruct Hr' as [r [<- Hr]].
  destruct (filtered_row_bounds df sb r Hr)
    as (_ & _ & lo & hi & _ & _ & Hlo & Hhi).
  exists lo, hi. cbn. rewrite row_average_cases, Hlo, Hhi. now repeat split.
Qed.

(* ===================================================================== *)
(** * The remote-type normalisation *)
(* ===================================================================== *)

Lemma lstrip_from_skip (k : nat) (s : string) :
  lstrip_from k s = lstrip (Props.skip k s).
Proof.
  revert k. induction s as [| c s IH]; intros [| k]; try reflexivity.
  simpl. apply IH.
Qed.

Lemma lstrip_unfold (s : string) :
  lstrip s = match space_width s with
             | 0 => s
             | S k => lstrip (Props.skip (S k) s)
             end.
Proof.
  destruct s as [| c s]; [reflexivity|].
  unfold lstrip at 1. simpl lstrip_from.
  destruct (space_width (String c s)); [reflexivity|].
  simpl Props.skip. apply lstrip_from_skip.
Qed.

Lemma prefix_split (w s : string) :
  String.prefix w s = true <-> exists r, s = (w ++ r)%string.
Proof.
  revert w. induction s as [| b s IH]; intros [| a w]; simpl.
  - split; [intros _; now exists ""|reflexivity].
  - split; [discriminate|]. intros [r H]. discriminate.
  - split; [intros _; now eexists|reflexivity].
  - destruct (ascii_dec a b) as [<- | Hn].
    + rewrite IH. split; intros [r H]; exists r; [now rewrite H|].
      now injection H.
    + split; [discriminate|]. intros [r H]. injection H as <- _.
      contradiction.
Qed.

Lemma skip_append (w r : string) :
  Props.skip (String.length w) (w ++ r) = r.
Proof. induction w as [| a w IH]; simpl; [now destruct r|exact IH]. Qed.

Lemma prefix_of_both (w w' s : string) :
  String.prefix w s = true -> String.prefix w' s = true ->
  String.prefix w w' = true \/ String.prefix w' w = true.
Proof.
  rewrite !prefix_split. revert w w'.
  induction s as [| b s IH]; intros w w' [r Hr] [r' Hr'].
  - destruct w; [|discriminate]. left. now exists w'.
  - destruct w as [| a w]; [left; now exists w'|].
    destruct w' as [| a' w']; [right; now exists (String a w)|].
    simpl in Hr, Hr'. injection Hr as Ha Hs. injection Hr' as Ha' Hs'.
    subst a a'.
    destruct (IH w w') as [[x ->] | [x ->]];
      [now exists r|now exists r'| |].
    + left. now exists x.
    + right. now exists x.
Qed.

(** No white-space encoding starts another one. *)
Lemma whitespace_prefix_free (w w' : string) :
  In w whitespace -> In w' whitespace -> String.prefix w w' = true -> w = w'.
Proof.
  intros Hw Hw' Hp.
  assert (H : forallb
                (fun a => forallb
                            (fun b => implb (String.prefix a b)
                                            (String.eqb a b))
                            whitespace)
                whitespace = true)
    by (vm_compute; reflexivity).
  rewrite forallb_forall in H. specialize (H w Hw).
  rewrite forallb_forall in H. specialize (H w' Hw').
  rewrite Hp in H. simpl in H. now apply String.eqb_eq.
Qed.

Lemma whitespace_nonempty (w : string) :
  In w whitespace -> exists k, String.length w = S k.
Proof.
  intro Hw.
  assert (H : forallb (fun a => negb (String.length a =? 0)) whitespace
              = true)
    by (vm_compute; reflexivity).
  rewrite forallb_forall in H. specialize (H w Hw).
  destruct (String.length w); [discriminate|]. now eexists.
Qed.

Lemma space_width_of (w s : string) :
  In w whitespace -> String.prefix w s = true ->
  space_width s = String.length w.
Proof.
  intros Hw Hp. unfold space_width.
  destruct (find (fun w => String.prefix w s) whitespace) as [w'|] eqn:E.
  - apply find_some in E. destruct E as [Hw' Hp'].
    destruct (prefix_of_both _ _ _ Hp Hp') as [H | H].
    + now rewrite (whitespace_prefix_free _ _ Hw Hw' H).
    + now rewrite (whitespace_prefix_free _ _ Hw' Hw H).
  - pose proof (find_none _ _ E w Hw) as C. simpl in C. congruence.
Qed.

Lemma space_width_zero (s : string) :
  space_width s = 0 <-> forall w, In w whitespace -> String.prefix w s = false.
Proof.
  split.
  - intros H w Hw. destruct (String.prefix w s) eqn:E; [|reflexivity].
    rewrite (space_width_of w s Hw E) in H.
    destruct (whitespace_nonempty w Hw) as [k Hk]. congruence.
  - intro H. unfold space_width.
    destruct (find (fun w => String.prefix w s) whitespace) as [w|] eqn:E;
      [|reflexivity].
    apply find_some in E. destruct E as [Hw Hp]. rewrite (H w Hw) in Hp.
    discriminate.
Qed.

Lemma space_width_split (s : string) (k : nat) :
  space_width s = S k ->
  exists w r, In w whitespace /\ s = (w ++ r)%string
              /\ String.length w = S k.
Proof.
  unfold space_width.
  destruct (find (fun w => String.prefix w s) whitespace) as [w|] eqn:E;
    [|discriminate].
  apply find_some in E. destruct E as [Hw Hp]. intro Hl.
  apply (proj1 (prefix_split _ _)) in Hp. destruct Hp as [r Hr].
  now exists w, r.
Qed.

Lemma append_length (a b : string) :
  String.length (a ++ b) = String.length a + String.length b.
Proof. induction a as [| c a IH]; simpl; [reflexivity|now rewrite IH]. Qed.

Lemma append_assoc (a b c : string) :
  ((a ++ b) ++ c = a ++ (b ++ c))%string.
Proof. induction a as [| x a IH]; simpl; [reflexivity|now rewrite IH]. Qed.

Lemma lstrip_whitespace (w r : string) :
  In w whitespace -> lstrip (w ++ r) = lstrip r.
Proof.
  intro Hw. rewrite lstrip_unfold.
  assert (Hp : String.prefix w (w ++ r) = true)
    by (apply (proj2 (prefix_split _ _)); now exists r).
  rewrite (space_width_of w _ Hw Hp).
  destruct (whitespace_nonempty w Hw) as [k Hk]. rewrite Hk, <- Hk.
  now rewrite skip_append.
Qed.

Lemma lstrip_blank (a b : string) :
  blank a = true -> lstrip (a ++ b) = lstrip b.
Proof.
  remember (String.length a) as n eqn:Hn. revert a Hn.
  induction n as [n IH] using lt_wf_ind. intros a Hn Hb.
  unfold blank in Hb. rewrite lstrip_unfold in Hb.
  destruct (space_width a) as [| k] eqn:E.
  - destruct a; [reflexivity|discriminate].
  - destruct (space_width_split a k E) as (w & r & Hw & -> & Hl).
    rewrite <- Hl, skip_append in Hb.
    rewrite append_assoc, (lstrip_whitespace w _ Hw).
    apply (IH (String.length r)); [|reflexivity|].
    + subst n. rewrite append_length. lia.
    + unfold blank. exact Hb.
Qed.

(** What [lstrip] returns starts with no white space. *)
Lemma lstrip_trimmed (s : string) : space_width (lstrip s) = 0.
Proof.
  remember (String.length s) as n eqn:Hn. revert s Hn.
  induction n as [n IH] using lt_wf_ind. intros s Hn.
  rewrite lstrip_unfold. destruct (space_width s) as [| k] eqn:E.
  - exact E.
  - destruct (space_width_split s k E) as (w & r & Hw & -> & Hl).
    rewrite <- Hl, skip_append.
    apply (IH (String.length r)); [|reflexivity].
    subst n. rewrite append_length. lia.
Qed.

Lemma lstrip_id (s : string) : space_width s = 0 -> lstrip s = s.
Proof. intro H. now rewrite lstrip_unfold, H. Qed.

(** What [rstrip] cuts is white space. *)
Lemma rstrip_split (s : string) :
  exists q, s = (rstrip s ++ q)%string /\ blank q = true.
Proof.
  induction s as [| c s [q [E B]]].
  - exists "". split; reflexivity.
  - simpl rstrip. destruct (blank (String c s)) eqn:Eb.
    + exists (String c s). split; [reflexivity|exact Eb].
    + exists q. split; [simpl; now rewrite <- E|exact B].
Qed.

Lemma rstrip_short (u b : string) :
  blank b = true -> String.length (rstrip (u ++ b)) <= String.length u.
Proof.
  intro Hb. induction u as [| c u IH].
  - simpl. destruct b as [| c b]; [simpl; lia|].
    simpl rstrip. rewrite Hb. simpl. lia.
  - simpl append. simpl rstrip.
    destruct (blank (String c (u ++ b))); simpl; lia.
Qed.

Lemma blank_whitespace (w : string) : In w whitespace -> blank w = true.
Proof.
  intro Hw. unfold blank.
  assert (E : w = (w ++ "")%string).
  { clear. induction w as [| c w IH]; simpl; [reflexivity|now rewrite <- IH]. }
  rewrite E, (lstrip_whitespace w "" Hw). reflexivity.
Qed.

Lemma blank_append (a b : string) :
  blank a = true -> blank b = true -> blank (a ++ b) = true.
Proof.
  intros Ha Hb. unfold blank. now rewrite (lstrip_blank a b Ha).
Qed.

Lemma prefix_append (w s q : string) :
  String.prefix w s = true -> String.prefix w (s ++ q) = true.
Proof.
  rewrite !prefix_split. intros [r ->]. exists (r ++ q)%string.
  apply append_assoc.
Qed.

(** What [rstrip] returns ends with no white space. *)
Lemma rstrip_no_blank_end (s u w : string) :
  In w whitespace -> rstrip s <> (u ++ w)%string.
Proof.
  intros Hw E. destruct (rstrip_split s) as [q [Es Bq]].
  pose proof (rstrip_short u (w ++ q)
                (blank_append _ _ (blank_whitespace w Hw) Bq)) as L.
  rewrite <- append_assoc, <- E, <- Es, E in L.
  rewrite append_length in L.
  destruct (whitespace_nonempty w Hw) as [k Hk]. lia.
Qed.

Lemma strip_trimmed (s : string) : Spec.trimmed (strip s).
Proof.
  intros w Hw. split.
  - destruct (String.prefix w (strip s)) eqn:E; [|reflexivity].
    unfold strip in E. destruct (rstrip_split (lstrip s)) as [q [Es _]].
    apply (prefix_append _ _ q) in E. rewrite <- Es in E.
    pose proof (proj1 (space_width_zero _) (lstrip_trimmed s) w Hw) as C.
    congruence.
  - intro u. apply rstrip_no_blank_end. exact Hw.
Qed.

Lemma rstrip_twice (s : string) : rstrip (rstrip s) = rstrip s.
Proof.
  induction s as [| c s IH]; [reflexivity|].
  change (rstrip (String c s))
    with (if blank (String c s) then "" else String c (rstrip s)).
  destruct (blank (String c s)) eqn:Eb; [reflexivity|].
  change (rstrip (String c (rstrip s)))
    with (if blank (String c (rstrip s)) then ""
          else String c (rstrip (rstrip s))).
  rewrite IH.
  destruct (blank (String c (rstrip s))) eqn:Eb'; [|reflexivity].
  exfalso. destruct (rstrip_split s) as [q [Es Bq]].
  pose proof (blank_append _ _ Eb' Bq) as C. simpl append in C.
  rewrite <- Es in C. congruence.
Qed.

Lemma strip_twice (s : string) : strip (strip s) = strip s.
Proof.
  unfold strip at 1.
  rewrite lstrip_id.
  - unfold strip. apply rstrip_twice.
  - apply space_width_zero. intros w Hw. now apply (strip_trimmed s w).
Qed.

Lemma normalized_cell_trimmed (cell : option string) :
  Spec.trimmed (Spec.normalize_remote_cell cell).
Proof.
  destruct cell as [t|]; unfold Spec.normalize_remote_cell.
  - destruct (String.eqb t "[None]"); [|apply strip_trimmed].
    apply (strip_trimmed "Unspecified").
  - apply (strip_trimmed "Unspecified").
Qed.

Lemma REMOTE_set_REMOTE (v : option string) (r : Row) :
  REMOTE_TYPE_NAME (set_REMOTE_TYPE_NAME v r) = v.
Proof. reflexivity. Qed.

Lemma set_REMOTE_twice (v w : option string) (r : Row) :
  set_REMOTE_TYPE_NAME v (set_REMOTE_TYPE_NAME w r) = set_REMOTE_TYPE_NAME v r.
Proof. reflexivity. Qed.

Lemma setitem_remote_rows (g : option string -> option string)
  (df : DataFrame) :
  rows (setitem "REMOTE_TYPE_NAME" set_REMOTE_TYPE_NAME
          (map g (col REMOTE_TYPE_NAME df)) df)
  = map (fun r => set_REMOTE_TYPE_NAME (g (REMOTE_TYPE_NAME r)) r) (rows df).
Proof.
  unfold setitem, col. cbn [rows]. rewrite map_map.
  apply (assign_map set_REMOTE_TYPE_NAME (fun r => g (REMOTE_TYPE_NAME r))).
Qed.

(** Lines 56 to 58 on one cell, before pandas 3: replace, fill, convert,
    strip. *)
Lemma three_rewrites_of_a_cell (cell : option string) :
  option_map strip
    (match
        match
          match cell with
          | Some t =>
              if String.eqb t "[None]" then Some "Unspecified" else Some t
          | None => None
          end
        with
        | Some t => Some t
        | None => Some "Unspecified"
        end
      with
      | Some t => Some t
      | None => Some "nan"
      end)
  = Spec.remote_cell pandas_before_3 cell.
Proof.
  unfold Spec.remote_cell, Spec.normalize_remote_cell.
  destruct cell as [t|]; [|reflexivity].
  now destruct (String.eqb t "[None]").
Qed.

(** Lines 56 and 58 on one cell, from pandas 3 on: replace, convert,
    strip; the fill of line 57 has not reached the frame. *)
Lemma two_rewrites_of_a_cell (cell : option string) :
  option_map strip
    (match
        match cell with
        | Some t =>
            if String.eqb t "[None]" then Some "Unspecified" else Some t
        | None => None
        end
      with
      | Some t => Some t
      | None => None
      end)
  = Spec.remote_cell pandas_from_3 cell.
Proof.
  unfold Spec.remote_cell, Spec.normalize_remote_cell.
  destruct cell as [t|]; [|reflexivity].
  now destruct (String.eqb t "[None]").
Qed.

Lemma normalize_remote_type_rows (pd : PandasRelease) (df : DataFrame) :
  rows (normalize_remote_type pd df)
  = map (fun r => set_REMOTE_TYPE_NAME
                    (Spec.remote_cell pd (REMOTE_TYPE_NAME r)) r)
        (rows df).
Proof.
  unfold normalize_remote_type, fillna_inplace.
  unfold str_strip, astype_str. rewrite !map_map.
  destruct pd.
  - rewrite (setitem_remote_rows
               (fun c => option_map strip
                           match c with
                           | Some t => Some t
                           | None => Some "nan"
                           end)).
    unfold fillna at 1. rewrite setitem_remote_rows.
    unfold replace at 1. rewrite setitem_remote_rows.
    rewrite !map_map. apply map_ext. intro r.
    rewrite !REMOTE_set_REMOTE, !set_REMOTE_twice.
    f_equal. apply three_rewrites_of_a_cell.
  - rewrite (setitem_remote_rows
               (fun c => option_map strip
                           match c with
                           | Some t => Some t
                           | None => None
                           end)).
    unfold replace at 1. rewrite setitem_remote_rows.
    rewrite !map_map. apply map_ext. intro r.
    rewrite !REMOTE_set_REMOTE, !set_REMOTE_twice.
    f_equal. apply two_rewrites_of_a_cell.
Qed.

Lemma normalize_remote_type_col (pd : PandasRelease) (df : DataFrame) :
  col REMOTE_TYPE_NAME (normalize_remote_type pd df)
  = map (Spec.remote_cell pd) (col REMOTE_TYPE_NAME df).
Proof.
  unfold col. rewrite normalize_remote_type_rows, !map_map. reflexivity.
Qed.

(** C5.  Lines 56-58 cell by cell, for either pandas release.  A text
    cell becomes what the design document says: "Unspecified" for the
    text "[None]", the text stripped of its surrounding white space
    otherwise, so that "  Hybrid  " becomes "Hybrid"; no text is left
    with white space at either end, and nothing else in a row changes.
    A null cell becomes "Unspecified" before pandas 3.  From pandas 3
    on the fill of line 57 runs on a copy of the column and is lost: a
    null cell stays null, as the last conjunct shows on a frame of four
    postings. *)
Theorem remote_type_normalization (pd : PandasRelease) (df : DataFrame) :
  col REMOTE_TYPE_NAME (normalize_remote_type pd df)
  = map (Spec.remote_cell pd) (col REMOTE_TYPE_NAME df)
  /\ rows (normalize_remote_type pd df)
     = map (fun r => set_REMOTE_TYPE_NAME
                       (Spec.remote_cell pd (REMOTE_TYPE_NAME r)) r)
           (rows df)
  /\ (forall t, Spec.remote_cell pd (Some t)
                = Some (Spec.normalize_remote_cell (Some t)))
  /\ Spec.remote_cell pandas_before_3 None
     = Some (Spec.normalize_remote_cell None)
  /\ Spec.remote_cell pandas_from_3 None = None
  /\ Spec.normalize_remote_cell None = "Unspecified"
  /\ Spec.normalize_remote_cell (Some "[None]") = "Unspecified"
  /\ Spec.normalize_remote_cell (Some "  Hybrid  ") = "Hybrid"
  /\ (forall t, t <> "[None]" -> Spec.normalize_remote_cell (Some t) = strip t)
  /\ (forall cell, Spec.trimmed (Spec.normalize_remote_cell cell))
  /\ col REMOTE_TYPE_NAME
       (normalize_remote_type pandas_before_3 Scenario.remote_types)
     = [Some "Unspecified"; Some "Unspecified"; Some "Hybrid"; Some "Remote"]
  /\ col REMOTE_TYPE_NAME
       (normalize_remote_type pandas_from_3 Scenario.remote_types)
     = [None; Some "Unspecified"; Some "Hybrid"; Some "Remote"].
Proof.
  split; [apply normalize_remote_type_col|].
  split; [apply normalize_remote_type_rows|].
  split; [intro t; now destruct pd|].
  do 5 (split; [reflexivity|]).
  split.
  { intros t Ht. unfold Spec.normalize_remote_cell.
    apply String.eqb_neq in Ht. now rewrite Ht. }
  split; [apply normalized_cell_trimmed|].
  split; reflexivity.
Qed.

Lemma remote_type_normalization_witness :
  Spec.normalize_remote_cell (Some "  On site ") = "On site".
Proof.
  destruct (remote_type_normalization pandas_from_3 Scenario.remote_types)
    as (_ & _ & _ & _ & _ & _ & _ & _ & Hstrip & _).
  rewrite Hstrip; [reflexivity|discriminate].
Defined.

(* ===================================================================== *)
(** * The list-column clean-up *)

Lemma with_column_present (name : string) (cols : list string) :
  existsb (String.eqb name) cols = true -> with_column name cols = cols.
Proof.
  unfold with_column. now intros ->.
Qed.

Lemma mapM_raises {A B : Type} (f : A -> PyResult B) (l : list A) (x : A)
  (e : PyError) :
  In x l -> f x = Raise e -> raises (mapM f l) = true.
Proof.
  intros Hin Hx.
  induction l as [| y l IH]; [contradiction|].
  simpl. destruct Hin as [-> | Hin].
  - now rewrite Hx.
  - destruct (f y); [|reflexivity]. simpl.
    specialize (IH Hin). now destruct (mapM f l).
Qed.

Lemma clean_column_on_nulls (np : NumpyRelease)
  (literal_eval : string -> PyResult PyObj) (c : ListColumn)
  (df : DataFrame) :
  has_column (column_name c) df = true ->
  Forall (fun x => x = PyNaN) (col (get_list c) df) ->
  clean_column np literal_eval c df
  = Ok (mkFrame (columns df) (map (set_list c (PyList [])) (rows df))).
Proof.
  intros Hhas Hnull. unfold clean_column. rewrite Hhas.
  rewrite (mapM_pure (clean_cell np literal_eval) (fun _ => PyList [])).
  - cbn. unfold setitem, col. rewrite map_map.
    rewrite (with_column_present _ _ Hhas).
    now rewrite (assign_map (set_list c) (fun _ => PyList [])).
  - intros x Hx. rewrite Forall_forall in Hnull.
    now rewrite (Hnull x Hx).
Qed.

Lemma clean_column_on_decoded (np : NumpyRelease)
  (literal_eval : string -> PyResult PyObj) (c : ListColumn)
  (df : DataFrame) (a : string) (l : list string) :
  has_column (column_name c) df = true ->
  In (PyList (a :: l)) (col (get_list c) df) ->
  raises (clean_column np literal_eval c df) = true.
Proof.
  intros Hhas Hin. unfold clean_column. rewrite Hhas.
  assert (Hraise : raises (mapM (clean_cell np literal_eval)
                                (col (get_list c) df)) = true).
  { apply (mapM_raises _ _ _ ValueError Hin). now destruct l. }
  now destruct (mapM (clean_cell np literal_eval) (col (get_list c) df)).
Qed.

(* ===================================================================== *)

(** C6, as the script has it.  The clean-up of line 40 turns a null cell
    into the empty list and hands a text to [ast.literal_eval].  It is
    written to run once, on the cells as read: applied to a decoded cell
    that holds at least one element it raises [ValueError] (from
    [ast.literal_eval] for one element, from the truth value of the array
    for more), whatever the NumPy release; applied to an empty list it
    returns the empty list where the truth value of an empty array is
    [False] (NumPy before 2.2) and raises where that is an error.  So for
    a column: all cells null, the clean-up leaves the empty list in each;
    some cell already decoded and not empty, the clean-up of the column
    raises. *)
Theorem clean_cell_on_null_and_decoded_cells
  (np : NumpyRelease) (literal_eval : string -> PyResult PyObj) :
  clean_cell np literal_eval PyNaN = Ok (PyList [])
  /\ (forall s, clean_cell np literal_eval (PyStr s) = literal_eval s)
  /\ clean_cell numpy_before_2_2 literal_eval (PyList []) = Ok (PyList [])
  /\ clean_cell numpy_from_2_2 literal_eval (PyList []) = Raise ValueError
  /\ (forall a l,
        clean_cell np literal_eval (PyList (a :: l)) = Raise ValueError)
  /\ ((x <- clean_cell numpy_before_2_2 literal_eval PyNaN ;;
       clean_cell numpy_before_2_2 literal_eval x)%py
      = clean_cell numpy_before_2_2 literal_eval PyNaN)
  /\ (forall c df,
        has_column (column_name c) df = true ->
        Forall (fun x => x = PyNaN) (col (get_list c) df) ->
        clean_column np literal_eval c df
        = Ok (mkFrame (columns df) (map (set_list c (PyList [])) (rows df))))
  /\ (forall c df a l,
        has_column (column_name c) df = true ->
        In (PyList (a :: l)) (col (get_list c) df) ->
        raises (clean_column np literal_eval c df) = true).
Proof.
  split; [reflexivity|].
  split; [reflexivity|].
  split; [reflexivity|].
  split; [reflexivity|].
  split; [intros a [| b l]; reflexivity|].
  split; [reflexivity|].
  split; [apply clean_column_on_nulls|apply clean_column_on_decoded].
Qed.

Lemma clean_cell_on_null_and_decoded_cells_witness :
  clean_column numpy_before_2_2 Scenario.decodes_python SPECIALIZED_SKILLS
    Scenario.null_skills
  = Ok (mkFrame columns_needed [Scenario.as_read (PyList [])])
  /\ raises (clean_column numpy_before_2_2 Scenario.decodes_python
               SPECIALIZED_SKILLS Scenario.decoded_skills)
     = true.
Proof.
  destruct (clean_cell_on_null_and_decoded_cells
              numpy_before_2_2 Scenario.decodes_python)
    as (_ & _ & _ & _ & _ & _ & Hnull & Hdecoded).
  split.
  - apply (Hnull SPECIALIZED_SKILLS Scenario.null_skills eq_refl).
    repeat constructor.
  - apply (Hdecoded SPECIALIZED_SKILLS Scenario.decoded_skills "Python" []
             eq_refl).
    left. reflexivity.
Defined.

(** C6, as stated, fails: cleaning a decoded cell again is not a no-op.
    The text ['Python'] decodes to the list holding "Python", and
    cleaning that list raises, under either NumPy release. *)
Lemma cleaning_twice_raises :
  clean_cell numpy_before_2_2 Scenario.decodes_python (PyStr "['Python']")
  = Ok (PyList ["Python"])
  /\ clean_cell numpy_before_2_2 Scenario.decodes_python (PyList ["Python"])
     = Raise ValueError
  /\ clean_cell numpy_from_2_2 Scenario.decodes_python (PyList ["Python"])
     = Raise ValueError
  /\ clean_cell numpy_before_2_2 Scenario.decodes_python (PyList ["Python"])
     <> Ok (PyList ["Python"])
  /\ (x <- clean_cell numpy_before_2_2 Scenario.decodes_python
             (PyStr "['Python']") ;;
      clean_cell numpy_before_2_2 Scenario.decodes_python x)%py
     <> clean_cell numpy_before_2_2 Scenario.decodes_python
          (PyStr "['Python']").
Proof.
  repeat split; try reflexivity; discriminate.
Qed.

(** The loader on a two-row table: the missing cell becomes the empty
    list, the serialised one its decoded list, in all four columns. *)
Example load_msa_data_decodes :
  load_msa_data numpy_before_2_2 Scenario.decodes_python
    Scenario.raw_table "Springfield"
  = Ok (mkFrame columns_needed
          [ mkRow None None None None None (PyList []) None None None None
                  None None None None (PyList []) (PyList []) (PyList [])
                  (Some "Springfield") None;
            mkRow None None None None None (PyList []) None None None None
                  None None None None (PyList ["Python"]) (PyList [])
                  (PyList []) (Some "Springfield") None ]).
Proof. reflexivity. Qed.

(* ===================================================================== *)
(** * The salary slider bound *)
(* ===================================================================== *)

Lemma in_dropna_iff {A : Type} (a : A) (s : list (option A)) :
  In a (dropna s) <-> In (Some a) s.
Proof.
  induction s as [| [b|] s IH]; simpl.
  - reflexivity.
  - rewrite IH. split; intros [H | H]; auto; left; congruence.
  - rewrite IH. split; [auto|]. intros [H | H]; [discriminate|assumption].
Qed.

Lemma fold_max_spec (s : list Q) (q : Q) :
  let m := fold_left (fun m x => if Qle_bool x m then m else x) s q in
  (m = q \/ In m s) /\ (q <= m)%Q /\ (forall x, In x s -> (x <= m)%Q).
Proof.
  revert q. induction s as [| y s IH]; intro q; simpl.
  - split; [now left|]. split; [apply Qle_refl|tauto].
  - destruct (IH (if Qle_bool y q then q else y)) as (Hin & Hle & Hall).
    set (m := fold_left _ s _) in *.
    destruct (Qle_bool y q) eqn:E.
    + apply Qle_bool_iff in E.
      split; [destruct Hin; auto|]. split; [exact Hle|].
      intros x [<- | Hx]; [now apply Qle_trans with q|now apply Hall].
    + assert (Hqy : (q <= y)%Q).
      { apply Qnot_lt_le. intro Hlt. apply Qlt_le_weak in Hlt.
        apply Qle_bool_iff in Hlt. congruence. }
      split; [destruct Hin as [-> | Hin]; auto|].
      split; [now apply Qle_trans with y|].
      intros x [<- | Hx]; [exact Hle|now apply Hall].
Qed.

Lemma max_spec (s : list Q) :
  match max s with
  | None => s = []
  | Some m => In m s /\ forall x, In x s -> (x <= m)%Q
  end.
Proof.
  destruct s as [| q s]; simpl; [reflexivity|].
  destruct (fold_max_spec s q) as (Hin & Hle & Hall).
  split; [destruct Hin as [-> | Hin]; auto|].
  intros x [<- | Hx]; [exact Hle|now apply Hall].
Qed.

Lemma int_toward_zero (q : Q) : int (Some q) = Ok (Spec.toward_zero q).
Proof.
  unfold int, Spec.toward_zero, Qceiling, Qfloor. f_equal.
  destruct q as [n d]. cbn [Qnum Qden Qopp].
  destruct (Qle_bool 0 (n # d)) eqn:E.
  - apply Qle_bool_iff in E. unfold Qle in E. cbn in E.
    apply Z.quot_div_nonneg; lia.
  - assert (Hn : (n < 0)%Z).
    { destruct (Z.ltb_spec n 0) as [H | H]; [exact H|].
      assert (Hq : (0 <= n # d)%Q) by (unfold Qle; cbn; lia).
      apply Qle_bool_iff in Hq. congruence. }
    rewrite <- (Z.quot_div_nonneg (- n) (Zpos d)) by lia.
    rewrite Z.quot_opp_l by lia. lia.
Qed.

Lemma toward_zero_mono (q m : Q) :
  (q <= m)%Q -> (Spec.toward_zero q <= Spec.toward_zero m)%Z.
Proof.
  intro H. unfold Spec.toward_zero.
  destruct (Qle_bool 0 q) eqn:Eq, (Qle_bool 0 m) eqn:Em.
  - now apply Qfloor_resp_le.
  - exfalso. apply Qle_bool_iff in Eq.
    assert (C : (0 <= m)%Q) by (now apply Qle_trans with q).
    apply Qle_bool_iff in C. congruence.
  - apply Qle_bool_iff in Em.
    assert (Hq : (q <= 0)%Q).
    { apply Qnot_lt_le. intro C. apply Qlt_le_weak, Qle_bool_iff in C.
      congruence. }
    apply Z.le_trans with 0%Z.
    + change 0%Z with (Qceiling 0). now apply Qceiling_resp_le.
    + change 0%Z with (Qfloor 0). now apply Qfloor_resp_le.
  - now apply Qceiling_resp_le.
Qed.

Lemma slider_bound_of_the_maximum (df : DataFrame) (b : Z) :
  salary_range_max_value df = Ok b ->
  exists m, In (Some m) (col SALARY_TO df)
            /\ (forall q, In (Some q) (col SALARY_TO df) -> (q <= m)%Q)
            /\ b = Spec.toward_zero m.
Proof.
  unfold salary_range_max_value. intro H.
  pose proof (max_spec (dropna (col SALARY_TO df))) as Hmax.
  destruct (max (dropna (col SALARY_TO df))) as [m|]; [|discriminate].
  destruct Hmax as [Hin Hall]. exists m.
  split; [now apply in_dropna_iff|].
  split; [intros q Hq; apply Hall; now apply in_dropna_iff|].
  rewrite int_toward_zero in H. now injection H.
Qed.

(** C7, as the script has it.  The [max_value] argument line 62 hands
    to the salary slider is the largest salary_to that is present, cut
    to an integer by [int], that is rounded toward zero: rounded down
    when that maximum is not negative, rounded up when it is.  When no
    row has a salary_to the computation raises [ValueError] ([int] of
    NaN): the script stops there and no zero is put in its place.  A
    salary_to is a rational or NaN here; the second and third conjuncts
    speak of a largest salary_to that is a number and of a run in which
    line 62 returns, and say nothing of an infinite salary_to. *)
Theorem salary_slider_bound (df : DataFrame) :
  (dropna (col SALARY_TO df) = [] ->
   salary_range_max_value df = Raise ValueError)
  /\ (forall m,
        In (Some m) (col SALARY_TO df) ->
        (forall q, In (Some q) (col SALARY_TO df) -> (q <= m)%Q) ->
        salary_range_max_value df = Ok (Spec.toward_zero m))
  /\ (forall b,
        salary_range_max_value df = Ok b ->
        exists m,
          In (Some m) (col SALARY_TO df)
          /\ (forall q, In (Some q) (col SALARY_TO df) -> (q <= m)%Q)
          /\ b = Spec.toward_zero m)
  /\ (forall q, (0 <= q)%Q -> Spec.toward_zero q = Qfloor q)
  /\ (forall q, ~ (0 <= q)%Q -> Spec.toward_zero q = Qceiling q).
Proof.
  split.
  { unfold salary_range_max_value. now intros ->. }
  split.
  { intros m Hin Hall.
    destruct (salary_range_max_value df) as [b|e] eqn:Eb.
    - destruct (slider_bound_of_the_maximum df b Eb) as (m' & Hin' & Hall' & ->).
      f_equal. apply Z.le_antisymm; apply toward_zero_mono; auto.
    - exfalso. unfold salary_range_max_value in Eb.
      pose proof (max_spec (dropna (col SALARY_TO df))) as Hmax.
      destruct (max (dropna (col SALARY_TO df))) as [m'|].
      + rewrite int_toward_zero in Eb. discriminate.
      + apply in_dropna_iff in Hin. rewrite Hmax in Hin. contradiction. }
  split; [apply slider_bound_of_the_maximum|].
  split; intros q Hq; unfold Spec.toward_zero.
  - apply Qle_bool_iff in Hq. now rewrite Hq.
  - destruct (Qle_bool 0 q) eqn:E; [|reflexivity].
    apply Qle_bool_iff in E. contradiction.
Qed.

Lemma salary_slider_bound_witness :
  salary_range_max_value Scenario.no_salary_to = Raise ValueError
  /\ salary_range_max_value Scenario.three_rows
     = Ok (Spec.toward_zero (inject_Z 90000))
  /\ (exists m,
        In (Some m) (col SALARY_TO Scenario.three_rows)
        /\ (forall q, In (Some q) (col SALARY_TO Scenario.three_rows) ->
                      (q <= m)%Q)
        /\ 90000%Z = Spec.toward_zero m).
Proof.
  split; [|split].
  - apply (proj1 (salary_slider_bound Scenario.no_salary_to)). reflexivity.
  - apply (proj1 (proj2 (salary_slider_bound Scenario.three_rows))).
    + simpl. auto.
    + intros q [H | [H | [H | []]]]; injection H as <-; discriminate.
  - apply (proj1 (proj2 (proj2 (salary_slider_bound Scenario.three_rows)))).
    reflexivity.
Defined.

(** C7, as stated, fails on a negative maximum: the only salary_to being
    -1/2, the bound is 0, while -1/2 rounded down is -1. *)
Lemma negative_bound_is_rounded_up :
  dropna (col SALARY_TO Scenario.negative_half) = [(-1 # 2)%Q]
  /\ salary_range_max_value Scenario.negative_half = Ok 0%Z
  /\ Qfloor (-1 # 2) = (-1)%Z
  /\ salary_range_max_value Scenario.negative_half <> Ok (Qfloor (-1 # 2)).
Proof.
  repeat split; try reflexivity. discriminate.
Qed.

(* ===================================================================== *)
(** * Further properties: the order of texts *)
(* ===================================================================== *)

Import Script.

Lemma ascii_compare_lt_trans (a b c : ascii) :
  Ascii.compare a b = Lt -> Ascii.compare b c = Lt -> Ascii.compare a c = Lt.
Proof.
  unfold Ascii.compare. rewrite !N.compare_lt_iff. apply N.lt_trans.
Qed.

Lemma string_compare_lt_trans (s1 s2 s3 : string) :
  String.compare s1 s2 = Lt -> String.compare s2 s3 = Lt ->
  String.compare s1 s3 = Lt.
Proof.
  revert s2 s3.
  induction s1 as [| a s1 IH]; intros [| b s2] [| c s3]; simpl;
    try discriminate; try reflexivity.
  destruct (Ascii.compare a b) eqn:Eab; try discriminate;
    destruct (Ascii.compare b c) eqn:Ebc; try discriminate; intros H12 H23.
  - apply Ascii.compare_eq_iff in Eab, Ebc. subst b c.
    assert (E : Ascii.compare a a = Eq) by (unfold Ascii.compare; apply N.compare_refl).
    rewrite E. now apply (IH s2).
  - apply Ascii.compare_eq_iff in Eab. subst b. now rewrite Ebc.
  - apply Ascii.compare_eq_iff in Ebc. subst c. now rewrite Eab.
  - now rewrite (ascii_compare_lt_trans _ _ _ Eab Ebc).
Qed.

Lemma string_compare_refl (s : string) : String.compare s s = Eq.
Proof.
  induction s as [| a s IH]; simpl; [reflexivity|].
  assert (E : Ascii.compare a a = Eq) by (unfold Ascii.compare; apply N.compare_refl).
  now rewrite E.
Qed.

Lemma ltb_trans (s1 s2 s3 : string) :
  String.ltb s1 s2 = true -> String.ltb s2 s3 = true ->
  String.ltb s1 s3 = true.
Proof.
  unfold String.ltb.
  destruct (String.compare s1 s2) eqn:E12; try discriminate.
  destruct (String.compare s2 s3) eqn:E23; try discriminate.
  now rewrite (string_compare_lt_trans _ _ _ E12 E23).
Qed.

Lemma ltb_irrefl (s : string) : String.ltb s s = false.
Proof. unfold String.ltb. now rewrite string_compare_refl. Qed.

Lemma ltb_neq (s1 s2 : string) : String.ltb s1 s2 = true -> s1 <> s2.
Proof. intros H ->. rewrite ltb_irrefl in H. discriminate. Qed.

Lemma not_leb_ltb (s1 s2 : string) :
  String.leb s1 s2 = false -> String.ltb s2 s1 = true.
Proof.
  unfold String.leb, String.ltb. rewrite (String.compare_antisym s2 s1).
  now destruct (String.compare s1 s2).
Qed.

Lemma leb_neq_ltb (s1 s2 : string) :
  String.leb s1 s2 = true -> s1 <> s2 -> String.ltb s1 s2 = true.
Proof.
  unfold String.leb, String.ltb.
  destruct (String.compare s1 s2) eqn:E; try discriminate; try reflexivity.
  intros _ Hne. apply String.compare_eq_iff in E. contradiction.
Qed.

Lemma ltb_asym (s1 s2 : string) :
  String.ltb s1 s2 = true -> String.ltb s2 s1 = false.
Proof.
  unfold String.ltb. rewrite (String.compare_antisym s2 s1).
  now destruct (String.compare s1 s2).
Qed.

Lemma not_ltb_eqb (s1 s2 : string) :
  String.ltb s1 s2 = false -> String.eqb s1 s2 = false ->
  String.ltb s2 s1 = true.
Proof.
  unfold String.ltb. rewrite (String.compare_antisym s2 s1).
  destruct (String.compare s1 s2) eqn:E; try discriminate; try reflexivity.
  apply String.compare_eq_iff in E. subst. rewrite String.eqb_refl.
  discriminate.
Qed.

(** ** Ascending lists *)

Section Ascending.

Context {K : Type}.
Variable ltb : K -> K -> bool.
Hypothesis ltb_transitive :
  forall a b c, ltb a b = true -> ltb b c = true -> ltb a c = true.
Hypothesis ltb_irreflexive : forall a, ltb a a = false.

Lemma ascending_NoDup (l : list K) : Props.ascending ltb l -> NoDup l.
Proof using ltb_irreflexive.
  induction 1 as [| k l Hk _ IH]; constructor; [|exact IH].
  intro Hin. rewrite Forall_forall in Hk. specialize (Hk k Hin).
  rewrite ltb_irreflexive in Hk. discriminate.
Qed.

Lemma ascending_unique (l1 l2 : list K) :
  Props.ascending ltb l1 -> Props.ascending ltb l2 ->
  (forall x, In x l1 <-> In x l2) -> l1 = l2.
Proof using ltb_transitive ltb_irreflexive.
  intro H1. revert l2.
  induction H1 as [| a l1 Ha H1 IH]; intros l2 H2 Hsame.
  - destruct l2 as [| b l2]; [reflexivity|].
    exfalso. apply (Hsame b). now left.
  - destruct H2 as [| b l2 Hb H2].
    { exfalso. apply (Hsame a). now left. }
    rewrite Forall_forall in Ha, Hb.
    assert (Eab : a = b).
    { destruct (proj1 (Hsame a) (or_introl eq_refl)) as [E | Hin];
        [now symmetry|].
      destruct (proj2 (Hsame b) (or_introl eq_refl)) as [E | Hin'];
        [exact E|].
      exfalso. pose proof (ltb_transitive _ _ _ (Ha b Hin') (Hb a Hin)) as C.
      rewrite ltb_irreflexive in C. discriminate. }
    subst b. f_equal. apply IH; [exact H2|].
    intro x. split; intro Hx.
    + destruct (proj1 (Hsame x) (or_intror Hx)) as [E | Hin]; [|exact Hin].
      subst x. exfalso. specialize (Ha a Hx).
      rewrite ltb_irreflexive in Ha. discriminate.
    + destruct (proj2 (Hsame x) (or_intror Hx)) as [E | Hin]; [|exact Hin].
      subst x. exfalso. specialize (Hb a Hx).
      rewrite ltb_irreflexive in Hb. discriminate.
Qed.

End Ascending.

Lemma in_insort (x y : string) (l : list string) :
  In y (insort x l) <-> y = x \/ In y l.
Proof.
  induction l as [| z l IH]; simpl; [intuition|].
  destruct (String.leb x z); simpl; [intuition|].
  rewrite IH. intuition.
Qed.

Lemma in_sort_strings (y : string) (l : list string) :
  In y (sort_strings l) <-> In y l.
Proof.
  induction l as [| x l IH]; simpl; [reflexivity|].
  rewrite in_insort, IH. intuition.
Qed.

Lemma insort_ascending (x : string) (l : list string) :
  Props.ascending String.ltb l -> ~ In x l ->
  Props.ascending String.ltb (insort x l).
Proof.
  induction 1 as [| z l Hz Hl IH]; intro Hx; simpl.
  - repeat constructor.
  - assert (Hxz : x <> z) by (intro E; apply Hx; now left).
    destruct (String.leb x z) eqn:E.
    + pose proof (leb_neq_ltb _ _ E Hxz) as Hlt.
      constructor; [|now constructor].
      constructor; [exact Hlt|].
      rewrite Forall_forall in Hz |- *. intros k Hk.
      apply (ltb_trans _ z); [exact Hlt|now apply Hz].
    + constructor; [|apply IH; intro H; apply Hx; now right].
      rewrite Forall_forall in Hz |- *. intros k Hk.
      apply in_insort in Hk. destruct Hk as [-> | Hk]; [|now apply Hz].
      now apply not_leb_ltb.
Qed.

Lemma sort_strings_ascending (l : list string) :
  NoDup l -> Props.ascending String.ltb (sort_strings l).
Proof.
  induction 1 as [| x l Hx _ IH]; simpl; [constructor|].
  apply insort_ascending; [exact IH|].
  now rewrite in_sort_strings.
Qed.

(** ** Distinct elements *)

Section Unique.

Context {A : Type}.
Variable eqb : A -> A -> bool.
Hypothesis eqb_eq : forall a b, eqb a b = true <-> a = b.

Lemma in_unique (x : A) (xs : list A) : In x (unique eqb xs) <-> In x xs.
Proof using eqb_eq.
  induction xs as [| y xs IH]; simpl; [reflexivity|].
  rewrite filter_In, IH, negb_true_iff. split.
  - intros [E | [H _]]; auto.
  - intros [E | H]; [now left|].
    destruct (eqb y x) eqn:Eyx; [left; now apply eqb_eq|right; now split].
Qed.

Lemma NoDup_filter (p : A -> bool) (l : list A) :
  NoDup l -> NoDup (filter p l).
Proof using Type.
  induction 1 as [| x l Hx _ IH]; simpl; [constructor|].
  destruct (p x); [|exact IH].
  constructor; [|exact IH]. rewrite filter_In. intros [H _]. contradiction.
Qed.

Lemma NoDup_unique (xs : list A) : NoDup (unique eqb xs).
Proof using eqb_eq.
  induction xs as [| y xs IH]; simpl; constructor.
  - rewrite filter_In, negb_true_iff. intros [_ H].
    assert (E : eqb y y = true) by now apply eqb_eq.
    congruence.
  - now apply NoDup_filter.
Qed.

End Unique.

Lemma option_eqb_eq (a b : option string) : option_eqb a b = true <-> a = b.
Proof.
  destruct a as [x|], b as [y|]; simpl; try (split; congruence).
  rewrite String.eqb_eq. split; congruence.
Qed.

Lemma NoDup_dropna {A : Type} (s : list (option A)) :
  NoDup s -> NoDup (dropna s).
Proof.
  induction 1 as [| [a|] s Hx _ IH]; simpl; [constructor| |exact IH].
  constructor; [|exact IH]. now rewrite in_dropna_iff.
Qed.

Lemma existsb_is_None {A : Type} (s : list (option A)) :
  existsb is_None s = true <-> In None s.
Proof.
  rewrite existsb_exists. split.
  - intros [[a|] [Hin H]]; [discriminate|exact Hin].
  - intro H. now exists None.
Qed.

Lemma no_None_dropna {A : Type} (s : list (option A)) :
  ~ In None s -> map Some (dropna s) = s.
Proof.
  induction s as [| [a|] s IH]; simpl; intro H; [reflexivity| |].
  - f_equal. apply IH. intro Hin. apply H. now right.
  - exfalso. apply H. now left.
Qed.

(** [sorted] depends only on which names the list holds. *)
Lemma sorted_same_elements (u u' : list (option string)) :
  NoDup u -> NoDup u' -> (forall x, In x u <-> In x u') ->
  sorted u = sorted u'.
Proof.
  intros Hu Hu' Hsame.
  pose proof (NoDup_Permutation Hu Hu' Hsame) as Hperm.
  pose proof (Permutation_length Hperm) as Hlen.
  destruct u as [| a [| b u]], u' as [| a' [| b' u']]; try discriminate.
  - reflexivity.
  - destruct (proj1 (Hsame a) (or_introl eq_refl)) as [<- | []]. reflexivity.
  - unfold sorted.
    assert (E : existsb is_None (a :: b :: u)
                = existsb is_None (a' :: b' :: u')).
    { apply eq_true_iff_eq. rewrite !existsb_is_None. apply Hsame. }
    rewrite E. destruct (existsb is_None (a' :: b' :: u')); [reflexivity|].
    do 2 f_equal.
    apply (ascending_unique String.ltb ltb_trans ltb_irrefl).
    + apply sort_strings_ascending. now apply NoDup_dropna.
    + apply sort_strings_ascending. now apply NoDup_dropna.
    + intro x. rewrite !in_sort_strings, !in_dropna_iff. apply Hsame.
Qed.

(* ===================================================================== *)
(** * Further properties: the list of MSAs *)
(* ===================================================================== *)

Lemma NoDup_map_Some {A : Type} (l : list A) :
  NoDup l -> NoDup (map Some l).
Proof.
  induction 1 as [| x l Hx _ IH]; simpl; constructor; [|exact IH].
  rewrite in_map_iff. intros [y [E Hy]]. injection E as ->. contradiction.
Qed.

Lemma in_map_Some_dropna {A : Type} (x : option A) (s : list (option A)) :
  ~ In None s -> (In x (map Some (dropna s)) <-> In x s).
Proof.
  intro H. now rewrite (no_None_dropna s H).
Qed.

Lemma sorted_Ok (u l : list (option string)) :
  NoDup u -> sorted u = Ok l ->
  (forall x, In x l <-> In x u)
  /\ NoDup l
  /\ Props.ascending String.ltb (dropna l)
  /\ (In None l -> l = [None]).
Proof.
  intros Hu. destruct u as [| a [| b u]]; simpl.
  - intro E. injection E as <-.
    split; [intro; reflexivity|]. split; [constructor|].
    split; [constructor|]. intros [].
  - intro E. injection E as <-.
    split; [intro; reflexivity|]. split; [exact Hu|]. split.
    + destruct a; simpl; repeat constructor.
    + intros [-> | []]. reflexivity.
  - destruct (is_None a || (is_None b || existsb is_None u)) eqn:E;
      [discriminate|].
    intro El. injection El as <-.
    assert (Hnone : ~ In None (a :: b :: u)).
    { intro H. apply existsb_is_None in H. simpl in H. congruence. }
    assert (Hasc : Props.ascending String.ltb
                     (sort_strings (dropna (a :: b :: u)))).
    { apply sort_strings_ascending. now apply NoDup_dropna. }
    split.
    { intro x. rewrite <- (in_map_Some_dropna x _ Hnone).
      rewrite !in_map_iff. split; intros [y [Ey Hy]]; exists y;
        (split; [exact Ey|]); now apply in_sort_strings. }
    split.
    { apply NoDup_map_Some.
      apply (ascending_NoDup String.ltb ltb_irrefl). exact Hasc. }
    split.
    { rewrite (dropna_map_Some (fun t : string => t)), map_id. exact Hasc. }
    intro H. exfalso. apply in_map_iff in H.
    destruct H as [y [Ey _]]. discriminate.
Qed.

Lemma list_msas_Ok (table : list Row) (l : list (option string)) :
  list_msas_from_parquet table = Ok l ->
  (forall x, In x l <-> In x (map MSA_NAME table))
  /\ NoDup l
  /\ Props.ascending String.ltb (dropna l)
  /\ (In None l -> l = [None]).
Proof.
  unfold list_msas_from_parquet. intro H.
  destruct (sorted_Ok _ _ (NoDup_unique option_eqb option_eqb_eq _) H)
    as (Hin & Hnd & Hasc & Hnone).
  split; [|now repeat split].
  intro x. rewrite Hin. apply (in_unique option_eqb option_eqb_eq).
Qed.

(** X1.  When the list of MSAs is produced it holds exactly the names
    found in the table, each once, and the names come in strictly
    ascending order; a missing name is listed only when it is the only
    entry. *)
Theorem available_msas_are_the_names_in_order
  (table : list Row) (l : list (option string)) :
  list_msas_from_parquet table = Ok l ->
  (forall x, In x l <-> In x (map MSA_NAME table))
  /\ NoDup l
  /\ Props.ascending String.ltb (dropna l)
  /\ (In None l -> l = [None]).
Proof.
  unfold list_msas_from_parquet. intro H.
  pose proof (NoDup_unique option_eqb option_eqb_eq (map MSA_NAME table))
    as Hdistinct.
  destruct (sorted_Ok _ _ Hdistinct H) as (Hin & Hnd & Hasc & Hnone).
  split; [|split; [exact Hnd|split; [exact Hasc|exact Hnone]]].
  intro x. rewrite Hin.
  apply (in_unique option_eqb option_eqb_eq).
Qed.

Lemma available_msas_are_the_names_in_order_witness :
  (forall x, In x [Some "Shelbyville"; Some "Springfield"]
             <-> In x (map MSA_NAME Cases.two_cities))
  /\ NoDup [Some "Shelbyville"; Some "Springfield"]
  /\ Props.ascending String.ltb
       (dropna [Some "Shelbyville"; Some "Springfield"])
  /\ (In None [Some "Shelbyville"; Some "Springfield"] ->
      [Some "Shelbyville"; Some "Springfield"] = [None]).
Proof.
  exact (available_msas_are_the_names_in_order Cases.two_cities
           [Some "Shelbyville"; Some "Springfield"] eq_refl).
Defined.

(** X2.  Listing the MSAs raises exactly when the table holds a posting
    without an MSA name beside a posting with one, and the exception is
    then [TypeError]. *)
Theorem available_msas_raise_on_a_missing_name
  (table : list Row) (e : PyError) :
  list_msas_from_parquet table = Raise e
  <-> e = TypeError
      /\ In None (map MSA_NAME table)
      /\ exists m, In (Some m) (map MSA_NAME table).
Proof.
  unfold list_msas_from_parquet.
  pose proof (NoDup_unique option_eqb option_eqb_eq (map MSA_NAME table))
    as Hnd.
  pose proof (fun x => in_unique option_eqb option_eqb_eq x
                         (map MSA_NAME table)) as Hin.
  destruct (unique option_eqb (map MSA_NAME table)) as [| a [| b u]] eqn:Eu.
  - split; [discriminate|]. intros (_ & H & _). now apply Hin in H.
  - split; [discriminate|]. intros (_ & H & m & Hm).
    apply Hin in H, Hm. destruct H as [-> | []], Hm as [[=] | []].
  - unfold sorted.
    destruct (existsb is_None (a :: b :: u)) eqn:E.
    + apply existsb_is_None in E. split; [|now intros (-> & _)].
      intro H. injection H as <-. split; [reflexivity|].
      split; [now apply Hin|].
      destruct a as [m|].
      * exists m. apply Hin. now left.
      * destruct b as [m|].
        -- exists m. apply Hin. right. now left.
        -- exfalso. inversion Hnd as [| ? ? Hn _]. apply Hn. now left.
    + split; [discriminate|]. intros (_ & H & _).
      apply Hin, existsb_is_None in H. congruence.
Qed.

(** X3.  The list of MSAs depends only on which names occur in the
    table: two tables with the same names, in whatever order and however
    often, give the same list (or the same exception). *)
Theorem available_msas_depend_on_the_names_only (table table' : list Row) :
  (forall x, In x (map MSA_NAME table) <-> In x (map MSA_NAME table')) ->
  list_msas_from_parquet table = list_msas_from_parquet table'.
Proof.
  intro Hsame. unfold list_msas_from_parquet.
  apply sorted_same_elements;
    try apply (NoDup_unique option_eqb option_eqb_eq).
  intro x. rewrite !(in_unique option_eqb option_eqb_eq). apply Hsame.
Qed.

Lemma available_msas_depend_on_the_names_only_witness :
  list_msas_from_parquet Cases.two_cities
  = list_msas_from_parquet Cases.two_cities_shuffled.
Proof.
  apply available_msas_depend_on_the_names_only.
  intro x. simpl. tauto.
Defined.

Lemma read_table_rows (table : list Row) (msa : string) :
  rows (read_table table msa) = filter (Props.of_msa msa) table.
Proof. reflexivity. Qed.

(** X4.  An MSA is offered exactly when the table has a posting of it:
    for a list of MSAs that was produced, a name is in the list if and
    only if the read restricted to it returns at least one row; and the
    restricted read returns rows of that MSA only, under the eighteen
    columns asked for. *)
Theorem offered_msas_have_postings
  (table : list Row) (l : list (option string)) (msa : string) :
  list_msas_from_parquet table = Ok l ->
  (In (Some msa) l <-> rows (read_table table msa) <> [])
  /\ Forall (fun r => MSA_NAME r = Some msa) (rows (read_table table msa))
  /\ columns (read_table table msa) = columns_needed.
Proof.
  intro H.
  destruct (list_msas_Ok table l H) as (Hin & _).
  split; [|split; [|reflexivity]].
  - rewrite Hin, in_map_iff, read_table_rows. split.
    + intros [r [Er Hr]] E.
      assert (Hf : In r (filter (Props.of_msa msa) table)).
      { apply filter_In. split; [exact Hr|].
        unfold Props.of_msa. rewrite Er. apply String.eqb_refl. }
      rewrite E in Hf. contradiction.
    + intro Hne. destruct (filter (Props.of_msa msa) table) as [| r rs] eqn:E;
        [contradiction|].
      assert (Hf : In r (filter (Props.of_msa msa) table))
        by (rewrite E; now left).
      apply filter_In in Hf. destruct Hf as [Hr Hm]. exists r.
      split; [|exact Hr]. unfold Props.of_msa in Hm.
      destruct (MSA_NAME r) as [m|]; [|discriminate].
      apply String.eqb_eq in Hm. now subst.
  - apply Forall_forall. intros r Hr. rewrite read_table_rows in Hr.
    apply filter_In in Hr. destruct Hr as [_ Hm]. unfold Props.of_msa in Hm.
    destruct (MSA_NAME r) as [m|]; [|discriminate].
    apply String.eqb_eq in Hm. now subst.
Qed.

Lemma offered_msas_have_postings_witness :
  (In (Some "Shelbyville") [Some "Shelbyville"; Some "Springfield"]
   <-> rows (read_table Cases.two_cities "Shelbyville") <> [])
  /\ Forall (fun r => MSA_NAME r = Some "Shelbyville")
            (rows (read_table Cases.two_cities "Shelbyville"))
  /\ columns (read_table Cases.two_cities "Shelbyville") = columns_needed.
Proof.
  exact (offered_msas_have_postings Cases.two_cities
           [Some "Shelbyville"; Some "Springfield"] "Shelbyville" eq_refl).
Defined.

Lemma available_msas_raise_on_a_missing_name_witness :
  list_msas_from_parquet Cases.city_and_nowhere = Raise TypeError.
Proof.
  apply (proj2 (available_msas_raise_on_a_missing_name
                  Cases.city_and_nowhere TypeError)).
  split; [reflexivity|]. split; [right; now left|].
  exists "Springfield". now left.
Defined.

(* ===================================================================== *)
(** * Further properties: the widget options and the filter block *)
(* ===================================================================== *)

Lemma existsb_eqb_In (t : string) (l : list string) :
  existsb (String.eqb t) l = true <-> In t l.
Proof.
  rewrite existsb_exists. split.
  - intros [x [Hx E]]. apply String.eqb_eq in E. now subst.
  - intro H. exists t. split; [exact H|apply String.eqb_refl].
Qed.

Lemma in_job_type_options (df : DataFrame) (t : string) :
  In t (job_type_options df) <-> In (Some t) (col EMPLOYMENT_TYPE_NAME df).
Proof.
  unfold job_type_options.
  rewrite (in_unique String.eqb String.eqb_eq). apply in_dropna_iff.
Qed.

(** X5.  The employment-type widget offers every employment type found in
    the frame, each once, and never the missing value.  Choosing all the
    offered types is not the same as choosing none: as soon as one
    posting states a type, choosing them all keeps exactly the postings
    that state one and drops those that do not; when no posting states a
    type there is nothing to choose and every posting stays. *)
Theorem choosing_every_employment_type (df : DataFrame) :
  NoDup (job_type_options df)
  /\ (forall t, In t (job_type_options df)
                <-> In (Some t) (col EMPLOYMENT_TYPE_NAME df))
  /\ filter_job_type (job_type_options df) df
     = (if existsb Props.has_employment_type (rows df)
        then mkFrame (columns df)
               (filter Props.has_employment_type (rows df))
        else df).
Proof.
  split; [apply (NoDup_unique String.eqb String.eqb_eq)|].
  split; [apply in_job_type_options|].
  destruct (existsb Props.has_employment_type (rows df)) eqn:E.
  - rewrite filter_job_type_rows. f_equal.
    apply existsb_exists in E. destruct E as [r0 [Hr0 Ht0]].
    assert (Hne : job_type_options df <> []).
    { unfold Props.has_employment_type in Ht0.
      destruct (EMPLOYMENT_TYPE_NAME r0) as [t0|] eqn:E0; [|discriminate].
      assert (H : In t0 (job_type_options df)).
      { apply in_job_type_options. unfold col.
        rewrite <- E0. now apply in_map. }
      intro Hnil. rewrite Hnil in H. contradiction. }
    apply filter_ext_in. intros r Hr.
    unfold Spec.in_category_set, Props.has_employment_type.
    destruct (job_type_options df) as [| o os] eqn:Eo; [contradiction|].
    rewrite <- Eo. destruct (EMPLOYMENT_TYPE_NAME r) as [t|] eqn:Et;
      [|reflexivity].
    simpl. apply existsb_eqb_In, in_job_type_options.
    unfold col. rewrite <- Et. now apply in_map.
  - assert (Hnil : job_type_options df = []).
    { destruct (job_type_options df) as [| o os] eqn:Eo; [reflexivity|].
      exfalso.
      assert (H : In o (job_type_options df)) by (rewrite Eo; now left).
      apply in_job_type_options in H. unfold col in H.
      apply in_map_iff in H. destruct H as [r [Er Hr]].
      assert (C : existsb Props.has_employment_type (rows df) = true).
      { apply existsb_exists. exists r. split; [exact Hr|].
        unfold Props.has_employment_type. now rewrite Er. }
      congruence. }
    now rewrite Hnil.
Qed.




(** X7.  Applying the filter block twice is applying it once with both
    sets of criteria: the rows kept are those that satisfy both, so the
    order of two applications does not matter and repeating one changes
    nothing; the column index is never touched. *)
Theorem filter_blocks_compose (df : DataFrame) (a b : Sidebar) :
  filtered_df (filtered_df df a) b
  = mkFrame (columns df)
      (filter (fun r => Spec.satisfies a r && Spec.satisfies b r) (rows df))
  /\ filtered_df (filtered_df df a) b = filtered_df (filtered_df df b) a
  /\ filtered_df (filtered_df df a) a = filtered_df df a
  /\ columns (filtered_df df a) = columns df.
Proof.
  assert (H : forall x y,
             filtered_df (filtered_df df x) y
             = mkFrame (columns df)
                 (filter (fun r => Spec.satisfies x r && Spec.satisfies y r)
                         (rows df))).
  { intros x y. rewrite (filtered_df_rows (filtered_df df x)).
    rewrite (filtered_df_rows df x). cbn [rows columns].
    now rewrite filter_twice. }
  split; [apply H|].
  split.
  { rewrite !H. f_equal. apply filter_ext. intro r. apply andb_comm. }
  split.
  { rewrite H, filtered_df_rows. f_equal. apply filter_ext. intro r.
    apply andb_diag. }
  now rewrite filtered_df_rows.
Qed.

Lemma narrower_satisfies (a b : Sidebar) (r : Row) :
  Props.narrower a b -> Spec.satisfies a r = true -> Spec.satisfies b r = true.
Proof.
  intros (Hj & Hr & Hmin & Hmax & Hlo & Hhi).
  rewrite !satisfies_iff. unfold Spec.keeps. rewrite Hj, Hr.
  intros (H1 & H2 & [q1 [E1 L1]] & [q2 [E2 L2]] & [q3 [E3 L3]] & [q4 [E4 L4]]).
  split; [exact H1|]. split; [exact H2|].
  split; [exists q1; split; [exact E1|]|].
  { apply Qle_trans with (inject_Z (min_exp a)); [|exact L1].
    now rewrite <- Zle_Qle. }
  split; [exists q2; split; [exact E2|]|].
  { apply Qle_trans with (inject_Z (max_exp a)); [exact L2|].
    now rewrite <- Zle_Qle. }
  split; [exists q3; split; [exact E3|]|].
  { apply Qle_trans with (inject_Z (fst (salary_range a))); [|exact L3].
    now rewrite <- Zle_Qle. }
  exists q4. split; [exact E4|].
  apply Qle_trans with (inject_Z (snd (salary_range a))); [exact L4|].
  now rewrite <- Zle_Qle.
Qed.

(** X8.  Widening the sliders only adds rows.  When one sidebar has the
    same category choices as another and ranges inside the other's, every
    row it keeps is kept by the other, and narrowing the wider result
    gives the narrower result. *)
Theorem widening_the_sliders_only_adds_rows (df : DataFrame) (a b : Sidebar) :
  Props.narrower a b ->
  incl (rows (filtered_df df a)) (rows (filtered_df df b))
  /\ filtered_df (filtered_df df b) a = filtered_df df a.
Proof.
  intro Hn. split.
  - intros r. rewrite !filtered_df_rows. cbn [rows]. rewrite !filter_In.
    intros [Hin Ha]. split; [exact Hin|].
    now apply (narrower_satisfies a b).
  - rewrite (filtered_df_rows (filtered_df df b)).
    rewrite !filtered_df_rows. cbn [rows columns].
    rewrite filter_twice. f_equal. apply filter_ext. intro r.
    destruct (Spec.satisfies a r) eqn:Ha; [|apply andb_false_r].
    now rewrite (narrower_satisfies a b r Hn Ha).
Qed.

Lemma widening_the_sliders_only_adds_rows_witness :
  incl (rows (filtered_df Scenario.three_rows Cases.sidebar_narrowed))
       (rows (filtered_df Scenario.three_rows Cases.sidebar_defaults))
  /\ filtered_df (filtered_df Scenario.three_rows Cases.sidebar_defaults)
                 Cases.sidebar_narrowed
     = filtered_df Scenario.three_rows Cases.sidebar_narrowed.
Proof.
  apply widening_the_sliders_only_adds_rows.
  unfold Props.narrower. simpl. repeat split; lia.
Defined.

(* ===================================================================== *)
(** * Further properties: the salary slider and the averages *)
(* ===================================================================== *)

From Stdlib Require Import Lqa.

(** X9.  When the salary slider gets a bound, the bound is the largest
    of the salary_to values once each is cut to an integer: it is the
    integer part of a salary_to of the frame, and the integer part of no
    salary_to of the frame exceeds it. *)
Theorem slider_bound_is_the_largest_integer_part (df : DataFrame) (b : Z) :
  salary_range_max_value df = Ok b ->
  (exists m, In (Some m) (col SALARY_TO df) /\ b = Spec.toward_zero m)
  /\ (forall q, In (Some q) (col SALARY_TO df) ->
                (Spec.toward_zero q <= b)%Z).
Proof.
  intro H.
  destruct (slider_bound_of_the_maximum df b H) as (m & Hin & Hall & ->).
  split; [now exists m|].
  intros q Hq. apply toward_zero_mono. now apply Hall.
Qed.

Lemma slider_bound_is_the_largest_integer_part_witness :
  (exists m, In (Some m) (col SALARY_TO Cases.half_dollar)
             /\ 90000%Z = Spec.toward_zero m)
  /\ (forall q, In (Some q) (col SALARY_TO Cases.half_dollar) ->
                (Spec.toward_zero q <= 90000)%Z).
Proof.
  exact (slider_bound_is_the_largest_integer_part Cases.half_dollar 90000
           eq_refl).
Defined.

(** X10.  A best-paid posting whose salary_to is positive and not a whole
    number is out of the slider's reach: the bound handed to the slider
    is then below that salary_to, and with the upper handle anywhere up
    to the bound the filter drops every posting with that salary_to. *)
Theorem fractional_maximum_is_out_of_reach (df : DataFrame) (m : Q) :
  In (Some m) (col SALARY_TO df) ->
  (forall q, In (Some q) (col SALARY_TO df) -> (q <= m)%Q) ->
  (0 <= m)%Q ->
  ~ (m == inject_Z (Qfloor m))%Q ->
  exists b,
    salary_range_max_value df = Ok b
    /\ (inject_Z b < m)%Q
    /\ forall sb r,
         (snd (salary_range sb) <= b)%Z ->
         SALARY_TO r = Some m ->
         ~ In r (rows (filtered_df df sb)).
Proof.
  intros Hin Hall Hpos Hfrac.
  destruct (salary_range_max_value df) as [b|e] eqn:Eb.
  - exists b. split; [reflexivity|].
    destruct (slider_bound_of_the_maximum df b Eb) as (m' & Hin' & Hall' & ->).
    assert (Em : (m' == m)%Q).
    { apply Qle_antisym; [now apply Hall|now apply Hall']. }
    assert (Eb' : Spec.toward_zero m' = Qfloor m).
    { unfold Spec.toward_zero.
      assert (P : (0 <= m')%Q) by (now rewrite Em).
      apply Qle_bool_iff in P. rewrite P. now rewrite Em. }
    rewrite Eb'.
    assert (Hlt : (inject_Z (Qfloor m) < m)%Q).
    { destruct (Qle_lteq (inject_Z (Qfloor m)) m) as [H _].
      destruct (H (Qfloor_le m)) as [L | E]; [exact L|].
      exfalso. apply Hfrac. now symmetry. }
    split; [exact Hlt|].
    intros sb r Hhi Hr Hkept.
    rewrite filtered_df_rows in Hkept. cbn [rows] in Hkept.
    apply filter_In in Hkept. destruct Hkept as [_ Hs].
    apply satisfies_iff in Hs.
    destruct Hs as (_ & _ & _ & _ & _ & [q [Eq Lq]]).
    rewrite Hr in Eq. injection Eq as <-.
    apply (Qlt_irrefl m).
    apply Qle_lt_trans with (inject_Z (Qfloor m)); [|exact Hlt].
    apply Qle_trans with (inject_Z (snd (salary_range sb))); [exact Lq|].
    now rewrite <- Zle_Qle.
  - exfalso. unfold salary_range_max_value in Eb.
    pose proof (max_spec (dropna (col SALARY_TO df))) as Hmax.
    destruct (max (dropna (col SALARY_TO df))) as [m'|].
    + rewrite int_toward_zero in Eb. discriminate.
    + apply in_dropna_iff in Hin. rewrite Hmax in Hin. contradiction.
Qed.

Lemma fractional_maximum_is_out_of_reach_witness :
  exists b,
    salary_range_max_value Cases.half_dollar = Ok b
    /\ (inject_Z b < 180001 # 2)%Q
    /\ forall sb r,
         (snd (salary_range sb) <= b)%Z ->
         SALARY_TO r = Some (180001 # 2)%Q ->
         ~ In r (rows (filtered_df Cases.half_dollar sb)).
Proof.
  apply (fractional_maximum_is_out_of_reach Cases.half_dollar (180001 # 2)).
  - right. now left.
  - intros q [E | [E | []]]; injection E as <-; unfold Qle; simpl; lia.
  - unfold Qle; simpl; lia.
  - unfold Qeq; simpl; lia.
Defined.

Lemma midpoint_between (lo hi : Q) :
  (lo <= hi)%Q ->
  (lo <= Spec.midpoint lo hi)%Q /\ (Spec.midpoint lo hi <= hi)%Q.
Proof.
  intro H. unfold Spec.midpoint. rewrite Qred_correct.
  split.
  - setoid_replace lo with ((lo + lo) / 2)%Q at 1 by field.
    apply Qmult_le_compat_r; [lra|].
    unfold Qle. simpl. lia.
  - setoid_replace hi with ((hi + hi) / 2)%Q at 2 by field.
    apply Qmult_le_compat_r; [lra|].
    unfold Qle. simpl. lia.
Qed.

(** X11.  The averages drawn in the histogram stay inside the window of
    the salary slider for every posting whose lower bound does not exceed
    its upper bound: such a row of the filtered frame gets an average
    between its own two bounds, hence between the two handles. *)
Theorem averages_stay_inside_the_salary_window (df : DataFrame) (sb : Sidebar) :
  Forall (fun r =>
            forall lo hi,
              SALARY_FROM r = Some lo -> SALARY_TO r = Some hi ->
              (lo <= hi)%Q ->
              exists avg,
                Average_Salary r = Some avg
                /\ (lo <= avg)%Q /\ (avg <= hi)%Q
                /\ (inject_Z (fst (salary_range sb)) <= avg)%Q
                /\ (avg <= inject_Z (snd (salary_range sb)))%Q)
         (rows (add_Average_Salary (filtered_df df sb))).
Proof.
  apply Forall_forall. intros r' Hr' lo hi Hlo Hhi Hle.
  rewrite add_Average_Salary_rows in Hr'. apply in_map_iff in Hr'.
  destruct Hr' as [r [<- Hr]]. cbn in Hlo, Hhi |- *.
  rewrite filtered_df_rows in Hr. cbn [rows] in Hr.
  apply filter_In in Hr. destruct Hr as [_ Hs]. apply satisfies_iff in Hs.
  destruct Hs as (_ & _ & _ & _ & [q3 [E3 L3]] & [q4 [E4 L4]]).
  rewrite Hlo in E3. injection E3 as <-.
  rewrite Hhi in E4. injection E4 as <-.
  exists (Spec.midpoint lo hi).
  rewrite row_average_cases, Hlo, Hhi.
  destruct (midpoint_between lo hi Hle) as [M1 M2].
  split; [reflexivity|]. split; [exact M1|]. split; [exact M2|].
  split.
  - now apply Qle_trans with lo.
  - now apply Qle_trans with hi.
Qed.

(* ===================================================================== *)
(** * Further properties: the summary tables *)
(* ===================================================================== *)

Section TableFacts.

Context {K : Type}.
Variable eqb : K -> K -> bool.
Hypothesis eqb_eq : forall a b, eqb a b = true <-> a = b.

Lemma eqb_same (k : K) : eqb k k = true.
Proof using eqb_eq. now apply eqb_eq. Qed.

Lemma count_for_cons (k : K) (e : K * nat) (t : list (K * nat)) :
  Props.count_for eqb k (e :: t)
  = (if eqb k (fst e) then snd e else 0) + Props.count_for eqb k t.
Proof using Type.
  unfold Props.count_for. simpl. now destruct (eqb k (fst e)).
Qed.

Lemma count_for_tally (k k' : K) (t : list (K * nat)) :
  Props.count_for eqb k (tally eqb k' t)
  = Props.count_for eqb k t + (if eqb k k' then 1 else 0).
Proof using eqb_eq.
  induction t as [| [k'' n] t IH].
  - simpl. rewrite count_for_cons. cbn. unfold Props.count_for. simpl.
    destruct (eqb k k'); lia.
  - simpl. destruct (eqb k' k'') eqn:E.
    + apply eqb_eq in E. subst k''. rewrite !count_for_cons. cbn.
      destruct (eqb k k'); lia.
    + rewrite !count_for_cons, IH. cbn. lia.
Qed.

Lemma count_for_tally_all (k : K) (ks : list K) :
  Props.count_for eqb k (tally_all eqb ks) = List.length (filter (eqb k) ks).
Proof using eqb_eq.
  unfold tally_all.
  assert (G : forall t,
             Props.count_for eqb k (fold_left (fun t k => tally eqb k t) ks t)
             = Props.count_for eqb k t + List.length (filter (eqb k) ks)).
  { induction ks as [| k' ks IH]; intro t; simpl; [lia|].
    rewrite IH, count_for_tally. destruct (eqb k k'); simpl; lia. }
  rewrite G. reflexivity.
Qed.

Lemma count_for_insert_desc (k : K) (e : K * nat) (t : list (K * nat)) :
  Props.count_for eqb k (insert_desc e t) = Props.count_for eqb k (e :: t).
Proof using Type.
  induction t as [| e' t IH]; simpl; [reflexivity|].
  destruct (snd e' <? snd e); [reflexivity|].
  rewrite !count_for_cons in *. rewrite IH. lia.
Qed.

Lemma count_for_sort_desc (k : K) (t : list (K * nat)) :
  Props.count_for eqb k (sort_desc t) = Props.count_for eqb k t.
Proof using Type.
  induction t as [| e t IH]; simpl; [reflexivity|].
  now rewrite count_for_insert_desc, !count_for_cons, IH.
Qed.

Lemma keys_tally_NoDup (k : K) (t : list (K * nat)) :
  NoDup (map fst t) -> NoDup (map fst (tally eqb k t)).
Proof using eqb_eq.
  induction t as [| [k' n] t IH]; simpl; intro H.
  - repeat constructor. intros [].
  - inversion H as [| ? ? Hk' Ht]; subst.
    destruct (eqb k k') eqn:E; simpl; [now constructor|].
    constructor; [|now apply IH].
    intro Hin. apply in_map_iff in Hin. destruct Hin as [e [Ee He]].
    destruct (keys_tally eqb _ _ _ He) as [Ek | Hin'].
    + rewrite Ee in Ek. rewrite Ek, eqb_same in E. discriminate.
    + rewrite Ee in Hin'. contradiction.
Qed.

Lemma keys_tally_all_NoDup (ks : list K) : NoDup (map fst (tally_all eqb ks)).
Proof using eqb_eq.
  unfold tally_all.
  assert (G : forall t, NoDup (map fst t) ->
                        NoDup (map fst (fold_left (fun t k => tally eqb k t) ks t))).
  { induction ks as [| k ks IH]; intros t Ht; simpl; [exact Ht|].
    apply IH. now apply keys_tally_NoDup. }
  apply G. constructor.
Qed.

Lemma insert_desc_perm (e : K * nat) (t : list (K * nat)) :
  Permutation (insert_desc e t) (e :: t).
Proof using Type.
  induction t as [| e' t IH]; simpl; [reflexivity|].
  destruct (snd e' <? snd e); [reflexivity|].
  rewrite IH. apply perm_swap.
Qed.

Lemma sort_desc_perm (t : list (K * nat)) : Permutation (sort_desc t) t.
Proof using Type.
  induction t as [| e t IH]; simpl; [reflexivity|].
  rewrite insert_desc_perm. now constructor.
Qed.

Lemma keys_sort_desc_NoDup (t : list (K * nat)) :
  NoDup (map fst t) -> NoDup (map fst (sort_desc t)).
Proof using Type.
  apply Permutation_NoDup. apply Permutation_map. symmetry.
  apply sort_desc_perm.
Qed.

Lemma positive_tally (k : K) (t : list (K * nat)) :
  Forall (fun e => 0 < snd e) t -> Forall (fun e => 0 < snd e) (tally eqb k t).
Proof using Type.
  induction 1 as [| [k' n] t Hn Ht IH]; simpl.
  - repeat constructor.
  - destruct (eqb k k'); constructor; simpl in *; try lia; assumption.
Qed.

Lemma positive_tally_all (ks : list K) :
  Forall (fun e => 0 < snd e) (tally_all eqb ks).
Proof using Type.
  unfold tally_all.
  assert (G : forall t, Forall (fun e => 0 < snd e) t ->
                        Forall (fun e => 0 < snd e)
                               (fold_left (fun t k => tally eqb k t) ks t)).
  { induction ks as [| k ks IH]; intros t Ht; simpl; [exact Ht|].
    apply IH. now apply positive_tally. }
  apply G. constructor.
Qed.

Lemma count_for_listed (k : K) (n : nat) (t : list (K * nat)) :
  NoDup (map fst t) -> In (k, n) t -> Props.count_for eqb k t = n.
Proof using eqb_eq.
  induction t as [| [k' n'] t IH]; simpl; intros Hnd Hin; [contradiction|].
  inversion Hnd as [| ? ? Hk' Ht]; subst. rewrite count_for_cons. cbn.
  destruct Hin as [E | Hin].
  - injection E as -> ->. rewrite eqb_same.
    assert (Z : Props.count_for eqb k t = 0).
    { clear IH Hnd Ht. induction t as [| [k2 n2] t IHt]; [reflexivity|].
      rewrite count_for_cons. cbn.
      destruct (eqb k k2) eqn:E.
      - apply eqb_eq in E. subst. exfalso. apply Hk'. now left.
      - apply IHt. intro H. apply Hk'. now right. }
    lia.
  - destruct (eqb k k') eqn:E.
    + apply eqb_eq in E. subst. exfalso. apply Hk'.
      apply in_map_iff. now exists (k', n).
    + now apply IH.
Qed.

Lemma listed_of_count_for (k : K) (t : list (K * nat)) :
  0 < Props.count_for eqb k t -> exists n, In (k, n) t.
Proof using eqb_eq.
  induction t as [| [k' n'] t IH]; [unfold Props.count_for; simpl; lia|].
  rewrite count_for_cons. cbn. destruct (eqb k k') eqn:E.
  - apply eqb_eq in E. subst. intros _. exists n'. now left.
  - intro H. destruct (IH H) as [n Hn]. exists n. now right.
Qed.

(** ** Counts that never go up *)

Lemma non_increasing_insert_desc (e : K * nat) (t : list (K * nat)) :
  Props.non_increasing t -> Props.non_increasing (insert_desc e t).
Proof using Type.
  induction 1 as [| e' t He' Ht IH]; simpl.
  - repeat constructor.
  - destruct (snd e' <? snd e) eqn:E.
    + apply Nat.ltb_lt in E. constructor; [|now constructor].
      constructor; [lia|].
      eapply Forall_impl; [|exact He']. simpl. intros a Ha. lia.
    + apply Nat.ltb_ge in E. constructor; [|exact IH].
      rewrite Forall_forall in He' |- *. intros a Ha.
      apply (Permutation_in _ (insert_desc_perm e t)) in Ha.
      destruct Ha as [<- | Ha]; [exact E|now apply He'].
Qed.

Lemma non_increasing_sort_desc (t : list (K * nat)) :
  Props.non_increasing (sort_desc t).
Proof using Type.
  induction t as [| e t IH]; simpl; [constructor|].
  now apply non_increasing_insert_desc.
Qed.

Lemma non_increasing_firstn (n : nat) (t : list (K * nat)) :
  Props.non_increasing t -> Props.non_increasing (firstn n t).
Proof using Type.
  intro H. revert n.
  induction H as [| e t He Ht IH]; intros [| n]; simpl; try constructor.
  - rewrite Forall_forall in He |- *. intros a Ha. apply He.
    now apply (in_firstn n).
  - apply IH.
Qed.

Lemma non_increasing_split (n : nat) (t : list (K * nat)) (a b : K * nat) :
  Props.non_increasing t -> In a (firstn n t) -> In b (skipn n t) ->
  snd b <= snd a.
Proof using Type.
  intro H. revert n.
  induction H as [| e t He Ht IH]; intros [| n]; simpl; try contradiction.
  intros [<- | Ha] Hb.
  - rewrite Forall_forall in He. apply He.
    rewrite <- (firstn_skipn n t). apply in_or_app. now right.
  - now apply (IH n).
Qed.

Lemma NoDup_firstn {A : Type} (n : nat) (l : list A) :
  NoDup l -> NoDup (firstn n l).
Proof using Type.
  intro H. revert n.
  induction H as [| x l Hx Hl IH]; intros [| n]; simpl; try constructor.
  - intro Hin. apply Hx. now apply (in_firstn n).
  - apply IH.
Qed.

End TableFacts.

Lemma occurrences_as_count (k : string) (s : list (option string)) :
  Props.count_for String.eqb k (tally_all String.eqb (dropna s))
  = Props.occurrences k s.
Proof.
  apply (count_for_tally_all String.eqb String.eqb_eq).
Qed.

(** The table [firstn n] of the sorted counts of a series. *)
Lemma firstn_sorted_counts_top_table (n : nat) (s : list (option string))
  (full : list (string * nat)) :
  Permutation full (tally_all String.eqb (dropna s)) ->
  Props.non_increasing full ->
  Props.top_table n s (firstn n full).
Proof.
  intros Hperm Hsorted.
  assert (Hnd : NoDup (map fst full)).
  { apply (Permutation_NoDup
             (l := map fst (tally_all String.eqb (dropna s)))).
    - apply Permutation_map. now symmetry.
    - apply (keys_tally_all_NoDup String.eqb String.eqb_eq). }
  assert (Hcount : forall k, Props.count_for String.eqb k full
                             = Props.occurrences k s).
  { intro k. rewrite <- occurrences_as_count. unfold Props.count_for.
    assert (P : Permutation
                  (map snd (filter (fun e => String.eqb k (fst e)) full))
                  (map snd (filter (fun e => String.eqb k (fst e))
                                   (tally_all String.eqb (dropna s))))).
    { apply Permutation_map. clear Hsorted Hnd.
      induction Hperm; simpl.
      - reflexivity.
      - destruct (String.eqb k (fst x)); [now constructor|assumption].
      - destruct (String.eqb k (fst x)), (String.eqb k (fst y));
          try reflexivity. apply perm_swap.
      - now transitivity (filter (fun e => String.eqb k (fst e)) l'). }
    clear - P. induction P; simpl; lia. }
  assert (Hpos : Forall (fun e => 0 < snd e) full).
  { rewrite Forall_forall. intros e He.
    apply (Permutation_in _ Hperm) in He.
    pose proof (positive_tally_all String.eqb (dropna s)) as P.
    rewrite Forall_forall in P. now apply P. }
  unfold Props.top_table.
  split; [rewrite length_firstn; apply Nat.le_min_l|].
  split.
  { rewrite <- firstn_map. now apply NoDup_firstn. }
  split; [now apply non_increasing_firstn|].
  split.
  { rewrite Forall_forall. intros [k c] He. apply in_firstn in He. simpl.
    split.
    - rewrite <- Hcount. symmetry.
      now apply (count_for_listed String.eqb String.eqb_eq).
    - rewrite Forall_forall in Hpos. now apply (Hpos (k, c)). }
  intros k Hk. rewrite <- Hcount in Hk.
  destruct (listed_of_count_for String.eqb String.eqb_eq k full Hk)
    as [c Hc].
  pose proof (count_for_listed String.eqb String.eqb_eq k c full Hnd Hc)
    as Ec.
  rewrite <- (firstn_skipn n full) in Hc. apply in_app_or in Hc.
  destruct Hc as [Hc | Hc].
  - left. apply in_map_iff. now exists (k, c).
  - right. split.
    + rewrite length_firstn. apply Nat.min_l.
      destruct (Nat.le_gt_cases n (List.length full)) as [L | G];
        [exact L|].
      rewrite skipn_all2 in Hc by lia. contradiction.
    + rewrite Forall_forall. intros a Ha.
      rewrite <- Hcount, Ec.
      exact (non_increasing_split n full a (k, c) Hsorted Ha Hc).
Qed.

Lemma top10_top_table (s : list (option string)) :
  Props.top_table 10 s (top10 s).
Proof.
  unfold top10, reset_index, nlargest, value_counts.
  apply firstn_sorted_counts_top_table.
  - rewrite !sort_desc_perm. reflexivity.
  - apply non_increasing_sort_desc.
Qed.

Lemma top_table_same_texts (n : nat) (s s' : list (option string))
  (t : list (string * nat)) :
  dropna s = dropna s' -> Props.top_table n s t -> Props.top_table n s' t.
Proof.
  intro E. unfold Props.top_table, Props.occurrences. now rewrite E.
Qed.

Lemma col_after_sentinel (f : Row -> option string) (sentinel : string)
  (fdf : DataFrame) :
  col f (loc fdf (ne (col f fdf) sentinel))
  = map f (filter (fun r => Spec.not_the_sentinel sentinel (f r)) (rows fdf)).
Proof.
  unfold col, ne. rewrite map_map.
  now rewrite (loc_map (fun r => Spec.not_the_sentinel sentinel (f r))).
Qed.

Lemma occurrences_after_sentinel (f : Row -> option string)
  (sentinel : string) (fdf : DataFrame) (k : string) :
  Props.occurrences k (col f (loc fdf (ne (col f fdf) sentinel)))
  = if String.eqb k sentinel then 0 else Props.occurrences k (col f fdf).
Proof.
  rewrite col_after_sentinel. unfold Props.occurrences, col.
  induction (rows fdf) as [| r rs IH]; simpl; [now destruct (k =? sentinel)%string|].
  unfold Spec.not_the_sentinel at 1.
  destruct (f r) as [t|] eqn:Et; simpl.
  - destruct (String.eqb t sentinel) eqn:Ets; simpl.
    + apply String.eqb_eq in Ets. subst t. rewrite IH.
      destruct (String.eqb k sentinel); simpl; reflexivity.
    + rewrite Et. simpl. destruct (String.eqb k t) eqn:Ekt; simpl.
      * apply String.eqb_eq in Ekt. subst t. rewrite Ets in *.
        now rewrite IH.
      * exact IH.
  - rewrite Et. simpl. exact IH.
Qed.

(** X12.  The industry, occupation and company charts each show a true
    top ten of the filtered frame: at most ten lines, no value twice,
    counts that never go up from one line to the next, each count being
    the number of postings with that value; a value is left out only when
    ten lines are shown and none of them has a smaller count.  Dropping
    the sentinel changes no other value's count. *)
Theorem top_charts_count_postings (filtered_df : DataFrame) :
  Props.top_table 10 (col NAICS2_NAME (industry_filtered filtered_df))
                  (industry_counts filtered_df)
  /\ Props.top_table 10 (col SOC_2021_5_NAME (soc_filtered filtered_df))
                     (soc_counts filtered_df)
  /\ Props.top_table 10
       (col COMPANY_NAME
            (loc filtered_df (ne (col COMPANY_NAME filtered_df) "Unclassified")))
       (top_companies filtered_df)
  /\ (forall k,
        Props.occurrences k (col NAICS2_NAME (industry_filtered filtered_df))
        = if String.eqb k "Unclassified Industry" then 0
          else Props.occurrences k (col NAICS2_NAME filtered_df))
  /\ (forall k,
        Props.occurrences k (col SOC_2021_5_NAME (soc_filtered filtered_df))
        = if String.eqb k "Unclassified Occupation" then 0
          else Props.occurrences k (col SOC_2021_5_NAME filtered_df))
  /\ (forall k,
        Props.occurrences k
          (col COMPANY_NAME
               (loc filtered_df
                    (ne (col COMPANY_NAME filtered_df) "Unclassified")))
        = if String.eqb k "Unclassified" then 0
          else Props.occurrences k (col COMPANY_NAME filtered_df)).
Proof.
  split; [apply top10_top_table|].
  split; [apply top10_top_table|].
  split; [apply top10_top_table|].
  split; [intro k; apply occurrences_after_sentinel|].
  split; intro k; apply occurrences_after_sentinel.
Qed.

Lemma value_counts_complete (s : list (option string)) (k : string) (n : nat) :
  In (k, n) (value_counts String.eqb s)
  <-> n = Props.occurrences k s /\ 0 < n.
Proof.
  pose proof (firstn_sorted_counts_top_table
                (S (List.length (value_counts String.eqb s))) s
                (value_counts String.eqb s)) as H.
  rewrite firstn_all2 in H by lia.
  destruct H as (_ & Hnd & _ & Hcount & Hall).
  { unfold value_counts. apply sort_desc_perm. }
  { apply non_increasing_sort_desc. }
  split.
  - intro Hin. rewrite Forall_forall in Hcount.
    exact (Hcount (k, n) Hin).
  - intros [-> Hpos]. destruct (Hall k Hpos) as [Hk | [C _]]; [|lia].
    apply in_map_iff in Hk. destruct Hk as [[k' c] [Ek He]].
    simpl in Ek. subst k'. rewrite Forall_forall in Hcount.
    destruct (Hcount (k, c) He) as [Ec _]. simpl in Ec. now subst c.
Qed.

(** X13.  The education chart is the whole distribution: every education
    level found in the filtered frame has a line, the line carries the
    number of postings with that level, no level has two lines, nothing is
    cut off and nothing left out, and the counts add up to the number of
    postings that state a level. *)
Theorem education_chart_is_the_whole_distribution (filtered_df : DataFrame) :
  (forall k n,
     In (k, n) (edu_counts filtered_df)
     <-> n = Props.occurrences k (col MIN_EDULEVELS_NAME filtered_df)
         /\ 0 < n)
  /\ NoDup (map fst (edu_counts filtered_df))
  /\ Props.non_increasing (edu_counts filtered_df)
  /\ Spec.total_count (edu_counts filtered_df)
     = List.length (dropna (col MIN_EDULEVELS_NAME filtered_df)).
Proof.
  unfold edu_counts, reset_index.
  split; [intros k n; apply value_counts_complete|].
  split.
  { unfold value_counts. apply keys_sort_desc_NoDup.
    apply (keys_tally_all_NoDup String.eqb String.eqb_eq). }
  split; [apply non_increasing_sort_desc|].
  apply total_count_value_counts.
Qed.

Lemma exploded_texts (c : ListColumn) (rs : list Row) :
  dropna (map Spec.scalar_key
              (flat_map (fun r => explode_cell (get_list c r)) rs))
  = Props.skill_texts c rs.
Proof.
  unfold Props.skill_texts.
  induction rs as [| r rs IH]; simpl; [reflexivity|].
  now rewrite map_app, dropna_app, IH, explode_cell_items.
Qed.

(** X14.  The skill chart never fails and shows a true top ten of the
    specialised skills: the texts counted are the elements of the skill
    lists of the filtered postings, a posting with an empty list adding
    nothing, and each line carries the number of times its skill occurs
    in those lists. *)
Theorem skill_chart_counts_list_elements (filtered_df : DataFrame) :
  exists t,
    top_skills filtered_df = Ok t
    /\ Props.top_table 10
         (map Some (Props.skill_texts SPECIALIZED_SKILLS (rows filtered_df)))
         t.
Proof.
  unfold top_skills, exploded_skills. rewrite skill_counts_exploded.
  eexists. split; [reflexivity|].
  unfold reset_index, nlargest.
  apply (top_table_same_texts 10
           (map Spec.scalar_key
                (flat_map (fun r => explode_cell (get_list SPECIALIZED_SKILLS r))
                          (rows filtered_df)))).
  { rewrite exploded_texts.
    now rewrite (dropna_map_Some (fun t : string => t)), map_id. }
  apply firstn_sorted_counts_top_table.
  - unfold value_counts. rewrite !sort_desc_perm. reflexivity.
  - apply non_increasing_sort_desc.
Qed.

(** ** Tables kept sorted by key *)

Section SortedTableFacts.

Context {K : Type}.
Variable eqb : K -> K -> bool.
Variable ltb : K -> K -> bool.
Hypothesis eqb_eq : forall a b, eqb a b = true <-> a = b.
Hypothesis ltb_transitive :
  forall a b c, ltb a b = true -> ltb b c = true -> ltb a c = true.
Hypothesis ltb_or_gtb :
  forall a b, eqb a b = false -> ltb a b = false -> ltb b a = true.

Lemma count_for_tally_sorted (k k' : K) (t : list (K * nat)) :
  Props.count_for eqb k (tally_sorted eqb ltb k' t)
  = Props.count_for eqb k t + (if eqb k k' then 1 else 0).
Proof using eqb_eq.
  induction t as [| [k'' n] t IH].
  - simpl. rewrite count_for_cons. cbn. unfold Props.count_for. simpl.
    destruct (eqb k k'); lia.
  - simpl. destruct (eqb k' k'') eqn:E.
    + apply eqb_eq in E. subst k''. rewrite !count_for_cons. cbn.
      destruct (eqb k k'); lia.
    + destruct (ltb k' k'').
      * rewrite !count_for_cons. cbn. destruct (eqb k k'); lia.
      * rewrite !count_for_cons, IH. cbn. lia.
Qed.

Lemma keys_tally_sorted (k : K) (t : list (K * nat)) (x : K) :
  In x (map fst (tally_sorted eqb ltb k t)) -> x = k \/ In x (map fst t).
Proof using Type.
  induction t as [| [k' n] t IH]; simpl.
  - intros [<- | []]. now left.
  - destruct (eqb k k'); simpl; [tauto|].
    destruct (ltb k k'); simpl; [intuition|].
    intros [<- | H]; [right; now left|].
    destruct (IH H); auto.
Qed.

Lemma ascending_tally_sorted (k : K) (t : list (K * nat)) :
  Props.ascending ltb (map fst t) ->
  Props.ascending ltb (map fst (tally_sorted eqb ltb k t)).
Proof using eqb_eq ltb_transitive ltb_or_gtb.
  induction t as [| [k' n] t IH]; simpl; intro H.
  - repeat constructor.
  - inversion H as [| ? ? Hk' Ht]; subst.
    destruct (eqb k k') eqn:E; simpl; [now constructor|].
    destruct (ltb k k') eqn:L; simpl.
    + constructor; [|now constructor].
      constructor; [exact L|].
      rewrite Forall_forall in Hk' |- *. intros x Hx.
      apply (ltb_transitive _ k'); [exact L|now apply Hk'].
    + constructor; [|now apply IH].
      rewrite Forall_forall in Hk' |- *. intros x Hx.
      destruct (keys_tally_sorted _ _ _ Hx) as [-> | Hx'];
        [now apply ltb_or_gtb|now apply Hk'].
Qed.

Lemma positive_tally_sorted (k : K) (t : list (K * nat)) :
  Forall (fun e => 0 < snd e) t ->
  Forall (fun e => 0 < snd e) (tally_sorted eqb ltb k t).
Proof using Type.
  induction 1 as [| [k' n] t Hn Ht IH]; simpl.
  - repeat constructor.
  - destruct (eqb k k'); [constructor; simpl in *; [lia|assumption]|].
    destruct (ltb k k'); repeat constructor; simpl in *;
      try lia; assumption.
Qed.

Lemma groupby_size_table (s : list (option K)) :
  Props.ascending ltb (map fst (groupby_size eqb ltb s))
  /\ Forall (fun e => 0 < snd e) (groupby_size eqb ltb s)
  /\ forall k, Props.count_for eqb k (groupby_size eqb ltb s)
               = List.length (filter (eqb k) (dropna s)).
Proof using eqb_eq ltb_transitive ltb_or_gtb.
  unfold groupby_size.
  assert (G : forall ks t,
             Props.ascending ltb (map fst t) ->
             Forall (fun e => 0 < snd e) t ->
             let t' := fold_left (fun t k => tally_sorted eqb ltb k t) ks t in
             Props.ascending ltb (map fst t')
             /\ Forall (fun e => 0 < snd e) t'
             /\ forall k, Props.count_for eqb k t'
                          = Props.count_for eqb k t
                            + List.length (filter (eqb k) ks)).
  { induction ks as [| k' ks IH]; intros t Ha Hp; simpl.
    - repeat split; try assumption. intro k. lia.
    - destruct (IH (tally_sorted eqb ltb k' t)) as (A & P & C).
      + now apply ascending_tally_sorted.
      + now apply positive_tally_sorted.
      + repeat split; try assumption. intro k.
        rewrite C, count_for_tally_sorted.
        destruct (eqb k k'); simpl; lia. }
  destruct (G (dropna s) []) as (A & P & C); [constructor|constructor|].
  repeat split; try assumption.
Qed.

End SortedTableFacts.

Lemma pair_eqb_eq (a b : string * string) : pair_eqb a b = true <-> a = b.
Proof.
  destruct a as [a1 a2], b as [b1 b2]. unfold pair_eqb. simpl.
  rewrite andb_true_iff, !String.eqb_eq. split.
  - intros [-> ->]. reflexivity.
  - intro E. now injection E.
Qed.

Lemma pair_ltb_trans (a b c : string * string) :
  pair_ltb a b = true -> pair_ltb b c = true -> pair_ltb a c = true.
Proof.
  destruct a as [a1 a2], b as [b1 b2], c as [c1 c2]. unfold pair_ltb. simpl.
  rewrite !orb_true_iff, !andb_true_iff, !String.eqb_eq.
  intros [H1 | [-> H1]] [H2 | [-> H2]].
  - left. now apply (ltb_trans _ b1).
  - now left.
  - now left.
  - right. split; [reflexivity|]. now apply (ltb_trans _ b2).
Qed.

Lemma pair_ltb_irrefl (a : string * string) : pair_ltb a a = false.
Proof.
  destruct a as [a1 a2]. unfold pair_ltb. simpl.
  now rewrite !ltb_irrefl, andb_false_r.
Qed.

Lemma pair_ltb_or_gtb (a b : string * string) :
  pair_eqb a b = false -> pair_ltb a b = false -> pair_ltb b a = true.
Proof.
  destruct a as [a1 a2], b as [b1 b2]. unfold pair_eqb, pair_ltb. simpl.
  rewrite (String.eqb_sym b1 a1).
  destruct (String.eqb a1 b1) eqn:E1; simpl.
  - apply String.eqb_eq in E1. subst b1. rewrite ltb_irrefl. simpl.
    intros E2 L2. now apply not_ltb_eqb.
  - intros _. rewrite orb_false_r. intro L1. rewrite orb_false_r.
    now apply not_ltb_eqb.
Qed.

Lemma exploded_pairs_of_a_cell (c : ListColumn) (r : Row) (i : string) :
  NAICS2_NAME r = Some i ->
  dropna (map (fun v => Spec.row_group_key c (set_list c v r))
              (explode_cell (get_list c r)))
  = map (fun s => (i, s)) (Spec.items (get_list c r)).
Proof.
  intro Ei.
  assert (E : forall v, Spec.row_group_key c (set_list c v r)
                        = match Spec.scalar_key v with
                          | Some s => Some (i, s)
                          | None => None
                          end).
  { intro v. unfold Spec.row_group_key.
    now rewrite NAICS2_set_list, Ei, get_set_list. }
  rewrite (map_ext _ _ E).
  destruct (get_list c r) as [| s | [| a l]]; simpl; try reflexivity.
  f_equal. induction l as [| b l IH]; simpl; [reflexivity|].
  now rewrite IH.
Qed.

Lemma group_keys_pairs (c : ListColumn) (rs : list Row) :
  dropna
    (map (Spec.row_group_key c)
         (flat_map (fun r => map (fun v => set_list c v r)
                                 (explode_cell (get_list c r)))
            (filter (fun r => Spec.not_the_sentinel "Unclassified Industry"
                                (NAICS2_NAME r))
                    rs)))
  = Props.industry_skill_pairs c rs.
Proof.
  unfold Props.industry_skill_pairs.
  induction rs as [| r rs IH]; simpl; [reflexivity|].
  unfold Spec.classified at 1, Spec.not_the_sentinel at 1.
  destruct (NAICS2_NAME r) as [i|] eqn:Ei.
  - destruct (negb (i =? "Unclassified Industry")%string); [|exact IH].
    simpl. rewrite map_app, dropna_app, IH, map_map, Ei. f_equal.
    now apply exploded_pairs_of_a_cell.
  - simpl. rewrite map_app, dropna_app, IH, map_map.
    rewrite (dropna_all_None
               (fun v => Spec.row_group_key c (set_list c v r)));
      [reflexivity|].
    intros v _. unfold Spec.row_group_key.
    now rewrite NAICS2_set_list, Ei.
Qed.

Lemma industry_of_a_pair (c : ListColumn) (rs : list Row)
  (p : string * string) :
  In p (Props.industry_skill_pairs c rs) -> fst p <> "Unclassified Industry".
Proof.
  unfold Props.industry_skill_pairs. intro H.
  apply in_flat_map in H. destruct H as [r [Hr Hp]].
  apply filter_In in Hr. destruct Hr as [_ Hc]. unfold Spec.classified in Hc.
  destruct (NAICS2_NAME r) as [i|]; [|discriminate].
  apply in_map_iff in Hp. destruct Hp as [s [<- _]]. simpl.
  now apply String.eqb_neq, negb_true_iff.
Qed.

(** X15.  The tree-map table never fails.  It has one line per pair of a
    classified industry and a skill that occurs together in a posting of
    the filtered frame, the lines sorted by industry and then by skill, no
    pair twice; each line carries the number of times the skill occurs in
    the lists of the postings of that industry.  The sentinel industry
    and postings without an industry give no line. *)
Theorem tree_map_counts_industry_skill_pairs
  (c : ListColumn) (filtered_df : DataFrame) :
  exists data,
    skill_data c filtered_df = Ok data
    /\ Props.ascending pair_ltb (map fst data)
    /\ (forall p n,
          In (p, n) data
          <-> n = List.length
                    (filter (pair_eqb p)
                            (Props.industry_skill_pairs c (rows filtered_df)))
              /\ 0 < n)
    /\ Forall (fun e => fst (fst e) <> "Unclassified Industry") data.
Proof.
  rewrite skill_data_exploded, exploded_classified_rows.
  eexists. split; [reflexivity|].
  set (keys := map (Spec.row_group_key c) _).
  destruct (groupby_size_table pair_eqb pair_ltb pair_eqb_eq pair_ltb_trans
              pair_ltb_or_gtb keys) as (Hasc & Hpos & Hcount).
  assert (Hkeys : dropna keys = Props.industry_skill_pairs c (rows filtered_df))
    by apply group_keys_pairs.
  rewrite Hkeys in Hcount.
  pose proof (ascending_NoDup pair_ltb pair_ltb_irrefl _ Hasc) as Hnd.
  assert (Hiff : forall p n,
             In (p, n) (groupby_size pair_eqb pair_ltb keys)
             <-> n = List.length
                       (filter (pair_eqb p)
                          (Props.industry_skill_pairs c (rows filtered_df)))
                 /\ 0 < n).
  { intros p n. split.
    - intro Hin. split.
      + rewrite <- Hcount. symmetry.
        now apply (count_for_listed pair_eqb pair_eqb_eq).
      + rewrite Forall_forall in Hpos. exact (Hpos (p, n) Hin).
    - intros [-> Hn]. rewrite <- Hcount in Hn |- *.
      destruct (listed_of_count_for pair_eqb pair_eqb_eq p _ Hn) as [m Hm].
      now rewrite (count_for_listed pair_eqb pair_eqb_eq p m _ Hnd Hm). }
  split; [exact Hasc|]. split; [exact Hiff|].
  rewrite Forall_forall. intros [p n] He. simpl.
  apply Hiff in He. destruct He as [-> Hn].
  destruct (filter (pair_eqb p)
              (Props.industry_skill_pairs c (rows filtered_df)))
    as [| q qs] eqn:Ef; [simpl in Hn; lia|].
  assert (Hq : In q (filter (pair_eqb p)
                       (Props.industry_skill_pairs c (rows filtered_df))))
    by (rewrite Ef; now left).
  apply filter_In in Hq. destruct Hq as [Hq Epq].
  apply pair_eqb_eq in Epq. subst q.
  now apply (industry_of_a_pair c (rows filtered_df)).
Qed.

(* ===================================================================== *)
(** * Further properties: the loader *)
(* ===================================================================== *)

Lemma mapM_Forall2 {A B : Type} (f : A -> PyResult B) (l : list A)
  (l' : list B) :
  mapM f l = Ok l' <-> Forall2 (fun x y => f x = Ok y) l l'.
Proof.
  revert l'. induction l as [| x l IH]; intro l'; simpl.
  - split.
    + intro H. injection H as <-. constructor.
    + intro H. inversion H. reflexivity.
  - split.
    + destruct (f x) as [y|e] eqn:Ex; simpl; [|discriminate].
      destruct (mapM f l) as [ys|e] eqn:El; simpl; [|discriminate].
      intro H. injection H as <-. constructor; [exact Ex|].
      now apply IH.
    + intro H. inversion H as [| ? y ? ys Ex Hl]; subst.
      rewrite Ex. simpl. apply IH in Hl. now rewrite Hl.
Qed.

Lemma mapM_raises_iff {A B : Type} (f : A -> PyResult B) (l : list A) :
  raises (mapM f l) = false <-> Forall (fun x => raises (f x) = false) l.
Proof.
  induction l as [| x l IH]; simpl; [split; [constructor|reflexivity]|].
  split.
  - destruct (f x) as [y|e] eqn:Ex; simpl; [|discriminate].
    destruct (mapM f l) as [ys|e] eqn:El; simpl; [|discriminate].
    intros _. constructor; [now rewrite Ex|]. now apply IH.
  - intro H. inversion H as [| ? ? Hx Hl]; subst.
    destruct (f x) as [y|e]; simpl in *; [|discriminate].
    apply IH in Hl. now destruct (mapM f l).
Qed.

Lemma mapM_assign {A : Type} (f : PyObj -> PyResult A)
  (set : A -> Row -> Row) (g : Row -> PyObj) (rs : list Row) :
  (cells <- mapM f (map g rs) ;; Ok (assign set rs cells))%py
  = mapM (fun r => (v <- f (g r) ;; Ok (set v r))%py) rs.
Proof.
  induction rs as [| r rs IH]; simpl; [reflexivity|].
  destruct (f (g r)) as [v|e]; simpl; [|reflexivity].
  rewrite <- IH. now destruct (mapM f (map g rs)).
Qed.

Lemma clean_column_by_rows (np : NumpyRelease)
  (literal_eval : string -> PyResult PyObj) (c : ListColumn)
  (df : DataFrame) :
  has_column (column_name c) df = true ->
  clean_column np literal_eval c df
  = (rs <- mapM (Props.clean_in_row np literal_eval c) (rows df) ;;
     Ok (mkFrame (columns df) rs))%py.
Proof.
  intro Hhas. unfold clean_column, Props.clean_in_row. rewrite Hhas.
  rewrite <- (mapM_assign (clean_cell np literal_eval) (set_list c)
                (get_list c) (rows df)).
  unfold setitem, col. rewrite (with_column_present _ _ Hhas).
  now destruct (mapM (clean_cell np literal_eval) (map (get_list c) (rows df))).
Qed.

Lemma load_msa_data_by_rows (np : NumpyRelease)
  (literal_eval : string -> PyResult PyObj) (table : list Row)
  (msa : string) :
  load_msa_data np literal_eval table msa
  = (r1 <- mapM (Props.clean_in_row np literal_eval SKILLS)
             (filter (Props.of_msa msa) table) ;;
     r2 <- mapM (Props.clean_in_row np literal_eval SPECIALIZED_SKILLS) r1 ;;
     r3 <- mapM (Props.clean_in_row np literal_eval CERTIFICATIONS) r2 ;;
     r4 <- mapM (Props.clean_in_row np literal_eval COMMON_SKILLS) r3 ;;
     Ok (mkFrame columns_needed r4))%py.
Proof.
  unfold load_msa_data. cbn [fold_left bind].
  rewrite (clean_column_by_rows np literal_eval SKILLS) by reflexivity.
  rewrite read_table_rows. cbn [columns read_table].
  destruct (mapM (Props.clean_in_row np literal_eval SKILLS) _) as [r1|e];
    [|reflexivity].
  cbn [bind].
  rewrite (clean_column_by_rows np literal_eval SPECIALIZED_SKILLS)
    by reflexivity.
  cbn [rows columns].
  destruct (mapM (Props.clean_in_row np literal_eval SPECIALIZED_SKILLS) _)
    as [r2|e]; [|reflexivity].
  cbn [bind].
  rewrite (clean_column_by_rows np literal_eval CERTIFICATIONS)
    by reflexivity.
  cbn [rows columns].
  destruct (mapM (Props.clean_in_row np literal_eval CERTIFICATIONS) _)
    as [r3|e]; [|reflexivity].
  cbn [bind].
  rewrite (clean_column_by_rows np literal_eval COMMON_SKILLS)
    by reflexivity.
  reflexivity.
Qed.

Lemma Forall2_chain {A : Type} (R S : A -> A -> Prop) (l1 l3 : list A) :
  (exists l2, Forall2 R l1 l2 /\ Forall2 S l2 l3)
  <-> Forall2 (fun a c => exists b, R a b /\ S b c) l1 l3.
Proof.
  split.
  - intros [l2 [H12 H23]]. revert l3 H23.
    induction H12 as [| a b l1 l2 Hab _ IH]; intros l3 H23;
      inversion H23; subst; constructor.
    + now exists b.
    + now apply IH.
  - induction 1 as [| a c l1 l3 [b [Hab Hbc]] _ [l2 [H12 H23]]].
    + exists []. split; constructor.
    + exists (b :: l2). split; now constructor.
Qed.

Lemma load_msa_data_Ok (np : NumpyRelease)
  (literal_eval : string -> PyResult PyObj) (table : list Row)
  (msa : string) (df : DataFrame) :
  load_msa_data np literal_eval table msa = Ok df
  <-> columns df = columns_needed
      /\ Forall2 (Props.cleaned np literal_eval)
                 (filter (Props.of_msa msa) table) (rows df).
Proof.
  rewrite load_msa_data_by_rows.
  set (P := fun c => Props.clean_in_row np literal_eval c).
  set (rs := filter (Props.of_msa msa) table).
  assert (Hrel : forall raw r,
             (exists b1, P SKILLS raw = Ok b1
                /\ exists b2, P SPECIALIZED_SKILLS b1 = Ok b2
                   /\ exists b3, P CERTIFICATIONS b2 = Ok b3
                      /\ P COMMON_SKILLS b3 = Ok r)
             <-> Props.cleaned np literal_eval raw r).
  { intros raw r. unfold P, Props.clean_in_row, Props.cleaned. split.
    - intros (b1 & H1 & b2 & H2 & b3 & H3 & H4).
      destruct (clean_cell np literal_eval (get_list SKILLS raw))
        as [v1|] eqn:E1; [|discriminate].
      cbn in H1. injection H1 as <-.
      destruct (clean_cell np literal_eval
                  (get_list SPECIALIZED_SKILLS (set_list SKILLS v1 raw)))
        as [v2|] eqn:E2; [|discriminate].
      cbn in H2. injection H2 as <-.
      destruct (clean_cell np literal_eval
                  (get_list CERTIFICATIONS
                     (set_list SPECIALIZED_SKILLS v2 (set_list SKILLS v1 raw))))
        as [v3|] eqn:E3; [|discriminate].
      cbn in H3. injection H3 as <-.
      destruct (clean_cell np literal_eval
                  (get_list COMMON_SKILLS
                     (set_list CERTIFICATIONS v3
                        (set_list SPECIALIZED_SKILLS v2
                           (set_list SKILLS v1 raw)))))
        as [v4|] eqn:E4; [|discriminate].
      cbn in H4. injection H4 as <-.
      exists v1, v2, v3, v4. cbn in E1, E2, E3, E4. now repeat split.
    - intros (v1 & v2 & v3 & v4 & E1 & E2 & E3 & E4 & ->).
      exists (set_list SKILLS v1 raw). split; [cbn; now rewrite E1|].
      exists (set_list SPECIALIZED_SKILLS v2 (set_list SKILLS v1 raw)).
      split; [cbn; now rewrite E2|].
      exists (set_list CERTIFICATIONS v3
                (set_list SPECIALIZED_SKILLS v2 (set_list SKILLS v1 raw))).
      split; [cbn; now rewrite E3|]. cbn. now rewrite E4. }
  split.
  - destruct (mapM (P SKILLS) rs) as [r1|] eqn:E1; [|discriminate].
    cbn [bind].
    destruct (mapM (P SPECIALIZED_SKILLS) r1) as [r2|] eqn:E2;
      [|discriminate].
    cbn [bind].
    destruct (mapM (P CERTIFICATIONS) r2) as [r3|] eqn:E3; [|discriminate].
    cbn [bind].
    destruct (mapM (P COMMON_SKILLS) r3) as [r4|] eqn:E4; [|discriminate].
    cbn [bind]. intro H. injection H as <-. split; [reflexivity|].
    cbn [rows]. apply mapM_Forall2 in E1, E2, E3, E4.
    eapply Forall2_impl; [intros raw r; apply (proj1 (Hrel raw r))|].
    apply Forall2_chain. exists r1. split; [exact E1|].
    apply Forall2_chain. exists r2. split; [exact E2|].
    apply Forall2_chain. exists r3. split; [exact E3|exact E4].
  - intros [Hcols Hall].
    eapply Forall2_impl in Hall; [|intros raw r; apply (proj2 (Hrel raw r))].
    apply Forall2_chain in Hall. destruct Hall as (r1 & H1 & Hall).
    apply Forall2_chain in Hall. destruct Hall as (r2 & H2 & Hall).
    apply Forall2_chain in Hall. destruct Hall as (r3 & H3 & H4).
    apply mapM_Forall2 in H1, H2, H3, H4.
    rewrite H1. cbn [bind]. rewrite H2. cbn [bind].
    rewrite H3. cbn [bind]. rewrite H4. cbn [bind].
    f_equal. destruct df as [cols rws]. cbn in Hcols |- *. now subst.
Qed.

Lemma Forall2_in_r {A B : Type} (R : A -> B -> Prop) (l1 : list A)
  (l2 : list B) (y : B) :
  Forall2 R l1 l2 -> In y l2 -> exists x, In x l1 /\ R x y.
Proof.
  induction 1 as [| a b l1 l2 Hab _ IH]; simpl; [contradiction|].
  intros [<- | Hy].
  - exists a. split; [now left|exact Hab].
  - destruct (IH Hy) as [x [Hx Hxy]]. exists x. split; [now right|exact Hxy].
Qed.

Lemma cleaned_keeps_the_rest (np : NumpyRelease)
  (literal_eval : string -> PyResult PyObj) (raw r : Row) :
  Props.cleaned np literal_eval raw r ->
  MSA_NAME r = MSA_NAME raw /\ SALARY_TO r = SALARY_TO raw
  /\ SALARY_FROM r = SALARY_FROM raw.
Proof.
  intros (v1 & v2 & v3 & v4 & _ & _ & _ & _ & ->). now repeat split.
Qed.

Lemma of_msa_MSA_NAME (msa : string) (r : Row) :
  Props.of_msa msa r = true <-> MSA_NAME r = Some msa.
Proof.
  unfold Props.of_msa. destruct (MSA_NAME r) as [m|].
  - rewrite String.eqb_eq. split; congruence.
  - split; discriminate.
Qed.

(** X16.  The loader succeeds with a frame exactly when that frame has
    the eighteen columns asked for and its rows are, in order, the
    postings of the chosen MSA with each of their four list cells
    replaced by its cleaned value and every other cell as read.  A loaded
    frame therefore has as many rows as the table has postings of the
    MSA, and all of them carry that MSA. *)
Theorem loader_returns_the_cleaned_postings (np : NumpyRelease)
  (literal_eval : string -> PyResult PyObj) (table : list Row)
  (msa : string) (df : DataFrame) :
  (load_msa_data np literal_eval table msa = Ok df
   <-> columns df = columns_needed
       /\ Forall2 (Props.cleaned np literal_eval)
                  (filter (Props.of_msa msa) table) (rows df))
  /\ (load_msa_data np literal_eval table msa = Ok df ->
      List.length (rows df)
      = List.length (filter (Props.of_msa msa) table)
      /\ Forall (fun r => MSA_NAME r = Some msa) (rows df)).
Proof.
  split; [apply load_msa_data_Ok|].
  intro H. apply load_msa_data_Ok in H. destruct H as [_ Hall].
  split; [symmetry; now apply (Forall2_length Hall)|].
  apply Forall_forall. intros r Hr.
  destruct (Forall2_in_r _ _ _ r Hall Hr) as [raw [Hraw Hc]].
  destruct (cleaned_keeps_the_rest _ _ _ _ Hc) as [-> _].
  apply filter_In in Hraw. now apply of_msa_MSA_NAME.
Qed.

Lemma loader_returns_the_cleaned_postings_witness :
  List.length
    (rows (mkFrame columns_needed
             [ mkRow None None None None None (PyList []) None None None None
                     None None None None (PyList []) (PyList []) (PyList [])
                     (Some "Springfield") None;
               mkRow None None None None None (PyList []) None None None None
                     None None None None (PyList ["Python"]) (PyList [])
                     (PyList []) (Some "Springfield") None ]))
  = List.length (filter (Props.of_msa "Springfield") Scenario.raw_table).
Proof.
  exact (proj1 (proj2 (loader_returns_the_cleaned_postings
                         numpy_before_2_2 Scenario.decodes_python
                         Scenario.raw_table "Springfield" _) eq_refl)).
Defined.

Lemma cleans_iff (np : NumpyRelease)
  (literal_eval : string -> PyResult PyObj) (raw : Row) :
  Props.cleans np literal_eval raw = true
  <-> exists r, Props.cleaned np literal_eval raw r.
Proof.
  unfold Props.cleans, Props.cleaned.
  rewrite !andb_true_iff, !negb_true_iff. split.
  - intros [[[H1 H2] H3] H4].
    destruct (clean_cell np literal_eval (SKILLS_NAME raw)) as [v1|];
      [|discriminate].
    destruct (clean_cell np literal_eval (SPECIALIZED_SKILLS_NAME raw))
      as [v2|]; [|discriminate].
    destruct (clean_cell np literal_eval (CERTIFICATIONS_NAME raw))
      as [v3|]; [|discriminate].
    destruct (clean_cell np literal_eval (COMMON_SKILLS_NAME raw))
      as [v4|]; [|discriminate].
    eexists. exists v1, v2, v3, v4. now repeat split.
  - intros (r & v1 & v2 & v3 & v4 & E1 & E2 & E3 & E4 & _).
    now rewrite E1, E2, E3, E4.
Qed.

Lemma Forall2_exists {A B : Type} (R : A -> B -> Prop) (l : list A) :
  (exists l', Forall2 R l l') <-> Forall (fun x => exists y, R x y) l.
Proof.
  split.
  - intros [l' H]. induction H as [| a b l l' Hab _ IH]; constructor;
      [now exists b|exact IH].
  - induction 1 as [| a l [b Hab] _ [l' IH]].
    + exists []. constructor.
    + exists (b :: l'). now constructor.
Qed.

Lemma filter_idempotent {A : Type} (p : A -> bool) (l : list A) :
  filter p (filter p l) = filter p l.
Proof.
  rewrite filter_twice. apply filter_ext. intro x. apply andb_diag.
Qed.

(** X17.  The loader fails exactly when a list cell of a posting of the
    chosen MSA cannot be cleaned: postings of other MSAs play no part,
    whatever their cells hold.  For a cell as the file stores it, a
    missing cell always cleans and a text cleans exactly when
    [ast.literal_eval] accepts it. *)
Theorem loader_fails_only_on_cells_of_the_chosen_msa (np : NumpyRelease)
  (literal_eval : string -> PyResult PyObj) (table : list Row)
  (msa : string) :
  (raises (load_msa_data np literal_eval table msa) = false
   <-> Forall (fun r => Props.cleans np literal_eval r = true)
              (filter (Props.of_msa msa) table))
  /\ load_msa_data np literal_eval table msa
     = load_msa_data np literal_eval (filter (Props.of_msa msa) table) msa
  /\ raises (clean_cell np literal_eval PyNaN) = false
  /\ (forall s, raises (clean_cell np literal_eval (PyStr s))
                = raises (literal_eval s)).
Proof.
  split.
  { transitivity (exists df, load_msa_data np literal_eval table msa = Ok df).
    - destruct (load_msa_data np literal_eval table msa) as [df|e]; simpl.
      + split; [intros _; now exists df|reflexivity].
      + split; [discriminate|intros [df H]; discriminate].
    - transitivity (exists rs, Forall2 (Props.cleaned np literal_eval)
                                 (filter (Props.of_msa msa) table) rs).
      + split.
        * intros [df H]. apply load_msa_data_Ok in H. exists (rows df).
          apply H.
        * intros [rs H]. exists (mkFrame columns_needed rs).
          apply load_msa_data_Ok. now split.
      + rewrite Forall2_exists. split; apply Forall_impl; intro r;
          apply cleans_iff. }
  split.
  { rewrite !load_msa_data_by_rows. now rewrite filter_idempotent. }
  split; reflexivity.
Qed.

(* ===================================================================== *)
(** * Further properties: one run of the page *)
(* ===================================================================== *)

Lemma run_cons_Ok (b : Block) (blocks : list Block)
  (f0 f1 f2 : DataFrame) (g1 g2 : list Figure) :
  b f0 = Ok (f1, g1) -> run blocks f1 = Ok (f2, g2) ->
  run (b :: blocks) f0 = Ok (f2, g1 ++ g2).
Proof.
  intros Hb Hr. simpl. rewrite Hb. cbn. rewrite Hr. reflexivity.
Qed.

Lemma top_skills_Ok (f : DataFrame) : exists t, top_skills f = Ok t.
Proof.
  unfold top_skills, exploded_skills. rewrite skill_counts_exploded.
  eexists. reflexivity.
Qed.

Lemma skill_data_Ok (c : ListColumn) (f : DataFrame) :
  exists t, skill_data c f = Ok t.
Proof.
  rewrite skill_data_exploded. eexists. reflexivity.
Qed.

(** On a frame with the eighteen columns, eight figures are drawn and the
    frame is left with the average column added. *)
Lemma run_charts_on_the_needed_columns (f : DataFrame) :
  columns f = columns_needed ->
  exists figs,
    run charts f = Ok (add_Average_Salary f, figs)
    /\ List.length figs = 8.
Proof.
  intro Hc.
  assert (H0 : forall name, has_column name f
                            = existsb (String.eqb name) columns_needed).
  { intro name. unfold has_column. now rewrite Hc. }
  assert (H1 : forall name, has_column name (add_Average_Salary f)
                            = existsb (String.eqb name)
                                (columns_needed ++ ["Average_Salary"])).
  { intro name. unfold has_column, add_Average_Salary, setitem.
    cbn [columns]. now rewrite Hc. }
  destruct (top_skills_Ok (add_Average_Salary f)) as [t1 E1].
  destruct (skill_data_Ok SPECIALIZED_SKILLS (add_Average_Salary f))
    as [t2 E2].
  destruct (skill_data_Ok CERTIFICATIONS (add_Average_Salary f)) as [t3 E3].
  eexists. split.
  - unfold charts.
    eapply run_cons_Ok.
    { unfold industry_block. rewrite H0. reflexivity. }
    eapply run_cons_Ok.
    { unfold occupation_block. rewrite H0. reflexivity. }
    eapply run_cons_Ok.
    { unfold salary_block. rewrite !H0. reflexivity. }
    eapply run_cons_Ok.
    { unfold skills_block. rewrite H1, E1. reflexivity. }
    eapply run_cons_Ok.
    { unfold company_block. rewrite H1. reflexivity. }
    eapply run_cons_Ok.
    { unfold education_block. rewrite H1. reflexivity. }
    eapply run_cons_Ok.
    { unfold treemap_block. rewrite !H1, E2. reflexivity. }
    eapply run_cons_Ok.
    { unfold treemap_block. rewrite !H1, E3. reflexivity. }
    reflexivity.
  - reflexivity.
Qed.

Lemma normalize_remote_type_columns (pd : PandasRelease) (df : DataFrame) :
  columns (normalize_remote_type pd df)
  = with_column "REMOTE_TYPE_NAME" (columns df).
Proof.
  unfold normalize_remote_type, fillna_inplace, setitem.
  destruct pd; cbn [columns]; unfold with_column;
    destruct (existsb (String.eqb "REMOTE_TYPE_NAME") (columns df)) eqn:E.
  - now rewrite !E.
  - assert (E' : existsb (String.eqb "REMOTE_TYPE_NAME")
                   (columns df ++ ["REMOTE_TYPE_NAME"]) = true).
    { rewrite existsb_app. simpl. apply orb_true_r. }
    now rewrite !E'.
  - now rewrite !E.
  - assert (E' : existsb (String.eqb "REMOTE_TYPE_NAME")
                   (columns df ++ ["REMOTE_TYPE_NAME"]) = true).
    { rewrite existsb_app. simpl. apply orb_true_r. }
    now rewrite !E'.
Qed.

Lemma normalize_remote_type_keeps (A : Type) (f : Row -> A)
  (pd : PandasRelease) (df : DataFrame) :
  (forall v r, f (set_REMOTE_TYPE_NAME v r) = f r) ->
  col f (normalize_remote_type pd df) = col f df.
Proof.
  intro Hf. unfold col. rewrite normalize_remote_type_rows, map_map.
  apply map_ext. intro r. apply Hf.
Qed.

Lemma slider_raises_without_salary_to (df : DataFrame) :
  existsb Props.has_salary_to (rows df) = false ->
  salary_range_max_value df = Raise ValueError.
Proof.
  unfold salary_range_max_value, col. intro H.
  assert (E : dropna (map SALARY_TO (rows df)) = []).
  { induction (rows df) as [| r rs IH]; [reflexivity|].
    simpl in H. apply orb_false_iff in H. destruct H as [Hr Hrs].
    unfold Props.has_salary_to in Hr. simpl.
    destruct (SALARY_TO r); [discriminate|]. now apply IH. }
  now rewrite E.
Qed.

Lemma has_salary_to_cleaned (np : NumpyRelease)
  (literal_eval : string -> PyResult PyObj) (l l' : list Row) :
  Forall2 (Props.cleaned np literal_eval) l l' ->
  existsb Props.has_salary_to l' = existsb Props.has_salary_to l.
Proof.
  induction 1 as [| raw r l l' Hc _ IH]; simpl; [reflexivity|].
  rewrite IH. f_equal. unfold Props.has_salary_to.
  now destruct (cleaned_keeps_the_rest _ _ _ _ Hc) as (_ & -> & _).
Qed.

Lemma has_salary_to_normalized (pd : PandasRelease) (df : DataFrame) :
  existsb Props.has_salary_to (rows (normalize_remote_type pd df))
  = existsb Props.has_salary_to (rows df).
Proof.
  rewrite normalize_remote_type_rows.
  induction (rows df) as [| r rs IH]; simpl; [reflexivity|].
  now rewrite IH.
Qed.

Lemma filtered_columns (df : DataFrame) (sb : Sidebar) :
  columns (filtered_df df sb) = columns df.
Proof. now rewrite filtered_df_rows. Qed.

(** X18.  A run of the page for a chosen MSA fails when the loader
    fails, and it fails when no posting of the MSA states an upper
    salary bound, the script then stopping at line 62.  Once the loader
    has returned, the run fails exactly when line 62 does: neither the
    filter block nor any chart can fail, whatever the widgets return and
    whichever the pandas release. *)
Theorem page_fails_only_at_the_loader_or_the_slider (np : NumpyRelease)
  (pd : PandasRelease)
  (literal_eval : string -> PyResult PyObj) (table : list Row)
  (msa : string) (sb : Sidebar) :
  (raises (load_msa_data np literal_eval table msa) = true ->
   raises (page np pd literal_eval table msa sb) = true)
  /\ (existsb Props.has_salary_to (filter (Props.of_msa msa) table) = false ->
      raises (page np pd literal_eval table msa sb) = true)
  /\ (forall df,
        load_msa_data np literal_eval table msa = Ok df ->
        raises (page np pd literal_eval table msa sb)
        = raises (salary_range_max_value (normalize_remote_type pd df))).
Proof.
  assert (Hloaded : forall df,
             load_msa_data np literal_eval table msa = Ok df ->
             raises (page np pd literal_eval table msa sb)
             = raises (salary_range_max_value (normalize_remote_type pd df))).
  { intros df El. unfold page. rewrite El. cbn [bind].
    apply load_msa_data_Ok in El. destruct El as [Hcols Hall].
    destruct (salary_range_max_value (normalize_remote_type pd df))
      as [b|e]; cbn [bind raises]; [|reflexivity].
    destruct (run_charts_on_the_needed_columns
                (filtered_df (normalize_remote_type pd df) sb))
      as (figs & Er & _).
    { rewrite filtered_columns, normalize_remote_type_columns, Hcols.
      reflexivity. }
    now rewrite Er. }
  split; [|split; [|exact Hloaded]].
  - unfold page.
    now destruct (load_msa_data np literal_eval table msa).
  - intro Hnone.
    destruct (load_msa_data np literal_eval table msa) as [df|e] eqn:El.
    + rewrite (Hloaded df eq_refl).
      apply load_msa_data_Ok in El. destruct El as [Hcols Hall].
      rewrite slider_raises_without_salary_to; [reflexivity|].
      rewrite has_salary_to_normalized.
      now rewrite (has_salary_to_cleaned _ _ _ _ Hall).
    + unfold page. now rewrite El.
Qed.

Lemma page_fails_only_at_the_loader_or_the_slider_witness :
  raises (page numpy_from_2_2 pandas_from_3 Scenario.decodes_python
               Scenario.raw_table "Springfield" Cases.sidebar_defaults)
  = true.
Proof.
  apply (proj1 (proj2 (page_fails_only_at_the_loader_or_the_slider
                         numpy_from_2_2 pandas_from_3 Scenario.decodes_python
                         Scenario.raw_table "Springfield"
                         Cases.sidebar_defaults))).
  reflexivity.
Defined.

(** X19.  When a run of the page succeeds, the frame offered for
    download is the filtered frame as it stands before any chart is
    drawn: it has the eighteen columns read from the file and no
    [Average_Salary]; each of its rows is a posting of the chosen MSA
    that satisfies the five predicate groups; a remote type that is a
    text has no white space at either end, and a null remote type
    occurs from pandas 3 on only; there are no more rows than the table
    has postings of the MSA; the download is named after the MSA, and
    eight figures are drawn. *)
Theorem page_offers_the_filtered_frame (np : NumpyRelease)
  (pd : PandasRelease)
  (literal_eval : string -> PyResult PyObj) (table : list Row)
  (msa : string) (sb : Sidebar) (p : Page) :
  page np pd literal_eval table msa sb = Ok p ->
  (exists df,
     load_msa_data np literal_eval table msa = Ok df
     /\ csv_frame p = filtered_df (normalize_remote_type pd df) sb)
  /\ columns (csv_frame p) = columns_needed
  /\ ~ In "Average_Salary" (columns (csv_frame p))
  /\ Forall (fun r => MSA_NAME r = Some msa
                      /\ Spec.keeps sb r
                      /\ match REMOTE_TYPE_NAME r with
                         | Some t => Spec.trimmed t
                         | None => pd = pandas_from_3
                         end)
            (rows (csv_frame p))
  /\ List.length (rows (csv_frame p))
     <= List.length (filter (Props.of_msa msa) table)
  /\ csv_file_name p = file_name msa
  /\ List.length (figures p) = 8.
Proof.
  unfold page.
  destruct (load_msa_data np literal_eval table msa) as [df|e] eqn:El;
    cbn [bind]; [|discriminate].
  destruct (salary_range_max_value (normalize_remote_type pd df)) as [b|e];
    cbn [bind]; [|discriminate].
  pose proof El as Hload.
  apply load_msa_data_Ok in El. destruct El as [Hcols Hall].
  assert (Hfc : columns (filtered_df (normalize_remote_type pd df) sb)
                = columns_needed).
  { rewrite filtered_columns, normalize_remote_type_columns, Hcols.
    reflexivity. }
  destruct (run_charts_on_the_needed_columns _ Hfc) as (figs & Er & Hlen).
  rewrite Er. cbn [bind snd]. intro H. injection H as <-.
  cbn [csv_frame csv_file_name figures].
  split; [now exists df|].
  split; [exact Hfc|].
  split; [rewrite Hfc; simpl; intuition discriminate|].
  split.
  - apply Forall_forall. intros r Hr.
    rewrite filtered_df_rows in Hr. cbn [rows] in Hr.
    apply filter_In in Hr. destruct Hr as [Hin Hs].
    apply satisfies_iff in Hs.
    rewrite normalize_remote_type_rows in Hin. apply in_map_iff in Hin.
    destruct Hin as [r0 [<- Hr0]].
    split; [|split; [exact Hs|]].
    + cbn. destruct (Forall2_in_r _ _ _ r0 Hall Hr0) as [raw [Hraw Hc]].
      destruct (cleaned_keeps_the_rest _ _ _ _ Hc) as [-> _].
      apply filter_In in Hraw. now apply of_msa_MSA_NAME.
    + rewrite REMOTE_set_REMOTE. unfold Spec.remote_cell.
      destruct pd, (REMOTE_TYPE_NAME r0);
        reflexivity || apply normalized_cell_trimmed.
  - split; [|split; reflexivity || exact Hlen].
    rewrite filtered_df_rows. cbn [rows].
    rewrite (Forall2_length Hall).
    rewrite normalize_remote_type_rows.
    etransitivity; [apply filter_length_le|]. now rewrite length_map.
Qed.

Lemma page_offers_the_filtered_frame_witness :
  exists p,
    page numpy_before_2_2 pandas_before_3 Scenario.decodes_python
         Cases.stored_table "Springfield" Cases.sidebar_defaults = Ok p
    /\ columns (csv_frame p) = columns_needed
    /\ List.length (figures p) = 8.
Proof.
  destruct (page numpy_before_2_2 pandas_before_3 Scenario.decodes_python
              Cases.stored_table "Springfield" Cases.sidebar_defaults)
    as [p|e] eqn:E;
    [|vm_compute in E; discriminate].
  exists p. split; [reflexivity|].
  destruct (page_offers_the_filtered_frame _ _ _ _ _ _ p E)
    as (_ & Hc & _ & _ & _ & _ & Hf).
  now split.
Defined.

(* ===================================================================== *)
(** * Further properties: texts *)
(* ===================================================================== *)

Lemma replace_space_chars (s : string) :
  list_ascii_of_string (replace_space s)
  = map (fun c => if Ascii.eqb c " " then "_"%char else c)
        (list_ascii_of_string s).
Proof.
  induction s as [| c s IH]; simpl; [reflexivity|]. now rewrite IH.
Qed.

Lemma list_ascii_of_append (s1 s2 : string) :
  list_ascii_of_string (s1 ++ s2)%string
  = list_ascii_of_string s1 ++ list_ascii_of_string s2.
Proof.
  induction s1 as [| c s1 IH]; simpl; [reflexivity|]. now rewrite IH.
Qed.

Lemma string_length_append (s1 s2 : string) :
  String.length (s1 ++ s2)%string = String.length s1 + String.length s2.
Proof.
  induction s1 as [| c s1 IH]; simpl; [reflexivity|]. now rewrite IH.
Qed.

Lemma replace_space_length (s : string) :
  String.length (replace_space s) = String.length s.
Proof.
  induction s as [| c s IH]; simpl; [reflexivity|]. now rewrite IH.
Qed.

Lemma replace_space_without_space (s : string) :
  ~ In " "%char (list_ascii_of_string s) -> replace_space s = s.
Proof.
  induction s as [| c s IH]; simpl; intro H; [reflexivity|].
  destruct (Ascii.eqb c " ") eqn:E.
  - apply Ascii.eqb_eq in E. subst c. exfalso. apply H. now left.
  - f_equal. apply IH. intro Hin. apply H. now right.
Qed.

(** X20.  The name of the download holds no space, whatever the name of
    the MSA: every space of the MSA name is replaced by an underscore, one
    for one, and nothing else is changed, so the name is the MSA name
    itself between the prefix and the extension when it has no space, and
    always eighteen characters longer than the MSA name. *)
Theorem download_name_has_no_space (msa : string) :
  ~ In " "%char (list_ascii_of_string (file_name msa))
  /\ String.length (file_name msa) = 18 + String.length msa
  /\ list_ascii_of_string (replace_space msa)
     = map (fun c => if Ascii.eqb c " " then "_"%char else c)
           (list_ascii_of_string msa)
  /\ (~ In " "%char (list_ascii_of_string msa) ->
      file_name msa = ("filtered_jobs_" ++ msa ++ ".csv")%string).
Proof.
  unfold file_name.
  split.
  { rewrite !list_ascii_of_append. rewrite !in_app_iff.
    intros [H | [H | H]].
    - simpl in H. intuition discriminate.
    - rewrite replace_space_chars in H. apply in_map_iff in H.
      destruct H as [c [E _]].
      destruct (Ascii.eqb c " ") eqn:Ec; [discriminate|].
      subst c. discriminate.
    - simpl in H. intuition discriminate. }
  split.
  { rewrite !string_length_append, replace_space_length. simpl. lia. }
  split; [apply replace_space_chars|].
  intro H. now rewrite replace_space_without_space.
Qed.

Lemma download_name_has_no_space_witness :
  file_name "Springfield" = "filtered_jobs_Springfield.csv".
Proof.
  apply (proj2 (proj2 (proj2 (download_name_has_no_space "Springfield")))).
  simpl. intuition discriminate.
Defined.

Lemma with_column_twice (name : string) (cols : list string) :
  with_column name (with_column name cols) = with_column name cols.
Proof.
  unfold with_column.
  destruct (existsb (String.eqb name) cols) eqn:E; [now rewrite E|].
  assert (E' : existsb (String.eqb name) (cols ++ [name]) = true).
  { rewrite existsb_app. simpl. rewrite String.eqb_refl. apply orb_true_r. }
  now rewrite E'.
Qed.

Lemma normalize_remote_cell_twice (cell : option string) :
  Spec.normalize_remote_cell (Some (Spec.normalize_remote_cell cell))
  = if String.eqb (Spec.normalize_remote_cell cell) "[None]"
    then "Unspecified"
    else Spec.normalize_remote_cell cell.
Proof.
  unfold Spec.normalize_remote_cell at 1.
  destruct (String.eqb (Spec.normalize_remote_cell cell) "[None]");
    [reflexivity|].
  unfold Spec.normalize_remote_cell.
  destruct cell as [t|]; [|reflexivity].
  destruct (String.eqb t "[None]"); [reflexivity|apply strip_twice].
Qed.

Lemma remote_cell_twice (pd : PandasRelease) (cell : option string) :
  Spec.normalize_remote_cell cell <> "[None]" ->
  Spec.remote_cell pd (Spec.remote_cell pd cell) = Spec.remote_cell pd cell.
Proof.
  intro Hne. apply String.eqb_neq in Hne.
  destruct pd, cell as [t|]; unfold Spec.remote_cell;
    try reflexivity; f_equal;
    now rewrite normalize_remote_cell_twice, Hne.
Qed.

(** X22.  The replacement of "[None]" comes before the stripping, so a
    cell that reads "[None]" only once stripped keeps that text.
    Normalising a second time would turn exactly those cells into
    "Unspecified" and leave every other cell alone: on a frame without
    such a cell the normalisation of lines 56-58 is idempotent, under
    either pandas release. *)
Theorem remote_type_normalization_twice (pd : PandasRelease)
  (df : DataFrame) :
  (forall t, t <> "[None]" -> strip t = "[None]" ->
             Spec.remote_cell pd (Some t) = Some "[None]")
  /\ (forall cell,
        Spec.normalize_remote_cell (Some (Spec.normalize_remote_cell cell))
        = if String.eqb (Spec.normalize_remote_cell cell) "[None]"
          then "Unspecified"
          else Spec.normalize_remote_cell cell)
  /\ (Forall (fun cell => Spec.normalize_remote_cell cell <> "[None]")
             (col REMOTE_TYPE_NAME df) ->
      normalize_remote_type pd (normalize_remote_type pd df)
      = normalize_remote_type pd df).
Proof.
  split.
  { intros t Ht Hs. apply String.eqb_neq in Ht.
    destruct pd; unfold Spec.remote_cell, Spec.normalize_remote_cell;
      now rewrite Ht, Hs. }
  split; [apply normalize_remote_cell_twice|].
  intro Hall.
  rewrite <- (frame_eta
                (normalize_remote_type pd (normalize_remote_type pd df))).
  rewrite <- (frame_eta (normalize_remote_type pd df)) at 3.
  f_equal.
  - rewrite !normalize_remote_type_columns. apply with_column_twice.
  - rewrite (normalize_remote_type_rows pd (normalize_remote_type pd df)).
    rewrite normalize_remote_type_rows, map_map.
    apply map_ext_in. intros r Hr.
    rewrite REMOTE_set_REMOTE, set_REMOTE_twice. f_equal.
    apply remote_cell_twice.
    rewrite Forall_forall in Hall. apply Hall. unfold col. now apply in_map.
Qed.

Lemma remote_type_normalization_twice_witness :
  normalize_remote_type pandas_from_3
    (normalize_remote_type pandas_from_3 Scenario.remote_types)
  = normalize_remote_type pandas_from_3 Scenario.remote_types
  /\ Spec.remote_cell pandas_from_3 (Some " [None]") = Some "[None]".
Proof.
  destruct (remote_type_normalization_twice pandas_from_3
              Scenario.remote_types)
    as (Hkeep & _ & Hidem).
  split.
  - apply Hidem. repeat constructor; discriminate.
  - apply Hkeep; [discriminate|reflexivity].
Defined.

(* ===================================================================== *)
(** * Further properties: explode *)
(* ===================================================================== *)

Lemma set_list_twice (c : ListColumn) (v w : PyObj) (r : Row) :
  set_list c v (set_list c w r) = set_list c v r.
Proof. now destruct c. Qed.

Lemma explode_cell_of_scalar (x v : PyObj) :
  In v (explode_cell x) -> explode_cell v = [v].
Proof.
  destruct x as [| s | [| a l]]; simpl.
  - intros [<- | []]. reflexivity.
  - intros [<- | []]. reflexivity.
  - intros [<- | []]. reflexivity.
  - intros [<- | H]; [reflexivity|].
    apply in_map_iff in H. destruct H as [t [<- _]]. reflexivity.
Qed.

Lemma flat_map_singleton {A : Type} (f : A -> list A) (l : list A) :
  (forall x, In x l -> f x = [x]) -> flat_map f l = l.
Proof.
  induction l as [| x l IH]; simpl; intro H; [reflexivity|].
  rewrite (H x (or_introl eq_refl)). simpl. f_equal.
  apply IH. intros y Hy. apply H. now right.
Qed.

Lemma flat_map_ext_in {A B : Type} (f g : A -> list B) (l : list A) :
  (forall x, In x l -> f x = g x) -> flat_map f l = flat_map g l.
Proof.
  induction l as [| x l IH]; simpl; intro H; [reflexivity|].
  rewrite (H x (or_introl eq_refl)). f_equal.
  apply IH. intros y Hy. apply H. now right.
Qed.

(** X23.  Exploding a column leaves no list in it and changes nothing
    else: every exploded row is a row of the frame with only that cell
    replaced by one of its elements (or by null for an empty list), rows
    and elements keep their order, and exploding the same column again
    changes nothing. *)
Theorem explode_leaves_scalars (c : ListColumn) (df : DataFrame) :
  Forall (fun r' => Spec.is_sequence (get_list c r') = false)
         (rows (explode c df))
  /\ Forall (fun r' => exists r v,
                 In r (rows df) /\ In v (explode_cell (get_list c r))
                 /\ r' = set_list c v r)
            (rows (explode c df))
  /\ col (get_list c) (explode c df)
     = flat_map (fun r => explode_cell (get_list c r)) (rows df)
  /\ explode c (explode c df) = explode c df.
Proof.
  assert (Hrows : forall r', In r' (rows (explode c df)) ->
                    exists r v, In r (rows df)
                                /\ In v (explode_cell (get_list c r))
                                /\ r' = set_list c v r).
  { intros r' Hr'. unfold explode in Hr'. cbn [rows] in Hr'.
    apply in_flat_map in Hr'. destruct Hr' as [r [Hr Hv]].
    apply in_map_iff in Hv. destruct Hv as [v [<- Hv]]. now exists r, v. }
  split.
  { apply Forall_forall. intros r' Hr'.
    destruct (Hrows r' Hr') as (r & v & _ & Hv & ->).
    rewrite get_set_list.
    destruct (get_list c r) as [| s | [| a l]]; simpl in Hv.
    - destruct Hv as [<- | []]. reflexivity.
    - destruct Hv as [<- | []]. reflexivity.
    - destruct Hv as [<- | []]. reflexivity.
    - destruct Hv as [<- | Hv]; [reflexivity|].
      apply in_map_iff in Hv. destruct Hv as [t [<- _]]. reflexivity. }
  split; [now apply Forall_forall|].
  split; [apply exploded_col|].
  transitivity (mkFrame (columns (explode c df)) (rows (explode c df)));
    [|apply frame_eta].
  unfold explode at 1. f_equal.
  rewrite <- (flat_map_singleton (fun r => [r]) (rows (explode c df))) at 2
    by reflexivity.
  apply flat_map_ext_in. intros r' Hr'.
  destruct (Hrows r' Hr') as (r & v & _ & Hv & ->).
  rewrite get_set_list, (explode_cell_of_scalar _ _ Hv). simpl.
  now rewrite set_list_twice.
Qed.
